(** * Run orchestration and memory engine: a shallow embedding

    This development embeds two source files of the agent runtime,

    - [libs/agno/agno/memory/agent.py]   (classes [AgentRun], [AgentMemory]),
    - [libs/agno/agno/app/fastapi/sync_router.py]   (the response streamers
      and the [/runs] handler),

    and states the properties of the specification over the embedding.

    Python objects become records, [Optional[T]] becomes [option T], a list
    updated by index is a [list] with stdpp's lookup [l !! i] and insert
    [<[i:=x]> l], and code that calls collaborators, mutates [self] or raises
    runs in a state-and-exception monad whose state carries a trace of the
    collaborator calls. *)

From Stdlib Require Import String Ascii.
From stdpp Require Import base option list strings.

Set Default Proof Using "Type".
Local Open Scope string_scope.
Local Open Scope list_scope.

(** ** Python exceptions and results *)

(** The instances of Python's [Exception] that the two files raise
    themselves, and [OtherException] for whatever a collaborator (a model
    provider, a store adapter, a serializer) raises.  Every constructor is an
    instance of [Exception], so [except Exception] handles all of them. *)
Inductive PyExc :=
| NotImplementedError (msg : string)
| UnboundLocalError (name : string)
| HTTPException (status_code : nat) (detail : string)
| OtherException (msg : string).

(** [str(e)] *)
Definition str_exc (e : PyExc) : string :=
  match e with
  | NotImplementedError msg => msg
  | UnboundLocalError name =>
      "cannot access local variable '" +:+ name +:+
      "' where it is not associated with a value"
  | HTTPException _ detail => detail
  | OtherException msg => msg
  end.

(** The outcome of evaluating a Python expression or statement. *)
Inductive Result (A : Type) :=
| Ok (a : A)
| Raise (e : PyExc).
Arguments Ok {A} a.
Arguments Raise {A} e.

(** ** Statements that mutate state and may raise *)

(** A block of statements over a machine state [S]: from a state to a value
    or a raised exception, and the state at that point. *)
Definition M (S A : Type) : Type := S → Result A * S.

Definition ret {S A} (a : A) : M S A := λ st, (Ok a, st).

Definition bind {S A B} (m : M S A) (k : A → M S B) : M S B :=
  λ st, match m st with
        | (Ok a, st') => k a st'
        | (Raise e, st') => (Raise e, st')
        end.

(** [raise e] *)
Definition raise {S A} (e : PyExc) : M S A := λ st, (Raise e, st).

(** [try: body  except Exception as e: handler e] *)
Definition try_except {S A} (body : M S A) (handler : PyExc → M S A)
  : M S A :=
  λ st, match body st with
        | (Ok a, st') => (Ok a, st')
        | (Raise e, st') => handler e st'
        end.

Notation "'let*' x ':=' m 'in' k" := (bind m (λ x, k))
  (at level 10, x name, m at level 100, k at level 200).
Notation "m '>>' k" := (bind m (λ _, k))
  (at level 100, k at level 200, right associativity).

Module Memory.

(** ** Data model *)

(** [Message.content] is [Optional[Union[List[Any], str]]]. *)
Inductive Content :=
| ContentNone
| ContentStr (s : string)
| ContentList (parts : list string).

#[global] Instance Content_eq_dec : EqDecision Content.
Proof. solve_decision. Defined.

(** Modelled from the spec: class [Message] of [agno.models.message], which
    is imported and not defined in the files embedded here.  "Message: role,
    content, optional tool-call list, optional provenance flag from_history".
    The test [hasattr(message, "from_history") and message.from_history] of
    the source is the field [from_history]. *)
Record Message := {
  role : string;
  content : Content;
  tool_calls : option (list string);
  from_history : bool
}.

#[global] Instance Message_eq_dec : EqDecision Message.
Proof. solve_decision. Defined.

(** Modelled from the spec: class [RunResponse] of [agno.run.response]: "a
    result (itself containing a message list and a run identifier)".  The
    fields are prefixed because [AgentRun] and [AgentMemory] have a
    [messages] field of their own. *)
Record RunResponse := {
  run_id : option string;
  rr_messages : option (list Message);
  rr_content : option string
}.

#[global] Instance RunResponse_eq_dec : EqDecision RunResponse.
Proof. solve_decision. Defined.

(** class [AgentRun] *)
Record AgentRun := {
  message : option Message;
  ar_messages : option (list Message);
  response : option RunResponse
}.

#[global] Instance AgentRun_eq_dec : EqDecision AgentRun.
Proof. solve_decision. Defined.

(** Modelled from the spec: enum [MemoryRetrieval] of [agno.memory.memory]:
    "a retrieval order policy (most-recent-first, oldest-first; semantic
    ordering explicitly unsupported)".  The source names [last_n] and
    [first_n]; the remaining member is the semantic mode. *)
Inductive MemoryRetrieval := last_n | first_n | semantic.

#[global] Instance MemoryRetrieval_eq_dec : EqDecision MemoryRetrieval.
Proof. solve_decision. Defined.

(** Modelled from the spec: a long-term [Memory] record, "a durable fact
    about a user". *)
Record UserMemory := { memory_text : string }.

(** Modelled from the spec: a row of the store adapter; [row.memory] is the
    payload that [Memory.model_validate] deserializes. *)
Record MemoryRow := { row_memory : string }.

(** Modelled from the spec: the store adapter [MemoryDb], an opaque handle. *)
Inductive MemoryDb := MemoryDbHandle (name : string).

(** Modelled from the spec: the [MemoryClassifier] collaborator.  The source
    writes its [existing_memories]; [classifier_model] stands for the rest of
    its configuration, which the source never touches. *)
Record MemoryClassifier := {
  classifier_model : option string;
  existing_memories : option (list UserMemory)
}.

(** [MemoryClassifier()] *)
Definition MemoryClassifier_new : MemoryClassifier :=
  {| classifier_model := None; existing_memories := None |}.

(** Modelled from the spec: the [MemoryManager] collaborator.  The source
    constructs it from, and refreshes, [user_id] and [db]; [manager_model]
    stands for the rest of its configuration. *)
Record MemoryManager := {
  manager_model : option string;
  manager_user_id : option string;
  manager_db : option MemoryDb
}.

(** [MemoryManager(user_id=.., db=..)] *)
Definition MemoryManager_new (user : option string) (d : option MemoryDb)
  : MemoryManager :=
  {| manager_model := None; manager_user_id := user; manager_db := d |}.

(** class [AgentMemory].  The flags [create_session_summary],
    [update_session_summary_after_run], [create_user_memories],
    [update_user_memories_after_run] and [version] are read by no method
    embedded here and are left out, as are [summary] and [summarizer]. *)
Record AgentMemory := {
  runs : list AgentRun;
  messages : list Message;
  update_system_message_on_change : bool;
  db : option MemoryDb;
  user_id : option string;
  retrieval : MemoryRetrieval;
  memories : option (list UserMemory);
  num_memories : option nat;
  classifier : option MemoryClassifier;
  manager : option MemoryManager;
  updating_memory : bool
}.

(** [AgentMemory()] with the defaults of the class body. *)
Definition AgentMemory_default : AgentMemory := {|
  runs := [];
  messages := [];
  update_system_message_on_change := false;
  db := None;
  user_id := None;
  retrieval := last_n;
  memories := None;
  num_memories := None;
  classifier := None;
  manager := None;
  updating_memory := false
|}.

(** Attribute assignments [self.f = v]. *)
Definition set_runs (self : AgentMemory) (v : list AgentRun) : AgentMemory :=
  {| runs := v; messages := messages self;
     update_system_message_on_change := update_system_message_on_change self;
     db := db self; user_id := user_id self; retrieval := retrieval self;
     memories := memories self; num_memories := num_memories self;
     classifier := classifier self; manager := manager self;
     updating_memory := updating_memory self |}.

Definition set_messages (self : AgentMemory) (v : list Message) : AgentMemory :=
  {| runs := runs self; messages := v;
     update_system_message_on_change := update_system_message_on_change self;
     db := db self; user_id := user_id self; retrieval := retrieval self;
     memories := memories self; num_memories := num_memories self;
     classifier := classifier self; manager := manager self;
     updating_memory := updating_memory self |}.

Definition set_memories (self : AgentMemory) (v : option (list UserMemory))
  : AgentMemory :=
  {| runs := runs self; messages := messages self;
     update_system_message_on_change := update_system_message_on_change self;
     db := db self; user_id := user_id self; retrieval := retrieval self;
     memories := v; num_memories := num_memories self;
     classifier := classifier self; manager := manager self;
     updating_memory := updating_memory self |}.

Definition set_classifier (self : AgentMemory) (v : option MemoryClassifier)
  : AgentMemory :=
  {| runs := runs self; messages := messages self;
     update_system_message_on_change := update_system_message_on_change self;
     db := db self; user_id := user_id self; retrieval := retrieval self;
     memories := memories self; num_memories := num_memories self;
     classifier := v; manager := manager self;
     updating_memory := updating_memory self |}.

Definition set_manager (self : AgentMemory) (v : option MemoryManager)
  : AgentMemory :=
  {| runs := runs self; messages := messages self;
     update_system_message_on_change := update_system_message_on_change self;
     db := db self; user_id := user_id self; retrieval := retrieval self;
     memories := memories self; num_memories := num_memories self;
     classifier := classifier self; manager := v;
     updating_memory := updating_memory self |}.

Definition set_updating_memory (self : AgentMemory) (v : bool) : AgentMemory :=
  {| runs := runs self; messages := messages self;
     update_system_message_on_change := update_system_message_on_change self;
     db := db self; user_id := user_id self; retrieval := retrieval self;
     memories := memories self; num_memories := num_memories self;
     classifier := classifier self; manager := manager self;
     updating_memory := v |}.

(** ** [AgentMemory.add_run] *)

(** Truth value of a [str]: the empty string is falsy. *)
Definition truthy_str (s : string) : bool :=
  match s with
  | EmptyString => false
  | String _ _ => true
  end.

(** The guard [agent_run.response and agent_run.response.run_id]: the run
    identifier when the guard is truthy, [None] when the response is absent
    or its [run_id] is [None] or the empty string.  A [RunResponse] is a
    dataclass instance without [__bool__] or [__len__], so it is truthy
    whenever it is present. *)
Definition run_key (agent_run : AgentRun) : option string :=
  match response agent_run with
  | Some r =>
      match run_id r with
      | Some rid => if truthy_str rid then Some rid else None
      | None => None
      end
  | None => None
  end.

(** The test of the loop, [run.response and run.response.run_id == run_id]. *)
Definition same_run_id (rid : string) (run : AgentRun) : Prop :=
  match response run with
  | Some r => run_id r = Some rid
  | None => False
  end.

#[global] Instance same_run_id_dec rid run : Decision (same_run_id rid run).
Proof. unfold same_run_id. destruct (response run); apply _. Defined.

(** [add_run].  The declared type of [runs] is [List[AgentRun]], so the
    guard [if self.runs is None: self.runs = []] never fires.  The loop
    [for i, run in enumerate(self.runs)] that stores at the first index
    whose run has the identifier and returns is [list_find]; the index it
    returns is in range, so the store [self.runs[i] = agent_run] is
    [<[i:=agent_run]>]. *)
Definition add_run (self : AgentMemory) (agent_run : AgentRun) : AgentMemory :=
  match run_key agent_run with
  | Some rid =>
      match list_find (same_run_id rid) (runs self) with
      | Some (i, _) => set_runs self (<[i:=agent_run]> (runs self))
      | None => set_runs self (runs self ++ [agent_run])
      end
  | None => self
  end.

(** ** [AgentMemory.add_system_message] *)

(** The declared type of [message] is [Message], so the guard
    [if message is not None] of the first branch holds.
    [next((i for i, m in enumerate(self.messages) if m.role == role), None)]
    is [list_find], which also returns [self.messages[i]]. *)
Definition add_system_message (self : AgentMemory) (message : Message)
    (system_message_role : string) : AgentMemory :=
  if bool_decide (length (messages self) = 0) then
    set_messages self (messages self ++ [message])
  else
    match list_find (λ m, role m = system_message_role) (messages self) with
    | Some (system_message_index, existing) =>
        if bool_decide (content existing ≠ content message)
           && update_system_message_on_change self
        then set_messages self
               (<[system_message_index:=message]> (messages self))
        else self
    | None => set_messages self (message :: messages self)
    end.

(** ** [AgentMemory.get_message_pairs] *)

(** The first loop: skip ([continue]) a message tagged [from_history], stop
    ([break]) at the first message whose role is [user_role]. *)
Fixpoint user_messages_from_run (user_role : string) (msgs : list Message)
  : option Message :=
  match msgs with
  | [] => None
  | message :: rest =>
      if from_history message then user_messages_from_run user_role rest
      else if bool_decide (role message = user_role) then Some message
      else user_messages_from_run user_role rest
  end.

(** The second loop, which the source runs over [messages[::-1]]:
    [message.role in assistant_role]. *)
Fixpoint assistant_messages_from_run (assistant_role : list string)
    (msgs : list Message) : option Message :=
  match msgs with
  | [] => None
  | message :: rest =>
      if from_history message
      then assistant_messages_from_run assistant_role rest
      else if bool_decide (role message ∈ assistant_role) then Some message
      else assistant_messages_from_run assistant_role rest
  end.

Definition default_assistant_role : list string :=
  ["assistant"; "model"; "CHATBOT"].

(** The body of [for run in self.runs], with the list built so far.  A
    [Message] is a pydantic model and so always truthy: the final test
    [if user_messages_from_run and assistant_messages_from_run] asks that
    both were found. *)
Definition message_pairs_step (user_role : string)
    (assistant_role : list string)
    (runs_as_message_pairs : list (Message * Message)) (run : AgentRun)
  : list (Message * Message) :=
  match response run with
  | Some r =>
      match rr_messages r with
      | Some ((_ :: _) as msgs) =>
          match user_messages_from_run user_role msgs,
                assistant_messages_from_run assistant_role (reverse msgs) with
          | Some u, Some a => runs_as_message_pairs ++ [(u, a)]
          | _, _ => runs_as_message_pairs
          end
      | _ => runs_as_message_pairs
      end
  | None => runs_as_message_pairs
  end.

Definition get_message_pairs (self : AgentMemory) (user_role : string)
    (assistant_role : option (list string)) : list (Message * Message) :=
  let assistant_role := default default_assistant_role assistant_role in
  foldl (message_pairs_step user_role assistant_role) [] (runs self).

(** ** Methods that call collaborators *)

(** [str.lower] on the ASCII letters.  Python lowers other code points too,
    but none of them to [y], [e] or [s], so the comparison with ["yes"] in
    [should_update_memory] is the same. *)
Definition lower_ascii (c : ascii) : ascii :=
  let n := nat_of_ascii c in
  if (65 <=? n)%nat && (n <=? 90)%nat then ascii_of_nat (n + 32) else c.

Fixpoint lower (s : string) : string :=
  match s with
  | EmptyString => EmptyString
  | String c rest => String (lower_ascii c) (lower rest)
  end.

(** The value bound to the parameter [input]: the annotation says [str], the
    body tests [input is None or not isinstance(input, str)]. *)
Inductive PyInput :=
| InputNone
| InputStr (s : string)
| InputOther (repr : string).

(** Whether a collaborator is called through its blocking method ([run]) or
    its suspendable one ([arun]). *)
Inductive CallMode := Blocking | Suspendable.

(** What the memory methods do to the outside, in order. *)
Inductive Effect :=
| ClassifierCalled (mode : CallMode) (c : MemoryClassifier) (input : string)
| ManagerCalled (mode : CallMode) (m : MemoryManager) (input : string)
| ReadMemoriesCalled (d : MemoryDb) (user : option string)
    (limit : option nat) (sort : string)
| Logged (level : string) (msg : string).

Definition is_classifier_call (e : Effect) : bool :=
  match e with ClassifierCalled _ _ _ => true | _ => false end.
Definition is_manager_call (e : Effect) : bool :=
  match e with ManagerCalled _ _ _ => true | _ => false end.
Definition is_read_call (e : Effect) : bool :=
  match e with ReadMemoriesCalled _ _ _ _ => true | _ => false end.

Section Collaborators.
(** The state of everything outside the [AgentMemory] object: the rows of
    the store, the model behind the classifier and the manager. *)
Context {World : Type}.

(** [MemoryDb.read_memories(user_id, limit, sort)] *)
Variable read_memories :
  MemoryDb → option string → option nat → string →
  World → Result (option (list MemoryRow)) * World.
(** [Memory.model_validate(row.memory)] *)
Variable model_validate : string → Result UserMemory.
(** [MemoryClassifier.run], [MemoryClassifier.arun] *)
Variable classifier_run :
  CallMode → MemoryClassifier → string → World → Result (option string) * World.
(** [MemoryManager.run], [MemoryManager.arun] *)
Variable manager_run :
  CallMode → MemoryManager → string → World → Result (option string) * World.

(** The machine state: the object [self], the outside, and the effects so
    far (oldest first). *)
Record St := {
  self : AgentMemory;
  world : World;
  trace : list Effect
}.

(** A method body. *)
Local Abbreviation Method := (M St).

Definition get_self : Method AgentMemory := λ st, (Ok (self st), st).

Definition update_self (f : AgentMemory → AgentMemory) : Method unit :=
  λ st, (Ok tt, {| self := f (self st); world := world st;
                   trace := trace st |}).

Definition emit (e : Effect) : Method unit :=
  λ st, (Ok tt, {| self := self st; world := world st;
                   trace := trace st ++ [e] |}).

(** A call of a collaborator: record it, then let it act on the world. *)
Definition call {A} (e : Effect) (f : World → Result A * World) : Method A :=
  λ st, let '(r, w) := f (world st) in
        (r, {| self := self st; world := w; trace := trace st ++ [e] |}).

Definition log (level msg : string) : Method unit := emit (Logged level msg).

(** *** [load_user_memories] *)

(** [sort="asc" if self.retrieval == MemoryRetrieval.first_n else "desc"] *)
Definition sort_for (policy : MemoryRetrieval) : string :=
  if decide (policy = first_n) then "asc" else "desc".

(** The loop [for row in memory_rows]: a row that fails to validate is
    logged and skipped. *)
Fixpoint load_rows (memory_rows : list MemoryRow) : Method unit :=
  match memory_rows with
  | [] => ret tt
  | row :: rest =>
      try_except
        (match model_validate (row_memory row) with
         | Ok m =>
             update_self (λ s,
               set_memories s (Some (default [] (memories s) ++ [m])))
         | Raise e => raise e
         end)
        (λ e, log "warning" ("Error loading memory: " +:+ str_exc e)) >>
      load_rows rest
  end.

(** The [try] block with its handler; [None] stands for the [return] of
    the handler. *)
Definition read_memory_rows (d : MemoryDb)
  : Method (option (option (list MemoryRow))) :=
  try_except
    (let* s := get_self in
     if bool_decide (retrieval s ∈ [last_n; first_n]) then
       let sort := sort_for (retrieval s) in
       let* memory_rows :=
         call (ReadMemoriesCalled d (user_id s) (num_memories s) sort)
              (read_memories d (user_id s) (num_memories s) sort) in
       ret (Some memory_rows)
     else
       raise (NotImplementedError "Semantic retrieval not yet supported."))
    (λ e, log "debug" ("Error reading memory: " +:+ str_exc e) >> ret None).

Definition load_user_memories : Method unit :=
  let* s := get_self in
  match db s with
  | None => ret tt
  | Some d =>
      let* r := read_memory_rows d in
      match r with
      | None => ret tt
      | Some memory_rows =>
          update_self (λ s, set_memories s (Some [])) >>
          match memory_rows with
          | None | Some [] => ret tt
          | Some rows => load_rows rows
          end
      end
  end.

(** *** [should_update_memory], [ashould_update_memory] *)

(** The two methods differ only in calling [run] or [await arun]. *)
Definition should_update_memory_in (mode : CallMode) (input : string)
  : Method bool :=
  let* s := get_self in
  (match classifier s with
   | None => update_self (λ s, set_classifier s (Some MemoryClassifier_new))
   | Some _ => ret tt
   end) >>
  update_self (λ s,
    set_classifier s
      (c ← classifier s;
       Some {| classifier_model := classifier_model c;
               existing_memories := memories s |})) >>
  let* s := get_self in
  let c := default MemoryClassifier_new (classifier s) in
  let* classifier_response :=
    call (ClassifierCalled mode c input) (classifier_run mode c input) in
  ret (match classifier_response with
       | Some answer =>
           truthy_str answer && bool_decide (lower answer = "yes")
       | None => false
       end).

Definition should_update_memory := should_update_memory_in Blocking.
Definition ashould_update_memory := should_update_memory_in Suspendable.

(** *** [update_memory], [aupdate_memory] *)

Definition bool_repr (b : bool) : string := if b then "True" else "False".

(** The statements after the gate, common to both methods: build or refresh
    the manager, run it, reload the memories, clear the flag and return the
    manager's response. *)
Definition write_memory_in (mode : CallMode) (input : string)
  : Method (option string) :=
  update_self (λ s,
    match manager s with
    | None => set_manager s (Some (MemoryManager_new (user_id s) (db s)))
    | Some m =>
        set_manager s
          (Some {| manager_model := manager_model m;
                   manager_user_id := user_id s;
                   manager_db := db s |})
    end) >>
  let* s := get_self in
  let m := default (MemoryManager_new (user_id s) (db s)) (manager s) in
  let* response :=
    call (ManagerCalled mode m input) (manager_run mode m input) in
  load_user_memories >>
  update_self (λ s, set_updating_memory s false) >>
  ret response.

(** The two methods differ only in the collaborator methods they call
    ([run] or [await arun]) and in the text of one log line. *)
Definition update_memory_in (mode : CallMode) (input : PyInput)
    (force : bool) : Method (option string) :=
  match input with
  | InputStr input =>
      let* s := get_self in
      match db s with
      | None =>
          log "warning" "MemoryDb not provided." >>
          ret (Some "Please provide a db to store memories")
      | Some d =>
          update_self (λ s, set_updating_memory s true) >>
          let* should :=
            (if force then ret true
             else should_update_memory_in mode input) in
          log "debug"
            ((match mode with
              | Blocking => "Update memory: "
              | Suspendable => "Async update memory: "
              end) +:+ bool_repr should) >>
          if negb should then
            log "debug" "Memory update not required" >>
            ret (Some "Memory update not required")
          else write_memory_in mode input
      end
  | InputNone | InputOther _ => ret (Some "Invalid message content")
  end.

Definition update_memory := update_memory_in Blocking.
Definition aupdate_memory := update_memory_in Suspendable.

(** A method called on the object [mem] with the outside in state [w]. *)
Definition run_method {A} (m : Method A) (mem : AgentMemory) (w : World)
  : Result A * St :=
  m {| self := mem; world := w; trace := [] |}.

End Collaborators.

End Memory.

Module Router.

(** ** Data model of [sync_router.py] *)

(** [UploadFile] *)
Record UploadFile := {
  content_type : option string;
  filename : string;
  file_bytes : string
}.

(** Modelled from the spec: the media objects of [agno.media] that the
    converters of [agno.app.playground.utils] build from an upload. *)
Inductive Image := Base64Image (data : string).
Inductive Audio := Base64Audio (data : string).
Inductive Video := Base64Video (data : string).
Inductive FileMedia := DocumentFile (data : string).

(** The knowledge capability of an agent. *)
Inductive Knowledge := KnowledgeBase (name : string).

(** Modelled from the spec: the executable units, "polymorphic over
    {Agent, Team, Workflow}"; only the attributes the router reads. *)
Record Agent := {
  agent_id : option string;
  knowledge : option Knowledge
}.

Record Team := { team_id : option string }.

(** [isinstance(workflow, Workflow)] tells the older style from
    [WorkflowV2]. *)
Inductive WorkflowStyle := WorkflowV1 | WorkflowV2.

Record Workflow := {
  workflow_id : option string;
  style : WorkflowStyle
}.

(** A value of [json.loads]; the router only asks [isinstance(_, dict)]. *)
Inductive JsonValue :=
| JsonDict (repr : string)
| JsonOther (repr : string).

(** The local [workflow_input] after the attempt to parse it. *)
Inductive WorkflowInput :=
| RawInput (text : string)
| ParsedInput (value : JsonValue).

(** [RunStatus] *)
Inductive RunStatus := status_running | status_error.

(** The object [RunResponse(content=.., status=..)] of the agent streamer. *)
Record RunResponse := {
  rr_content : option string;
  rr_status : RunStatus
}.

(** The object [TeamRunResponseErrorEvent(content=..)]. *)
Record TeamRunResponseErrorEvent := { te_content : option string }.

(** The object [WorkflowErrorEvent(error=..)]. *)
Record WorkflowErrorEvent := { we_error : option string }.

(** The keyword arguments of [agent.run] and [team.run]. *)
Record RunArgs := {
  arg_message : option string;
  arg_session_id : option string;
  arg_user_id : option string;
  arg_images : option (list Image);
  arg_audio : option (list Audio);
  arg_videos : option (list Video);
  arg_files : option (list FileMedia);
  arg_stream : bool;
  arg_stream_intermediate_steps : bool
}.

(** The keyword arguments that the two chat streamers pass:
    [stream=True, stream_intermediate_steps=True] and the rest as given
    ([files] is [None] for an agent, whose [run] is not passed any). *)
Definition streaming_args (message session_id user_id : option string)
    (images : option (list Image)) (audio : option (list Audio))
    (videos : option (list Video)) (files : option (list FileMedia))
  : RunArgs :=
  {| arg_message := message;
     arg_session_id := session_id;
     arg_user_id := user_id;
     arg_images := images;
     arg_audio := audio;
     arg_videos := videos;
     arg_files := files;
     arg_stream := true;
     arg_stream_intermediate_steps := true |}.

(** The arguments of [workflow.run]: the input, spread as keywords when it
    is a dict, and the keywords that the call site passes. *)
Record WorkflowArgs := {
  wf_input : option WorkflowInput;
  wf_session_id : option string;
  wf_user_id : option string;
  wf_stream : bool;
  wf_stream_intermediate_steps : bool
}.

(** One call of an executable unit's [run]. *)
Inductive RunCall :=
| AgentRun (agent : Agent) (args : RunArgs)
| TeamRun (team : Team) (args : RunArgs)
| WorkflowRun (workflow : Workflow) (args : WorkflowArgs)
| WorkflowCopyRun (workflow : Workflow) (new_workflow_id : option string)
    (new_user_id : option string) (args : WorkflowArgs).

(** A finished run of the iterator that [run(stream=True)] returns: the
    chunks it produced, then [StopIteration] ([None]) or a raised
    exception. *)
Record Generator (Chunk : Type) := {
  chunks : list Chunk;
  ending : option PyExc
}.
Arguments chunks {Chunk} g.
Arguments ending {Chunk} g.

(** What a streamer generator does when it is consumed to its end: the
    values it yields, tagged by the [yield] statement that produced them,
    then [StopIteration] ([finish = None]) or an exception that reaches the
    consumer. *)
Inductive Yielded :=
| YieldChunk (json : string)
| YieldError (json : string).

Definition is_error_event (y : Yielded) : bool :=
  match y with YieldError _ => true | YieldChunk _ => false end.

Record StreamOut := {
  emitted : list Yielded;
  finish : option PyExc
}.

(** What the effects of the handler are, in order. *)
Inductive Effect :=
| Uuid4Called
| MonitoringSet (unit_id : option string) (value : bool)
| FileLogged (ct : option string)
| ConversionFailed (kind : string) (f : UploadFile) (e : PyExc)
| DocumentsLoaded (k : Knowledge) (documents : string)
| RunCalled (c : RunCall).

Definition is_run_call (e : Effect) : bool :=
  match e with RunCalled _ => true | _ => false end.

(** No executable unit's [run] was invoked. *)
Definition no_run_invoked (t : list Effect) : Prop :=
  Forall (λ e, is_run_call e = false) t.

(** What the handler hands to the framework. *)
Inductive StreamBody :=
| AgentStream (agent : Agent) (message session_id user_id : option string)
    (images : option (list Image)) (audio : option (list Audio))
    (videos : option (list Video))
| TeamStream (team : Team) (message session_id user_id : option string)
    (images : option (list Image)) (audio : option (list Audio))
    (videos : option (list Video)) (files : option (list FileMedia))
| WorkflowV1Stream (workflow : Workflow) (new_workflow_id : option string)
    (new_user_id : option string) (args : WorkflowArgs)
| WorkflowV2Stream (workflow : Workflow) (args : WorkflowArgs).

Inductive Response :=
| JsonBody (body : string)
| StreamingResponse (body : StreamBody)
| NoneBody.

(** The form fields, query parameters and file parts of [POST /runs]. *)
Record Request := {
  message : option string;
  stream : bool;
  monitor : bool;
  req_agent_id : option string;
  req_team_id : option string;
  req_workflow_id : option string;
  workflow_input : option string;
  session_id : option string;
  user_id : option string;
  files : option (list UploadFile)
}.

(** The arguments of [get_sync_router]. *)
Record Registry := {
  agents : option (list Agent);
  teams : option (list Team);
  workflows : option (list Workflow)
}.

(** Truth value of an [Optional[str]]: [None] and [""] are falsy. *)
Definition truthy (s : option string) : bool :=
  match s with
  | Some (String _ _) => true
  | _ => false
  end.

(** Truth value of an [Optional[List[_]]]: [None] and [[]] are falsy. *)
Definition truthy_list {A} (l : option (list A)) : bool :=
  match l with
  | Some (_ :: _) => true
  | _ => false
  end.

(** [x if x else None] on a list *)
Definition or_none {A} (l : list A) : option (list A) :=
  match l with
  | [] => None
  | _ :: _ => Some l
  end.

(** Reading a local variable that is only assigned under [if files:]:
    [None] is the unbound variable. *)
Definition read_local {S A} (name : string) (v : option A) : M S A :=
  match v with
  | Some a => ret a
  | None => raise (UnboundLocalError name)
  end.

Definition image_types : list string :=
  ["image/png"; "image/jpeg"; "image/jpg"; "image/webp"].
Definition audio_types : list string :=
  ["audio/wav"; "audio/mp3"; "audio/mpeg"].
Definition video_types : list string :=
  ["video/x-flv"; "video/quicktime"; "video/mpeg"; "video/mpegs";
   "video/mpgs"; "video/mpg"; "video/mpg"; "video/mp4"; "video/webm";
   "video/wmv"; "video/3gpp"].
Definition document_types : list string :=
  ["application/pdf"; "text/csv";
   "application/vnd.openxmlformats-officedocument.wordprocessingml.document";
   "text/plain"; "application/json"].

(** [file.content_type in [...]] *)
Definition type_in (ct : option string) (l : list string) : bool :=
  match ct with
  | Some t => bool_decide (t ∈ l)
  | None => false
  end.

Section Handler.
(** The state of everything outside the handler (providers, stores) and
    the type of the chunks that a streaming run produces. *)
Context {World Chunk : Type}.

(** [str(uuid4())] *)
Variable uuid4 : World → string * World.
(** [process_image], [process_audio], [process_video], [process_document]
    of [agno.app.playground.utils] *)
Variable process_image : UploadFile → Result Image.
Variable process_audio : UploadFile → Result Audio.
Variable process_video : UploadFile → Result Video.
Variable process_document : UploadFile → Result (option FileMedia).
(** [PDFReader().read(..)] and the other readers, by class name *)
Variable read_document : string → UploadFile → Result string.
(** [agent.knowledge.load_documents(..)] *)
Variable load_documents : Knowledge → string → World → Result () * World.
(** [json.loads]; [None] is [JSONDecodeError] *)
Variable json_loads : string → option JsonValue.
(** [run(.., stream=False)] followed by [to_dict()] *)
Variable run_blocking : RunCall → World → Result string * World.
(** [run(.., stream=True)] and the iteration of what it returns *)
Variable run_stream : RunCall → World → Result (Generator Chunk).
(** [run_response_chunk.to_json()] *)
Variable chunk_to_json : Chunk → Result string.
(** [json.dumps(asdict(result))] *)
Variable chunk_dumps : Chunk → Result string.
(** [to_json()] of the three freshly built error objects *)
Variable run_response_to_json : RunResponse → string.
Variable team_error_to_json : TeamRunResponseErrorEvent → string.
Variable workflow_error_to_json : WorkflowErrorEvent → string.

(** *** The response streamers *)

(** [for run_response_chunk in run_response: yield chunk.to_json()], up to
    the end of the iterator or the first exception, be it raised by the
    iterator or by [to_json]. *)
Fixpoint yield_chunks (to_json : Chunk → Result string)
    (cs : list Chunk) (end_of_run : option PyExc)
  : list Yielded * option PyExc :=
  match cs with
  | [] => ([], end_of_run)
  | run_response_chunk :: rest =>
      match to_json run_response_chunk with
      | Ok json =>
          let '(out, raised) := yield_chunks to_json rest end_of_run in
          (YieldChunk json :: out, raised)
      | Raise e => ([], Some e)
      end
  end.

(** The body of the [try]: call [run], then iterate. *)
Definition try_stream (to_json : Chunk → Result string) (c : RunCall)
    (w : World) : list Yielded * option PyExc :=
  match run_stream c w with
  | Ok run_response => yield_chunks to_json (chunks run_response)
                         (ending run_response)
  | Raise e => ([], Some e)
  end.

(** [except Exception as e: yield error_response.to_json(); return] *)
Definition except_yield (tried : list Yielded * option PyExc)
    (error_json : PyExc → string) : StreamOut :=
  match tried with
  | (out, Some e) =>
      {| emitted := out ++ [YieldError (error_json e)]; finish := None |}
  | (out, None) => {| emitted := out; finish := None |}
  end.

Definition agent_chat_response_streamer (agent : Agent)
    (message session_id user_id : option string)
    (images : option (list Image)) (audio : option (list Audio))
    (videos : option (list Video)) (w : World) : StreamOut :=
  except_yield
    (try_stream chunk_to_json
       (AgentRun agent
          (streaming_args message session_id user_id images audio videos
             None)) w)
    (λ e, run_response_to_json
            {| rr_content := Some (str_exc e);
               rr_status := status_error |}).

Definition team_chat_response_streamer (team : Team)
    (message session_id user_id : option string)
    (images : option (list Image)) (audio : option (list Audio))
    (videos : option (list Video)) (files : option (list FileMedia))
    (w : World) : StreamOut :=
  except_yield
    (try_stream chunk_to_json
       (TeamRun team
          (streaming_args message session_id user_id images audio videos
             files)) w)
    (λ e, team_error_to_json {| te_content := Some (str_exc e) |}).

Definition workflow_response_streamer (workflow : Workflow)
    (body : option WorkflowInput) (session_id user_id : option string)
    (w : World) : StreamOut :=
  except_yield
    (try_stream chunk_to_json
       (WorkflowRun workflow
          {| wf_input := body;
             wf_session_id := session_id;
             wf_user_id := user_id;
             wf_stream := true;
             wf_stream_intermediate_steps := true |}) w)
    (λ e, workflow_error_to_json {| we_error := Some (str_exc e) |}).

(** The generator expression of the older workflow style has no [try]. *)
Definition workflow_v1_stream (c : RunCall) (w : World) : StreamOut :=
  let '(out, raised) := try_stream chunk_dumps c w in
  {| emitted := out; finish := raised |}.

(** What the transport sees when it consumes a [StreamingResponse]. *)
Definition consume (body : StreamBody) (w : World) : StreamOut :=
  match body with
  | AgentStream agent message session_id user_id images audio videos =>
      agent_chat_response_streamer agent message session_id user_id
        images audio videos w
  | TeamStream team message session_id user_id images audio videos files =>
      team_chat_response_streamer team message session_id user_id
        images audio videos files w
  | WorkflowV1Stream wf wid uid args =>
      workflow_v1_stream (WorkflowCopyRun wf wid uid args) w
  | WorkflowV2Stream wf args =>
      workflow_response_streamer wf (wf_input args) (wf_session_id args)
        (wf_user_id args) w
  end.

(** *** The handler *)

Record HSt := {
  world : World;
  trace : list Effect
}.

Local Abbreviation H := (M HSt).

Definition emit (e : Effect) : H () :=
  λ st, (Ok (), {| world := world st; trace := trace st ++ [e] |}).

Definition call {A} (e : Effect) (f : World → Result A * World) : H A :=
  λ st, let '(r, w) := f (world st) in
        (r, {| world := w; trace := trace st ++ [e] |}).

Definition lift {A} (r : Result A) : H A := λ st, (r, st).

Definition reader_for (ct : option string) : option string :=
  match ct with
  | Some "application/pdf" => Some "PDFReader"
  | Some "text/csv" => Some "CSVReader"
  | Some "application/vnd.openxmlformats-officedocument.wordprocessingml.document" =>
      Some "DocxReader"
  | Some "text/plain" => Some "TextReader"
  | Some "application/json" => Some "JSONReader"
  | _ => None
  end.

(** [agent_process_file]: the loop over [files], with the three lists
    built so far. *)
Fixpoint agent_process_file_from (files : list UploadFile) (agent : Agent)
    (base64_images : list Image) (base64_audios : list Audio)
    (base64_videos : list Video)
  : H (list Image * list Audio * list Video) :=
  match files with
  | [] => ret (base64_images, base64_audios, base64_videos)
  | file :: rest =>
      emit (FileLogged (content_type file)) >>
      if type_in (content_type file) image_types then
        match process_image file with
        | Ok base64_image =>
            agent_process_file_from rest agent
              (base64_images ++ [base64_image]) base64_audios base64_videos
        | Raise e =>
            emit (ConversionFailed "image" file e) >>
            agent_process_file_from rest agent
              base64_images base64_audios base64_videos
        end
      else if type_in (content_type file) audio_types then
        match process_audio file with
        | Ok base64_audio =>
            agent_process_file_from rest agent
              base64_images (base64_audios ++ [base64_audio]) base64_videos
        | Raise e =>
            emit (ConversionFailed "audio" file e) >>
            agent_process_file_from rest agent
              base64_images base64_audios base64_videos
        end
      else if type_in (content_type file) video_types then
        match process_video file with
        | Ok base64_video =>
            agent_process_file_from rest agent
              base64_images base64_audios (base64_videos ++ [base64_video])
        | Raise e =>
            emit (ConversionFailed "video" file e) >>
            agent_process_file_from rest agent
              base64_images base64_audios base64_videos
        end
      else
        match knowledge agent with
        | None => raise (HTTPException 404 "KnowledgeBase not found")
        | Some k =>
            match reader_for (content_type file) with
            | Some reader =>
                let* file_content := lift (read_document reader file) in
                call (DocumentsLoaded k file_content)
                     (load_documents k file_content) >>
                agent_process_file_from rest agent
                  base64_images base64_audios base64_videos
            | None => raise (HTTPException 400 "Unsupported file type")
            end
        end
  end.

Definition agent_process_file (files : list UploadFile) (agent : Agent)
  : H (list Image * list Audio * list Video) :=
  agent_process_file_from files agent [] [] [].

(** [team_process_file] *)
Fixpoint team_process_file_from (files : list UploadFile)
    (base64_images : list Image) (base64_audios : list Audio)
    (base64_videos : list Video) (document_files : list FileMedia)
  : H (list Image * list Audio * list Video * list FileMedia) :=
  match files with
  | [] => ret (base64_images, base64_audios, base64_videos, document_files)
  | file :: rest =>
      if type_in (content_type file) image_types then
        match process_image file with
        | Ok base64_image =>
            team_process_file_from rest (base64_images ++ [base64_image])
              base64_audios base64_videos document_files
        | Raise e =>
            emit (ConversionFailed "image" file e) >>
            team_process_file_from rest base64_images base64_audios
              base64_videos document_files
        end
      else if type_in (content_type file) audio_types then
        match process_audio file with
        | Ok base64_audio =>
            team_process_file_from rest base64_images
              (base64_audios ++ [base64_audio]) base64_videos document_files
        | Raise e =>
            emit (ConversionFailed "audio" file e) >>
            team_process_file_from rest base64_images base64_audios
              base64_videos document_files
        end
      else if type_in (content_type file) video_types then
        match process_video file with
        | Ok base64_video =>
            team_process_file_from rest base64_images base64_audios
              (base64_videos ++ [base64_video]) document_files
        | Raise e =>
            emit (ConversionFailed "video" file e) >>
            team_process_file_from rest base64_images base64_audios
              base64_videos document_files
        end
      else if type_in (content_type file) document_types then
        let* document_file := lift (process_document file) in
        match document_file with
        | Some d =>
            team_process_file_from rest base64_images base64_audios
              base64_videos (document_files ++ [d])
        | None =>
            team_process_file_from rest base64_images base64_audios
              base64_videos document_files
        end
      else raise (HTTPException 400 "Unsupported file type")
  end.

Definition team_process_file (files : list UploadFile)
  : H (list Image * list Audio * list Video * list FileMedia) :=
  team_process_file_from files [] [] [] [].

(** [next((x for x in xs if x.id == wanted), None)] *)
Definition find_by_id {A} (id_of : A → option string)
    (wanted : option string) (xs : list A) : option A :=
  List.find (λ x, bool_decide (id_of x = wanted)) xs.

(** The locals [base64_images], [base64_audios], [base64_videos] and
    [document_files], which only the block under [if files:] assigns;
    [None] is a local with no value yet. *)
Record Locals := {
  base64_images : option (list Image);
  base64_audios : option (list Audio);
  base64_videos : option (list Video);
  document_files : option (list FileMedia)
}.

Definition no_locals : Locals :=
  {| base64_images := None; base64_audios := None;
     base64_videos := None; document_files := None |}.

(** [x if x else None] on one of those locals: the condition reads it. *)
Definition local_or_none {A} (name : string) (v : option (list A))
  : H (option (list A)) :=
  let* l := read_local name v in
  ret (or_none l).

(** [@router.post("/runs")  def run_agent_or_team_or_workflow(...)], in the
    router that [get_sync_router(agents, teams, workflows)] builds. *)
Definition run_agent_or_team_or_workflow (reg : Registry) (req : Request)
  : H Response :=
  let* session_id :=
    (match session_id req with
     | Some ((String _ _) as sid) => ret (Some sid)
     | _ =>
         let* fresh :=
           call Uuid4Called (λ w, let '(u, w') := uuid4 w in (Ok u, w')) in
         ret (Some fresh)
     end) in
  let agent_id := req_agent_id req in
  let team_id := req_team_id req in
  let workflow_id := req_workflow_id req in
  if truthy agent_id && truthy team_id
     || truthy agent_id && truthy workflow_id
     || truthy team_id && truthy workflow_id
  then raise (HTTPException 400
                "Only one of agent_id, team_id or workflow_id can be provided")
  else if negb (truthy agent_id) && negb (truthy team_id)
          && negb (truthy workflow_id)
  then raise (HTTPException 400
                "One of agent_id, team_id or workflow_id must be provided")
  else
  let* agent :=
    (if truthy agent_id && truthy_list (agents reg) then
       match find_by_id Router.agent_id agent_id (default [] (agents reg))
       with
       | None => raise (HTTPException 404 "Agent not found")
       | Some agent =>
           if negb (truthy (message req))
           then raise (HTTPException 400 "Message is required")
           else ret (Some agent)
       end
     else ret None) in
  let* team :=
    (if truthy team_id && truthy_list (teams reg) then
       match find_by_id Router.team_id team_id (default [] (teams reg))
       with
       | None => raise (HTTPException 404 "Team not found")
       | Some team =>
           if negb (truthy (message req))
           then raise (HTTPException 400 "Message is required")
           else ret (Some team)
       end
     else ret None) in
  let* selected :=
    (if truthy workflow_id && truthy_list (workflows reg) then
       match find_by_id Router.workflow_id workflow_id
               (default [] (workflows reg))
       with
       | None => raise (HTTPException 404 "Workflow not found")
       | Some workflow =>
           match workflow_input req with
           | Some ((String _ _) as text) =>
               match json_loads text with
               | Some parsed_workflow_input =>
                   ret (Some workflow,
                        Some (ParsedInput parsed_workflow_input))
               | None => ret (Some workflow, Some (RawInput text))
               end
           | _ => raise (HTTPException 400 "Workflow input is required")
           end
       end
     else ret (None, RawInput <$> workflow_input req)) in
  let '(workflow, workflow_input) := selected in
  (match agent, team, workflow with
   | Some agent, _, _ =>
       emit (MonitoringSet (Router.agent_id agent) (monitor req))
   | None, Some team, _ =>
       emit (MonitoringSet (Router.team_id team) (monitor req))
   | None, None, Some workflow =>
       emit (MonitoringSet (Router.workflow_id workflow) (monitor req))
   | None, None, None => ret ()
   end) >>
  let* locals :=
    (if truthy_list (files req) then
       match agent, team with
       | Some agent, _ =>
           let* r := agent_process_file (default [] (files req)) agent in
           let '(images, audios, videos) := r in
           ret {| base64_images := Some images;
                  base64_audios := Some audios;
                  base64_videos := Some videos;
                  document_files := None |}
       | None, Some team =>
           let* r := team_process_file (default [] (files req)) in
           let '(images, audios, videos, documents) := r in
           ret {| base64_images := Some images;
                  base64_audios := Some audios;
                  base64_videos := Some videos;
                  document_files := Some documents |}
       | None, None => ret no_locals
       end
     else ret no_locals) in
  if stream req then
    match agent, team, workflow with
    | Some agent, _, _ =>
        let* images := local_or_none "base64_images" (base64_images locals) in
        let* audio := local_or_none "base64_audios" (base64_audios locals) in
        let* videos := local_or_none "base64_videos" (base64_videos locals) in
        ret (StreamingResponse
               (AgentStream agent (message req) session_id (user_id req)
                  images audio videos))
    | None, Some team, _ =>
        let* images := local_or_none "base64_images" (base64_images locals) in
        let* audio := local_or_none "base64_audios" (base64_audios locals) in
        let* videos := local_or_none "base64_videos" (base64_videos locals) in
        let* files := local_or_none "document_files" (document_files locals) in
        ret (StreamingResponse
               (TeamStream team (message req) session_id (user_id req)
                  images audio videos files))
    | None, None, Some workflow =>
        match style workflow with
        | WorkflowV1 =>
            ret (StreamingResponse
                   (WorkflowV1Stream workflow workflow_id (user_id req)
                      {| wf_input := workflow_input;
                         wf_session_id := None;
                         wf_user_id := None;
                         wf_stream := false;
                         wf_stream_intermediate_steps := false |}))
        | WorkflowV2 =>
            ret (StreamingResponse
                   (WorkflowV2Stream workflow
                      {| wf_input := workflow_input;
                         wf_session_id := session_id;
                         wf_user_id := user_id req;
                         wf_stream := true;
                         wf_stream_intermediate_steps := true |}))
        end
    | None, None, None => ret NoneBody
    end
  else
    match agent, team, workflow with
    | Some agent, _, _ =>
        let* images := local_or_none "base64_images" (base64_images locals) in
        let* audio := local_or_none "base64_audios" (base64_audios locals) in
        let* videos := local_or_none "base64_videos" (base64_videos locals) in
        let c := AgentRun agent
                   {| arg_message := message req;
                      arg_session_id := session_id;
                      arg_user_id := user_id req;
                      arg_images := images;
                      arg_audio := audio;
                      arg_videos := videos;
                      arg_files := None;
                      arg_stream := false;
                      arg_stream_intermediate_steps := false |} in
        let* run_response := call (RunCalled c) (run_blocking c) in
        ret (JsonBody run_response)
    | None, Some team, _ =>
        let* images := local_or_none "base64_images" (base64_images locals) in
        let* audio := local_or_none "base64_audios" (base64_audios locals) in
        let* videos := local_or_none "base64_videos" (base64_videos locals) in
        let* files := local_or_none "document_files" (document_files locals) in
        let c := TeamRun team
                   {| arg_message := message req;
                      arg_session_id := session_id;
                      arg_user_id := user_id req;
                      arg_images := images;
                      arg_audio := audio;
                      arg_videos := videos;
                      arg_files := files;
                      arg_stream := false;
                      arg_stream_intermediate_steps := false |} in
        let* team_run_response := call (RunCalled c) (run_blocking c) in
        ret (JsonBody team_run_response)
    | None, None, Some workflow =>
        let c :=
          match style workflow with
          | WorkflowV1 =>
              WorkflowCopyRun workflow workflow_id (user_id req)
                {| wf_input := workflow_input;
                   wf_session_id := None;
                   wf_user_id := None;
                   wf_stream := false;
                   wf_stream_intermediate_steps := false |}
          | WorkflowV2 =>
              WorkflowRun workflow
                {| wf_input := workflow_input;
                   wf_session_id := session_id;
                   wf_user_id := user_id req;
                   wf_stream := false;
                   wf_stream_intermediate_steps := false |}
          end in
        let* result := call (RunCalled c) (run_blocking c) in
        ret (JsonBody result)
    | None, None, None => ret NoneBody
    end.

(** One request served by a router over [reg], with the outside in state
    [w]: what the handler returns or raises, and its effects. *)
Definition serve (reg : Registry) (req : Request) (w : World)
  : Result Response * HSt :=
  run_agent_or_team_or_workflow reg req {| world := w; trace := [] |}.

End Handler.

(** Modelled from the spec: the framework around the handler, "400 for
    selector/input validation failures, 404 for unknown agent/team/workflow
    id, 200 otherwise".  An [HTTPException] becomes a response with its
    status code, any other exception is an unhandled failure (500), and a
    returned value is sent with status 200. *)
Definition http_status (r : Result Response) : nat :=
  match r with
  | Ok _ => 200
  | Raise (HTTPException status_code _) => status_code
  | Raise _ => 500
  end.

(** The exception left the handler unhandled. *)
Definition unhandled (r : Result Response) : bool :=
  match r with
  | Ok _ => false
  | Raise (HTTPException _ _) => false
  | Raise _ => true
  end.

End Router.

(** ** Specification-level notions *)

Module Spec.
Import Memory.

(** The run identifiers of a runs list, in order; a run without one
    contributes nothing. *)
Definition run_keys (rs : list AgentRun) : list string := omap run_key rs.

(** "Run list contains at most one Run per run identifier." *)
Definition one_entry_per_run_id (rs : list AgentRun) : Prop :=
  NoDup (run_keys rs).

(** The entry at index [i] is the first one of [rs] with identifier [rid]. *)
Definition first_with_run_id (rid : string) (rs : list AgentRun) (i : nat)
  : Prop :=
  (∃ old, rs !! i = Some old ∧ run_key old = Some rid) ∧
  ∀ j r, j < i → rs !! j = Some r → run_key r ≠ Some rid.

(** The message [m] at index [i] is the first one of [msgs] with role [r]. *)
Definition first_with_role (r : string) (msgs : list Message) (i : nat)
    (m : Message) : Prop :=
  msgs !! i = Some m ∧ role m = r ∧
  ∀ j m', j < i → msgs !! j = Some m' → role m' ≠ r.

(** A message that the pair extraction may pick as the user element, and as
    the assistant element. *)
Definition user_candidate (user_role : string) (m : Message) : Prop :=
  from_history m = false ∧ role m = user_role.

Definition assistant_candidate (assistant_role : list string) (m : Message)
  : Prop :=
  from_history m = false ∧ role m ∈ assistant_role.

(** [x] is the first element of [l], in forward order, that satisfies [P]:
    it stands at some index and no element before it satisfies [P]. *)
Definition first_in {A} (P : A → Prop) (l : list A) (x : A) : Prop :=
  ∃ i, l !! i = Some x ∧ P x ∧ ∀ j y, j < i → l !! j = Some y → ¬ P y.

(** [x] is the first element of [l], in backward order, that satisfies [P]:
    no element after it satisfies [P]. *)
Definition last_in {A} (P : A → Prop) (l : list A) (x : A) : Prop :=
  ∃ k, l !! k = Some x ∧ P x ∧ ∀ j y, k < j → l !! j = Some y → ¬ P y.

(** "the first message in forward order" that is a user candidate *)
Definition first_user (user_role : string) (msgs : list Message)
    (u : Message) : Prop :=
  first_in (user_candidate user_role) msgs u.

(** "the first message in backward order" that is an assistant candidate *)
Definition last_assistant (assistant_role : list string)
    (msgs : list Message) (a : Message) : Prop :=
  last_in (assistant_candidate assistant_role) msgs a.

(** The pair that a run contributes, following the words of the
    specification: the run has a response with messages, [u] is the first
    user candidate and [a] the last assistant candidate. *)
Definition run_contributes (user_role : string) (assistant_role : list string)
    (run : AgentRun) (p : Message * Message) : Prop :=
  ∃ r msgs, response run = Some r ∧ rr_messages r = Some msgs ∧
            first_user user_role msgs p.1 ∧
            last_assistant assistant_role msgs p.2.

(** What the two loops of [get_message_pairs] find in one run. *)
Definition pair_of_run (user_role : string) (assistant_role : list string)
    (run : AgentRun) : option (Message * Message) :=
  r ← response run;
  msgs ← rr_messages r;
  u ← user_messages_from_run user_role msgs;
  a ← assistant_messages_from_run assistant_role (reverse msgs);
  Some (u, a).

(** The classifier object that [should_update_memory] consults on [mem]:
    the configured one, or a fresh one, seeded with the current memories. *)
Definition classifier_consulted (mem : AgentMemory) : MemoryClassifier :=
  {| classifier_model := c ← classifier mem; classifier_model c;
     existing_memories := memories mem |}.

(** The classifier "says yes": its answer, lowercased, is exactly ["yes"]. *)
Definition says_yes (answer : option string) : Prop :=
  ∃ a, answer = Some a ∧ lower a = "yes".

Definition calls_of (p : Effect → bool) (t : list Effect) : nat :=
  length (filter (λ e, p e = true) t).

(** An effect list without calls of the classifier or of the manager. *)
Definition quiet (t : list Effect) : Prop :=
  Forall (λ e, is_classifier_call e = false ∧ is_manager_call e = false) t.

End Spec.

(** ** Concrete inputs *)

Module Examples.
Import Memory.

Definition msg (r c : string) : Message :=
  {| role := r; content := ContentStr c; tool_calls := None;
     from_history := false |}.

Definition run_with (rid : option string) (c : string) : AgentRun :=
  {| message := None; ar_messages := None;
     response := Some {| run_id := rid; rr_messages := None;
                         rr_content := Some c |} |}.

Definition run_x1 : AgentRun := run_with (Some "x") "first".
Definition run_x2 : AgentRun := run_with (Some "x") "second".
Definition run_x3 : AgentRun := run_with (Some "x") "third".
Definition run_y : AgentRun := run_with (Some "y") "other".
Definition run_no_id : AgentRun := run_with None "pending".
Definition run_no_response : AgentRun :=
  {| message := Some (msg "user" "hi"); ar_messages := None;
     response := None |}.

(** A memory whose runs list already holds two entries with identifier
    ["x"], as [AgentMemory(runs=[run_x1, run_x2])] builds it. *)
Definition memory_with_duplicates : AgentMemory :=
  set_runs AgentMemory_default [run_x1; run_x2].

Definition memory_y_x : AgentMemory :=
  set_runs AgentMemory_default [run_y; run_x1].

(** The run of the specification's example:
    [user:"hi", assistant:"hello", user:"ok"]. *)
Definition hi_hello_ok : list Message :=
  [msg "user" "hi"; msg "assistant" "hello"; msg "user" "ok"].

Definition run_hi_hello_ok : AgentRun :=
  {| message := None; ar_messages := None;
     response := Some {| run_id := Some "r1";
                         rr_messages := Some hi_hello_ok;
                         rr_content := None |} |}.

Definition memory_hi_hello_ok : AgentMemory :=
  set_runs AgentMemory_default [run_hi_hello_ok].

Definition system_old : Message := msg "system" "You are helpful.".
Definition system_new : Message := msg "system" "You are terse.".

Definition history : list Message := [msg "user" "hi"; system_old].

Definition memory_with_history (update : bool) : AgentMemory :=
  {| runs := []; messages := history;
     update_system_message_on_change := update;
     db := None; user_id := None; retrieval := last_n; memories := None;
     num_memories := None; classifier := None; manager := None;
     updating_memory := false |}.

(** A store and collaborators over a trivial outside. *)
Definition the_db : MemoryDb := MemoryDbHandle "memory".

Definition memory_with_db (policy : MemoryRetrieval) : AgentMemory :=
  {| runs := []; messages := [];
     update_system_message_on_change := false;
     db := Some the_db; user_id := Some "u1"; retrieval := policy;
     memories := None; num_memories := None; classifier := None;
     manager := None; updating_memory := false |}.

(** A store adapter whose read raises. *)
Definition read_fails (d : MemoryDb) (user : option string)
    (limit : option nat) (sort : string) (w : ())
  : Result (option (list MemoryRow)) * () :=
  (Raise (OtherException "connection refused"), w).

(** A store adapter with one row. *)
Definition read_one_row (d : MemoryDb) (user : option string)
    (limit : option nat) (sort : string) (w : ())
  : Result (option (list MemoryRow)) * () :=
  (Ok (Some [{| row_memory := "likes jazz" |}]), w).

Definition validate_any (payload : string) : Result UserMemory :=
  Ok {| memory_text := payload |}.

(** A classifier that answers ["no"], and one that answers ["YES"]. *)
Definition classifier_says (answer : string) (mode : CallMode)
    (c : MemoryClassifier) (input : string) (w : ())
  : Result (option string) * () :=
  (Ok (Some answer), w).

Definition manager_ok (mode : CallMode) (m : MemoryManager) (input : string)
    (w : ()) : Result (option string) * () :=
  (Ok (Some "Memory added"), w).

End Examples.

(** ** Concrete requests *)

Module RouterExamples.
Import Router.

Definition agent_a1 : Agent := {| agent_id := Some "a1"; knowledge := None |}.
Definition team_t1 : Team := {| team_id := Some "t1" |}.

(** [get_sync_router(agents=[agent_a1])] *)
Definition registry_one_agent : Registry :=
  {| agents := Some [agent_a1]; teams := None; workflows := None |}.

(** [get_sync_router(teams=[team_t1])]: no agents were given. *)
Definition registry_teams_only : Registry :=
  {| agents := None; teams := Some [team_t1]; workflows := None |}.

(** [get_sync_router(agents=[], teams=[team_t1])] *)
Definition registry_no_agents : Registry :=
  {| agents := Some []; teams := Some [team_t1]; workflows := None |}.

(** [POST /runs?agent_id=a1] with [message=hi], a session id, the given
    [stream] flag and no file part. *)
Definition request_a1 (streaming : bool) : Request :=
  {| message := Some "hi"; stream := streaming; monitor := false;
     req_agent_id := Some "a1"; req_team_id := None;
     req_workflow_id := None; workflow_input := None;
     session_id := Some "s1"; user_id := Some "u1"; files := None |}.

(** [POST /runs?team_id=t1], likewise. *)
Definition request_t1 (streaming : bool) : Request :=
  {| message := Some "hi"; stream := streaming; monitor := false;
     req_agent_id := None; req_team_id := Some "t1";
     req_workflow_id := None; workflow_input := None;
     session_id := Some "s1"; user_id := Some "u1"; files := None |}.

(** [POST /runs?agent_id=a1&team_id=t1] *)
Definition request_a1_and_t1 : Request :=
  {| message := Some "hi"; stream := false; monitor := false;
     req_agent_id := Some "a1"; req_team_id := Some "t1";
     req_workflow_id := None; workflow_input := None;
     session_id := Some "s1"; user_id := Some "u1"; files := None |}.

(** [POST /runs?agent_id=nobody] *)
Definition request_unknown_agent : Request :=
  {| message := Some "hi"; stream := false; monitor := false;
     req_agent_id := Some "nobody"; req_team_id := None;
     req_workflow_id := None; workflow_input := None;
     session_id := Some "s1"; user_id := Some "u1"; files := None |}.

(** [POST /runs?agent_id=a1] with no message *)
Definition request_a1_no_message : Request :=
  {| message := None; stream := false; monitor := false;
     req_agent_id := Some "a1"; req_team_id := None;
     req_workflow_id := None; workflow_input := None;
     session_id := Some "s1"; user_id := Some "u1"; files := None |}.

(** A provider that produces two chunks and then fails, over a trivial
    outside, with chunks that are their own JSON text. *)
Definition run_stream_fails (c : RunCall) (w : ())
  : Result (Generator string) :=
  Ok {| chunks := ["c1"; "c2"];
        ending := Some (OtherException "provider down") |}.

Definition chunk_json (c : string) : Result string := Ok c.

Definition run_response_json (r : RunResponse) : string :=
  match rr_status r with
  | status_error => "error:" +:+ default "" (rr_content r)
  | status_running => "running:" +:+ default "" (rr_content r)
  end.

Definition team_error_json (e : TeamRunResponseErrorEvent) : string :=
  "team-error:" +:+ default "" (te_content e).

End RouterExamples.

(** ** The other methods of [AgentMemory] *)

Module MemoryQueries.
Import Memory.

(** [AgentMemory.add_messages]: [self.messages.extend(messages)] *)
Definition add_messages (self : AgentMemory) (msgs : list Message)
  : AgentMemory :=
  set_messages self (messages self ++ msgs).

(** [AgentMemory.clear]: the four assignments ([summary] is not a field of
    the record here). *)
Definition clear (self : AgentMemory) : AgentMemory :=
  set_memories (set_messages (set_runs self []) []) None.

(** [l[start:]] on a Python list: a negative [start] counts from the end,
    and the bound is clamped to the list. *)
Definition slice_from {A} (start : Z) (l : list A) : list A :=
  let len := Z.of_nat (length l) in
  let first :=
    if (start <? 0)%Z then Z.max 0 (start + len) else Z.min start len in
  drop (Z.to_nat first) l.

(** Truth value of [skip_role], an [Optional[str]]. *)
Definition truthy_role (skip_role : option string) : bool :=
  match skip_role with
  | Some r => truthy_str r
  | None => false
  end.

(** The inner loop of [get_messages_from_last_n_runs], with the list built
    so far: [continue] on a message with the role to skip, [continue] on a
    message tagged [from_history], append the others. *)
Fixpoint messages_from_run (skip_role : option string) (msgs : list Message)
    (messages_from_history : list Message) : list Message :=
  match msgs with
  | [] => messages_from_history
  | message :: rest =>
      if truthy_role skip_role && bool_decide (Some (role message) = skip_role)
      then messages_from_run skip_role rest messages_from_history
      else if from_history message
      then messages_from_run skip_role rest messages_from_history
      else messages_from_run skip_role rest (messages_from_history ++ [message])
  end.

(** The body of [for run in runs_to_process]:
    [if not (run.response and run.response.messages): continue]. *)
Definition messages_from_runs_step (skip_role : option string)
    (messages_from_history : list Message) (run : AgentRun) : list Message :=
  match response run with
  | Some r =>
      match rr_messages r with
      | Some ((_ :: _) as msgs) =>
          messages_from_run skip_role msgs messages_from_history
      | _ => messages_from_history
      end
  | None => messages_from_history
  end.

(** [AgentMemory.get_messages_from_last_n_runs]; [last_n] is an
    [Optional[int]], and [self.runs[-last_n:]] is a slice. *)
Definition get_messages_from_last_n_runs (self : AgentMemory)
    (last_n : option Z) (skip_role : option string) : list Message :=
  match runs self with
  | [] => []
  | _ :: _ =>
      let runs_to_process :=
        match last_n with
        | None => runs self
        | Some n => slice_from (- n) (runs self)
        end in
      foldl (messages_from_runs_step skip_role) [] runs_to_process
  end.

(** [num_calls and len(tool_calls) >= num_calls] *)
Definition limit_reached (num_calls : option Z) (tool_calls : list string)
  : bool :=
  match num_calls with
  | Some n => negb (n =? 0)%Z && (n <=? Z.of_nat (length tool_calls))%Z
  | None => false
  end.

(** The inner loop of [get_tool_calls] over [message.tool_calls], with the
    list built so far; the flag tells that [return tool_calls] was
    executed. *)
Fixpoint collect_tool_calls (num_calls : option Z) (calls : list string)
    (collected : list string) : list string * bool :=
  match calls with
  | [] => (collected, false)
  | tool_call :: rest =>
      if limit_reached num_calls (collected ++ [tool_call])
      then (collected ++ [tool_call], true)
      else collect_tool_calls num_calls rest (collected ++ [tool_call])
  end.

(** The outer loop, over [self.messages[::-1]]. *)
Fixpoint scan_tool_calls (num_calls : option Z) (msgs : list Message)
    (collected : list string) : list string :=
  match msgs with
  | [] => collected
  | message :: rest =>
      match tool_calls message with
      | Some ((_ :: _) as calls) =>
          let '(collected', returned) :=
            collect_tool_calls num_calls calls collected in
          if returned then collected'
          else scan_tool_calls num_calls rest collected'
      | _ => scan_tool_calls num_calls rest collected
      end
  end.

(** [AgentMemory.get_tool_calls] *)
Definition get_tool_calls (self : AgentMemory) (num_calls : option Z)
  : list string :=
  scan_tool_calls num_calls (reverse (messages self)) [].

(** *** Notions used to state what the queries return *)

(** A message that [get_messages_from_last_n_runs] keeps. *)
Definition kept (skip_role : option string) (m : Message) : Prop :=
  from_history m = false ∧
  ¬ (truthy_role skip_role = true ∧ Some (role m) = skip_role).

#[global] Instance kept_dec skip_role m : Decision (kept skip_role m).
Proof. unfold kept. apply _. Defined.

(** The messages of a run's response; none when there is no response or no
    message list. *)
Definition run_messages (run : AgentRun) : list Message :=
  default [] (r ← response run; rr_messages r).

(** The tool calls of a message, none when the attribute is unset. *)
Definition message_tool_calls (m : Message) : list string :=
  default [] (tool_calls m).

(** All tool calls of a history, newest message first, in the order of each
    message's own list. *)
Definition all_tool_calls (msgs : list Message) : list string :=
  reverse msgs ≫= message_tool_calls.

(** The number of messages with role [r]. *)
Definition count_role (r : string) (msgs : list Message) : nat :=
  length (filter (λ m, role m = r) msgs).

(** The rows of a store read that deserialize, in order. *)
Definition valid_rows (model_validate : string → Result UserMemory)
    (rows : list MemoryRow) : list UserMemory :=
  omap (λ row, match model_validate (row_memory row) with
               | Ok m => Some m
               | Raise _ => None
               end) rows.

(** The manager object that [update_memory] runs on [mem]: the configured
    one, or a fresh one, bound to the current user and store. *)
Definition manager_bound (mem : AgentMemory) : MemoryManager :=
  {| manager_model := m ← manager mem; manager_model m;
     manager_user_id := user_id mem;
     manager_db := db mem |}.

(** More concrete inputs. *)
Definition tool_msg (r : string) (calls : list string) : Message :=
  {| role := r; content := ContentNone; tool_calls := Some calls;
     from_history := false |}.

Definition replayed (r c : string) : Message :=
  {| role := r; content := ContentStr c; tool_calls := None;
     from_history := true |}.

Definition run_of (rid : string) (msgs : list Message) : AgentRun :=
  {| message := None; ar_messages := None;
     response := Some {| run_id := Some rid; rr_messages := Some msgs;
                         rr_content := None |} |}.

Definition run_1 : AgentRun :=
  run_of "r1" [Examples.msg "system" "be brief"; Examples.msg "user" "hi";
               Examples.msg "assistant" "hello"].

Definition run_2 : AgentRun :=
  run_of "r2" [replayed "user" "hi"; replayed "assistant" "hello";
               Examples.msg "user" "more"; Examples.msg "assistant" "sure"].

Definition run_3 : AgentRun :=
  run_of "r3" [Examples.msg "user" "bye"; Examples.msg "assistant" "goodbye"].

Definition memory_two_runs : AgentMemory :=
  set_runs AgentMemory_default [run_1; run_2].

Definition memory_with_tools : AgentMemory :=
  set_messages AgentMemory_default
    [tool_msg "assistant" ["search"; "fetch"]; Examples.msg "user" "go on";
     tool_msg "assistant" ["summarize"]].

(** A validator that rejects the row ["corrupt"]. *)
Definition validate_strict (payload : string) : Result UserMemory :=
  if bool_decide (payload = "corrupt")
  then Raise (OtherException "validation error")
  else Ok {| memory_text := payload |}.

(** A store with three rows, the second of which does not validate. *)
Definition read_three_rows (d : MemoryDb) (user : option string)
    (limit : option nat) (sort : string) (w : ())
  : Result (option (list MemoryRow)) * () :=
  (Ok (Some [{| row_memory := "likes jazz" |}; {| row_memory := "corrupt" |};
             {| row_memory := "lives in Oslo" |}]), w).

(** A classifier and a manager that fail. *)
Definition classifier_fails (mode : CallMode) (c : MemoryClassifier)
    (input : string) (w : ()) : Result (option string) * () :=
  (Raise (OtherException "model unavailable"), w).

Definition manager_fails (mode : CallMode) (m : MemoryManager)
    (input : string) (w : ()) : Result (option string) * () :=
  (Raise (OtherException "write failed"), w).

End MemoryQueries.

(** ** Notions used to state what the router does *)

Module RouterMore.
Import Router RouterExamples.

(** The bucket that the [if]/[elif] chain of the two file processors puts a
    declared media type in. *)
Inductive MediaKind := KindImage | KindAudio | KindVideo | KindOther.

#[global] Instance MediaKind_eq_dec : EqDecision MediaKind.
Proof. solve_decision. Defined.

Definition media_kind (ct : option string) : MediaKind :=
  if type_in ct image_types then KindImage
  else if type_in ct audio_types then KindAudio
  else if type_in ct video_types then KindVideo
  else KindOther.

(** The files of one bucket that their converter accepts, converted, in
    upload order. *)
Definition converted {A} (kind : MediaKind) (process : UploadFile → Result A)
    (files : list UploadFile) : list A :=
  omap (λ f, match process f with
             | Ok x => Some x
             | Raise _ => None
             end)
       (filter (λ f, media_kind (content_type f) = kind) files).

(** The documents that [team_process_file] collects: the files outside the
    three media buckets for which [process_document] returns a document. *)
Definition collected_documents
    (process_document : UploadFile → Result (option FileMedia))
    (files : list UploadFile) : list FileMedia :=
  omap (λ f, match process_document f with
             | Ok (Some d) => Some d
             | _ => None
             end)
       (filter (λ f, media_kind (content_type f) = KindOther) files).

(** A file that [team_process_file] accepts: a media file, or a document
    type on which [process_document] does not raise. *)
Definition team_accepts
    (process_document : UploadFile → Result (option FileMedia))
    (f : UploadFile) : Prop :=
  media_kind (content_type f) ≠ KindOther ∨
  (type_in (content_type f) document_types = true ∧
   ∃ d, process_document f = Ok d).

(** No document was loaded into a knowledge base. *)
Definition no_documents_loaded (t : list Effect) : Prop :=
  Forall (λ e, match e with DocumentsLoaded _ _ => False | _ => True end) t.

(** The session identifier that the handler works with, and the handler's
    state once it is chosen: the one of the request when it is not empty,
    else a fresh [uuid4]. *)
Definition session_start {World : Type} (uuid4 : World → string * World)
    (req : Request) (w : World) : string * @HSt World :=
  match session_id req with
  | Some ((String _ _) as sid) => (sid, {| world := w; trace := [] |})
  | _ => ((uuid4 w).1, {| world := (uuid4 w).2; trace := [Uuid4Called] |})
  end.

(** The number of selectors that a request sets. *)
Definition selectors_set (req : Request) : nat :=
  (if truthy (req_agent_id req) then 1 else 0)
  + (if truthy (req_team_id req) then 1 else 0)
  + (if truthy (req_workflow_id req) then 1 else 0).


(** More concrete inputs: uploads, and collaborators over a trivial
    outside. *)
Definition upload (ct name : string) : UploadFile :=
  {| content_type := Some ct; filename := name; file_bytes := "" |}.

Definition png : UploadFile := upload "image/png" "a.png".
Definition broken_png : UploadFile := upload "image/png" "broken.png".
Definition wav : UploadFile := upload "audio/wav" "a.wav".
Definition zip : UploadFile := upload "application/zip" "a.zip".
Definition pdf : UploadFile := upload "application/pdf" "a.pdf".

Definition agent_with_knowledge : Agent :=
  {| agent_id := Some "a2"; knowledge := Some (KnowledgeBase "kb") |}.

Definition uuid4_fixed (w : ()) : string * () := ("fresh-session", w).

Definition image_of (f : UploadFile) : Result Image :=
  if bool_decide (filename f = "broken.png")
  then Raise (OtherException "cannot decode")
  else Ok (Base64Image (filename f)).

Definition audio_of (f : UploadFile) : Result Audio :=
  Ok (Base64Audio (filename f)).

Definition video_of (f : UploadFile) : Result Video :=
  Ok (Base64Video (filename f)).

Definition document_of (f : UploadFile) : Result (option FileMedia) :=
  Ok (Some (DocumentFile (filename f))).

Definition read_any (reader : string) (f : UploadFile) : Result string :=
  Ok (reader +:+ ":" +:+ filename f).

Definition load_any (k : Knowledge) (documents : string) (w : ())
  : Result () * () := (Ok (), w).

Definition json_never (text : string) : option JsonValue := None.


Definition run_echo (c : RunCall) (w : ()) : Result string * () :=
  (Ok "result", w).

Definition workflow_v2 : Workflow :=
  {| workflow_id := Some "w2"; style := WorkflowV2 |}.



Definition request_a1_with (uploads : list UploadFile) (streaming : bool)
  : Request :=
  {| message := Some "hi"; stream := streaming; monitor := false;
     req_agent_id := Some "a1"; req_team_id := None;
     req_workflow_id := None; workflow_input := None;
     session_id := Some "s1"; user_id := Some "u1"; files := Some uploads |}.

Definition request_t1_with (uploads : list UploadFile) (streaming : bool)
  : Request :=
  {| message := Some "hi"; stream := streaming; monitor := false;
     req_agent_id := None; req_team_id := Some "t1";
     req_workflow_id := None; workflow_input := None;
     session_id := Some "s1"; user_id := Some "u1"; files := Some uploads |}.

Definition workflow_error_json (e : WorkflowErrorEvent) : string :=
  "workflow-error:" +:+ default "" (we_error e).

(** A provider that completes after two chunks, and a serializer that
    rejects the chunk ["bad"]. *)
Definition run_stream_completes (c : RunCall) (w : ())
  : Result (Generator string) :=
  Ok {| chunks := ["c1"; "c2"]; ending := None |}.

Definition run_stream_bad_chunk (c : RunCall) (w : ())
  : Result (Generator string) :=
  Ok {| chunks := ["c1"; "bad"; "c3"]; ending := None |}.

Definition chunk_json_strict (c : string) : Result string :=
  if bool_decide (c = "bad") then Raise (OtherException "not serializable")
  else Ok c.

End RouterMore.

(** ** Run history: [add_run] *)

Module RunHistory.
Import Memory Spec Examples.

Lemma run_key_truthy run rid : run_key run = Some rid → truthy_str rid = true.
Proof.
  unfold run_key. destruct (response run) as [r|]; [|done].
  destruct (run_id r) as [rid'|]; [|done].
  destruct (truthy_str rid') eqn:E; [|done]. by intros [= <-].
Qed.

Lemma same_run_id_key rid run :
  truthy_str rid = true → same_run_id rid run ↔ run_key run = Some rid.
Proof.
  intros Ht. unfold same_run_id, run_key.
  destruct (response run) as [r|]; [|done].
  destruct (run_id r) as [rid'|]; [|done]. split.
  - intros [= ->]. by rewrite Ht.
  - destruct (truthy_str rid'); [|done]. by intros [= ->].
Qed.

Lemma omap_insert_same_key {A B} (f : A → option B) (l : list A) i x y :
  l !! i = Some x → f x = f y → omap f (<[i:=y]> l) = omap f l.
Proof.
  revert i. induction l as [|a l IH]; intros [|i] Hi Hf; simplify_eq/=; try done.
  - by rewrite Hf.
  - by rewrite (IH i).
Qed.

Lemma omap_key_unique {A B} (f : A → option B) (l : list A) i j x y k :
  NoDup (omap f l) → l !! i = Some x → l !! j = Some y →
  f x = Some k → f y = Some k → i = j.
Proof.
  revert i j. induction l as [|a l IH]; intros i j Hnd Hi Hj Hx Hy; [done|].
  assert (Hin : ∀ n z, l !! n = Some z → f z = Some k → k ∈ omap f l).
  { intros n z Hn Hz. apply list_elem_of_omap. exists z. split; [|done].
    by eapply list_elem_of_lookup_2. }
  destruct i as [|i], j as [|j]; simplify_eq/=; try done.
  - rewrite Hx in Hnd. apply NoDup_cons in Hnd as [Hk _].
    destruct Hk. by eapply Hin.
  - rewrite Hy in Hnd. apply NoDup_cons in Hnd as [Hk _].
    destruct Hk. by eapply Hin.
  - f_equal. apply IH; try done.
    destruct (f a); [by apply NoDup_cons in Hnd as [_ ?]|done].
Qed.

(** What [add_run] does with a run that carries an identifier, in terms of
    the search of the loop. *)
Lemma add_run_found self agent_run rid i old :
  run_key agent_run = Some rid →
  list_find (same_run_id rid) (runs self) = Some (i, old) →
  runs (add_run self agent_run) = <[i:=agent_run]> (runs self).
Proof. intros Hk Hf. unfold add_run. by rewrite Hk, Hf. Qed.

Lemma add_run_not_found self agent_run rid :
  run_key agent_run = Some rid →
  list_find (same_run_id rid) (runs self) = None →
  runs (add_run self agent_run) = runs self ++ [agent_run].
Proof. intros Hk Hf. unfold add_run. by rewrite Hk, Hf. Qed.

Lemma first_with_run_id_find rid rs i :
  truthy_str rid = true → first_with_run_id rid rs i →
  ∃ old, list_find (same_run_id rid) rs = Some (i, old).
Proof.
  intros Ht [(old & Hi & Hk) Hfirst]. exists old.
  apply list_find_Some. split_and!; [done|by apply same_run_id_key|].
  intros j r Hj Hlt Hs. apply (Hfirst j r); [done..|].
  by apply same_run_id_key.
Qed.

Lemma not_in_run_keys_find rid rs :
  truthy_str rid = true → rid ∉ run_keys rs →
  list_find (same_run_id rid) rs = None.
Proof.
  intros Ht Hnin. apply list_find_None, Forall_forall. intros r Hr Hs.
  apply Hnin, list_elem_of_omap. exists r. split; [done|].
  by apply same_run_id_key.
Qed.

Lemma find_none_not_in_run_keys rid rs :
  truthy_str rid = true → list_find (same_run_id rid) rs = None →
  rid ∉ run_keys rs.
Proof.
  intros Ht Hf Hin. apply list_elem_of_omap in Hin as (r & Hr & Hk).
  apply list_find_None in Hf. rewrite Forall_forall in Hf.
  apply (Hf r Hr). by apply same_run_id_key.
Qed.

(** [add_run] keeps the invariant of the runs list. *)
Lemma add_run_keeps_invariant self agent_run :
  one_entry_per_run_id (runs self) →
  one_entry_per_run_id (runs (add_run self agent_run)).
Proof.
  intros Hnd. unfold add_run.
  destruct (run_key agent_run) as [rid|] eqn:Hk; [|done].
  pose proof (run_key_truthy _ _ Hk) as Ht.
  destruct (list_find _ _) as [[i old]|] eqn:Hf; simpl.
  - apply list_find_Some in Hf as (Hi & Hs & _).
    unfold one_entry_per_run_id, run_keys.
    rewrite (omap_insert_same_key _ _ _ old); [done..|].
    apply same_run_id_key in Hs; [|done]. by rewrite Hs, Hk.
  - unfold one_entry_per_run_id, run_keys. rewrite omap_app. simpl.
    rewrite Hk. simpl. apply NoDup_app. split_and!; [done| |apply NoDup_singleton].
    intros x Hx ->%list_elem_of_singleton.
    by eapply find_none_not_in_run_keys.
Qed.

(** Every runs list built from the empty one by [add_run] alone has at most
    one entry per run identifier. *)
Lemma add_runs_from_empty (rs : list AgentRun) :
  one_entry_per_run_id (runs (foldl add_run AgentMemory_default rs)).
Proof.
  assert (∀ m, one_entry_per_run_id (runs m) →
               one_entry_per_run_id (runs (foldl add_run m rs))) as H.
  { induction rs as [|r rs IH]; intros m Hm; [done|].
    simpl. by apply IH, add_run_keeps_invariant. }
  apply H. apply NoDup_nil_2.
Qed.

(** C1, as amended.  For every [AgentMemory] state and every [AgentRun]
    whose response carries a non-empty run identifier [rid]: if the runs
    list has an entry with that identifier, [add_run] stores the new run at
    the index of the first such entry (the length of the list and every
    other entry are unchanged); if it has none, the run is appended; and if
    the runs list had at most one entry per run identifier before, it still
    has afterwards, and its only entry with identifier [rid] is the run just
    added.  For every [AgentRun] with no response, or whose response has no
    run identifier (or an empty one), [add_run] changes nothing. *)
Theorem add_run_replace_or_append (self : AgentMemory) (agent_run : AgentRun) :
  (∀ rid, run_key agent_run = Some rid →
     (∀ i, first_with_run_id rid (runs self) i →
        runs (add_run self agent_run) = <[i:=agent_run]> (runs self) ∧
        length (runs (add_run self agent_run)) = length (runs self) ∧
        runs (add_run self agent_run) !! i = Some agent_run ∧
        ∀ j, j ≠ i → runs (add_run self agent_run) !! j = runs self !! j) ∧
     (rid ∉ run_keys (runs self) →
        runs (add_run self agent_run) = runs self ++ [agent_run]) ∧
     (one_entry_per_run_id (runs self) →
        one_entry_per_run_id (runs (add_run self agent_run)) ∧
        ∀ j r, runs (add_run self agent_run) !! j = Some r →
               run_key r = Some rid → r = agent_run)) ∧
  (run_key agent_run = None → add_run self agent_run = self).
Proof.
  split.
  - intros rid Hk. pose proof (run_key_truthy _ _ Hk) as Ht. split_and!.
    + intros i Hfirst.
      destruct (first_with_run_id_find _ _ _ Ht Hfirst) as [old Hf].
      rewrite (add_run_found _ _ _ _ _ Hk Hf).
      apply list_find_Some in Hf as (Hi & _ & _).
      split_and!; [done|by rewrite length_insert| |].
      * apply list_lookup_insert_eq. by eapply lookup_lt_Some.
      * intros j Hj. by apply list_lookup_insert_ne.
    + intros Hnin. eapply add_run_not_found; [done|].
      by apply not_in_run_keys_find.
    + intros Hnd. split; [by apply add_run_keeps_invariant|].
      assert (∃ i0, runs (add_run self agent_run) !! i0 = Some agent_run)
        as [i0 Hi0].
      { destruct (list_find (same_run_id rid) (runs self)) as [[i old]|] eqn:Hf.
        - exists i. rewrite (add_run_found _ _ _ _ _ Hk Hf).
          apply list_find_Some in Hf as (Hi & _ & _).
          apply list_lookup_insert_eq. by eapply lookup_lt_Some.
        - exists (length (runs self)).
          rewrite (add_run_not_found _ _ _ Hk Hf).
          by rewrite lookup_app_r, Nat.sub_diag. }
      intros j r Hj Hr.
      assert (j = i0) as ->.
      { eapply (omap_key_unique run_key); [|done..].
        by apply add_run_keeps_invariant. }
      congruence.
  - intros Hk. unfold add_run. by rewrite Hk.
Qed.

(** An instance of [add_run_replace_or_append]: re-submitting run ["x"] to
    the runs list [y, x]. *)
Lemma add_run_replace_or_append_witness :
  runs (add_run memory_y_x run_x2) = [run_y; run_x2] ∧
  one_entry_per_run_id (runs (add_run memory_y_x run_x2)) ∧
  add_run memory_y_x run_no_response = memory_y_x.
Proof.
  destruct (add_run_replace_or_append memory_y_x run_x2) as [H _].
  destruct (H "x" eq_refl) as (Hreplace & _ & Hinv).
  destruct (add_run_replace_or_append memory_y_x run_no_response) as [_ Hnoop].
  split_and!.
  - destruct (Hreplace 1) as [-> _]; [|reflexivity].
    split.
    + exists run_x1. split; reflexivity.
    + intros [|[|j]] r Hlt Hj; [|lia..]. by injection Hj as <-.
  - apply Hinv. unfold one_entry_per_run_id. simpl.
    apply NoDup_cons. split; [|apply NoDup_singleton].
    by intros ?%list_elem_of_singleton.
  - apply Hnoop. reflexivity.
Defined.

(** C1 as stated fails on a state that already holds two entries with the
    same identifier: [add_run] replaces the first and keeps the second. *)
Lemma add_run_duplicates_survive :
  run_key run_x3 = Some "x" ∧
  runs (add_run memory_with_duplicates run_x3) = [run_x3; run_x2] ∧
  run_key run_x2 = Some "x" ∧ run_x2 ≠ run_x3 ∧
  ¬ one_entry_per_run_id (runs (add_run memory_with_duplicates run_x3)).
Proof.
  split_and!; [reflexivity..|done|].
  unfold one_entry_per_run_id. simpl. intros Hnd.
  apply NoDup_cons in Hnd as [Hnin _]. apply Hnin. by left.
Qed.

End RunHistory.

(** ** Message history: [add_system_message] *)

Module MessageHistory.
Import Memory Spec Examples.

Lemma first_with_role_find r msgs i m :
  first_with_role r msgs i m ↔ list_find (λ m, role m = r) msgs = Some (i, m).
Proof.
  rewrite list_find_Some. unfold first_with_role. split.
  - intros (Hi & Hr & Hfirst). split_and!; [done..|].
    intros j y Hj Hlt. by apply (Hfirst j).
  - intros (Hi & Hr & Hfirst). split_and!; [done..|].
    intros j y Hlt Hj. by apply (Hfirst j).
Qed.

Lemma no_role_find r (msgs : list Message) :
  (∀ m, m ∈ msgs → role m ≠ r) ↔ list_find (λ m, role m = r) msgs = None.
Proof. by rewrite list_find_None, Forall_forall. Qed.

Lemma nonempty_length (msgs : list Message) :
  msgs ≠ [] → bool_decide (length msgs = 0) = false.
Proof. intros H. apply bool_decide_eq_false. by destruct msgs. Qed.

(** C9.  [add_system_message] on an empty history yields the history
    [[message]], the message at position 0.  On a non-empty history whose
    first message with the system role is [existing], at index [i]: if the
    content of [existing] differs from the new one and
    [update_system_message_on_change] is set, the message is stored at index
    [i], in place; otherwise (same content, or the flag unset) the object is
    left as it was.  On a non-empty history with no message of the system
    role, the message is inserted at position 0, before all others. *)
Theorem add_system_message_placement (self : AgentMemory) (message : Message)
    (system_message_role : string) :
  (messages self = [] →
     messages (add_system_message self message system_message_role)
       = [message] ∧
     messages (add_system_message self message system_message_role) !! 0
       = Some message) ∧
  (∀ i existing,
     first_with_role system_message_role (messages self) i existing →
     (content existing ≠ content message →
      update_system_message_on_change self = true →
        messages (add_system_message self message system_message_role)
          = <[i:=message]> (messages self) ∧
        messages (add_system_message self message system_message_role) !! i
          = Some message ∧
        length (messages (add_system_message self message system_message_role))
          = length (messages self)) ∧
     (content existing = content message ∨
      update_system_message_on_change self = false →
        add_system_message self message system_message_role = self)) ∧
  (messages self ≠ [] →
   (∀ m, m ∈ messages self → role m ≠ system_message_role) →
     messages (add_system_message self message system_message_role)
       = message :: messages self ∧
     messages (add_system_message self message system_message_role) !! 0
       = Some message).
Proof.
  split_and!.
  - intros Hnil. unfold add_system_message. by rewrite Hnil.
  - intros i existing Hfirst.
    assert (messages self ≠ []) as Hne.
    { destruct Hfirst as [Hi _]. by destruct (messages self). }
    pose proof (proj1 Hfirst) as Hi.
    apply first_with_role_find in Hfirst.
    unfold add_system_message. rewrite (nonempty_length _ Hne), Hfirst.
    split.
    + intros Hc Hu. rewrite Hu, bool_decide_eq_true_2 by done. simpl.
      split_and!; [done| |by rewrite length_insert].
      apply list_lookup_insert_eq. by eapply lookup_lt_Some.
    + intros [Hc | Hu].
      * by rewrite bool_decide_eq_false_2 by (by intros ?).
      * by rewrite Hu, andb_false_r.
  - intros Hne Hnone. apply no_role_find in Hnone.
    unfold add_system_message. by rewrite (nonempty_length _ Hne), Hnone.
Qed.

(** An instance of [add_system_message_placement]: a changed system message
    with updates enabled replaces the old one at index 1; an identical one
    changes nothing; and the first system message of a history without one
    goes to the front. *)
Lemma add_system_message_placement_witness :
  messages (add_system_message AgentMemory_default system_new "system")
    = [system_new] ∧
  messages (add_system_message (memory_with_history true) system_new "system")
    = [msg "user" "hi"; system_new] ∧
  add_system_message (memory_with_history true) system_old "system"
    = memory_with_history true ∧
  messages (add_system_message (memory_with_history true) system_new "developer")
    = system_new :: history.
Proof.
  assert (first_with_role "system" history 1 system_old) as Hfirst.
  { split_and!; [reflexivity..|].
    intros [|j] m' Hlt Hj; [|lia]. injection Hj as <-. discriminate. }
  split_and!.
  - destruct (add_system_message_placement AgentMemory_default system_new
                "system") as (H & _ & _).
    apply H. reflexivity.
  - destruct (add_system_message_placement (memory_with_history true)
                system_new "system") as (_ & H & _).
    destruct (H 1 system_old Hfirst) as [Hreplace _].
    apply Hreplace; [discriminate|reflexivity].
  - destruct (add_system_message_placement (memory_with_history true)
                system_old "system") as (_ & H & _).
    destruct (H 1 system_old Hfirst) as [_ Hsame].
    apply Hsame. by left.
  - destruct (add_system_message_placement (memory_with_history true)
                system_new "developer") as (_ & _ & H).
    apply H; [discriminate|].
    intros m Hm. simpl in Hm. unfold history in Hm.
    apply elem_of_cons in Hm as [->|Hm]; [discriminate|].
    apply list_elem_of_singleton in Hm as ->. discriminate.
Defined.

End MessageHistory.

(** ** Message pairs: [get_message_pairs] *)

Module MessagePairs.
Import Memory Spec Examples.

Section FirstAndLast.
Context {A : Type} (P : A → Prop).

Lemma first_in_nil x : ¬ first_in P [] x.
Proof. by intros (i & Hi & _). Qed.

Lemma first_in_hit a l x : P a → first_in P (a :: l) x ↔ x = a.
Proof.
  intros Ha. split.
  - intros ([|i] & Hi & Hx & Hfirst); [by simplify_eq/=|].
    destruct (Hfirst 0 a); [lia|done..].
  - intros ->. exists 0. split_and!; [done..|]. intros; lia.
Qed.

Lemma first_in_miss a l x : ¬ P a → first_in P (a :: l) x ↔ first_in P l x.
Proof.
  intros Ha. split.
  - intros ([|i] & Hi & Hx & Hfirst); [by simplify_eq/=|].
    exists i. split_and!; [done..|].
    intros j y Hlt Hj. apply (Hfirst (S j)); [lia|done].
  - intros (i & Hi & Hx & Hfirst). exists (S i). split_and!; [done..|].
    intros [|j] y Hlt Hj; [by simplify_eq/=|].
    apply (Hfirst j); [lia|done].
Qed.

(** The first in backward order is the first of the reversed list. *)
Lemma first_in_reverse l x : first_in P (reverse l) x ↔ last_in P l x.
Proof.
  split.
  - intros (i & Hi & Hx & Hfirst).
    pose proof (lookup_lt_Some _ _ _ Hi) as Hlt. rewrite length_reverse in Hlt.
    rewrite reverse_lookup in Hi by done.
    exists (length l - S i). split_and!; [done..|].
    intros j y Hj Hy. pose proof (lookup_lt_Some _ _ _ Hy) as Hjl.
    apply (Hfirst (length l - S j)); [lia|].
    rewrite reverse_lookup by lia. rewrite <- Hy. f_equal. lia.
  - intros (k & Hk & Hx & Hlast).
    pose proof (lookup_lt_Some _ _ _ Hk) as Hlt.
    exists (length l - S k). split_and!; [|done|].
    + rewrite reverse_lookup by lia. rewrite <- Hk. f_equal. lia.
    + intros j y Hj Hy. rewrite reverse_lookup in Hy by lia.
      apply (Hlast (length l - S j)); [lia|done].
Qed.

End FirstAndLast.

(** The first loop finds the first user candidate. *)
Lemma user_messages_from_run_first user_role msgs u :
  user_messages_from_run user_role msgs = Some u ↔
  first_user user_role msgs u.
Proof.
  unfold first_user. induction msgs as [|m rest IH]; simpl.
  - split; [done|]. by intros ?%first_in_nil.
  - destruct (from_history m) eqn:Hh.
    { rewrite first_in_miss; [done|]. intros [? _]. congruence. }
    case_bool_decide as Hr.
    + rewrite first_in_hit by done. split; congruence.
    + rewrite first_in_miss; [done|]. by intros [_ ?].
Qed.

(** The second loop, on the reversed list, finds the last assistant
    candidate. *)
Lemma assistant_messages_from_run_first assistant_role msgs a :
  assistant_messages_from_run assistant_role msgs = Some a ↔
  first_in (assistant_candidate assistant_role) msgs a.
Proof.
  induction msgs as [|m rest IH]; simpl.
  - split; [done|]. by intros ?%first_in_nil.
  - destruct (from_history m) eqn:Hh.
    { rewrite first_in_miss; [done|]. intros [? _]. congruence. }
    case_bool_decide as Hr.
    + rewrite first_in_hit by done. split; congruence.
    + rewrite first_in_miss; [done|]. by intros [_ ?].
Qed.

Lemma assistant_messages_from_run_last assistant_role msgs a :
  assistant_messages_from_run assistant_role (reverse msgs) = Some a ↔
  last_assistant assistant_role msgs a.
Proof.
  rewrite assistant_messages_from_run_first. apply first_in_reverse.
Qed.

Lemma message_pairs_step_pair user_role assistant_role acc run :
  message_pairs_step user_role assistant_role acc run
  = acc ++ option_list (pair_of_run user_role assistant_role run).
Proof.
  unfold message_pairs_step, pair_of_run.
  destruct (response run) as [r|]; simpl; [|by rewrite app_nil_r].
  destruct (rr_messages r) as [[|m msgs]|]; [by rewrite app_nil_r| |by rewrite app_nil_r].
  change (Some (m :: msgs) ≫= _) with
    (user_messages_from_run user_role (m :: msgs) ≫= λ u,
       assistant_messages_from_run assistant_role (reverse (m :: msgs)) ≫= λ a,
         Some (u, a)).
  destruct (user_messages_from_run _ _); simpl; [|by rewrite app_nil_r].
  destruct (assistant_messages_from_run _ _); simpl; [done|by rewrite app_nil_r].
Qed.

Lemma foldl_message_pairs user_role assistant_role acc rs :
  foldl (message_pairs_step user_role assistant_role) acc rs
  = acc ++ omap (pair_of_run user_role assistant_role) rs.
Proof.
  revert acc. induction rs as [|run rs IH]; intros acc; simpl.
  - by rewrite app_nil_r.
  - rewrite IH, message_pairs_step_pair, <- app_assoc. f_equal.
    by destruct (pair_of_run _ _ run).
Qed.

Lemma pair_of_run_contributes user_role assistant_role run p :
  pair_of_run user_role assistant_role run = Some p ↔
  run_contributes user_role assistant_role run p.
Proof.
  unfold pair_of_run, run_contributes. split.
  - intros H. destruct (response run) as [r|]; [|done]. simpl in H.
    destruct (rr_messages r) as [msgs|] eqn:Hm; [|done]. simpl in H.
    destruct (user_messages_from_run _ _) as [u|] eqn:Hu; [|done].
    simpl in H.
    destruct (assistant_messages_from_run _ _) as [a|] eqn:Ha; [|done].
    injection H as <-. exists r, msgs. split_and!; [done..| |].
    + by apply user_messages_from_run_first.
    + by apply assistant_messages_from_run_last.
  - intros (r & msgs & -> & Hm & Hu & Ha). simpl. rewrite Hm. simpl.
    apply user_messages_from_run_first in Hu.
    apply assistant_messages_from_run_last in Ha.
    rewrite Hu. simpl. rewrite Ha. simpl. by destruct p.
Qed.

(** C10.  There is a map from runs to optional pairs such that
    [get_message_pairs] returns, in run order, the pairs of the runs that
    have one; and a run has the pair [(u, a)] exactly when its response has
    messages, [u] is the first message in forward order that is not from
    history and has role [user_role], and [a] is the first message in
    backward order that is not from history and whose role is in the
    assistant roles (["assistant"], ["model"], ["CHATBOT"] when none are
    given).  The run [user:hi, assistant:hello, user:ok] with assistant roles
    [["assistant"]] yields the pair [(user:hi, assistant:hello)]. *)
Theorem get_message_pairs_extraction (self : AgentMemory) (user_role : string)
    (assistant_role : option (list string)) :
  (∃ pair_of : AgentRun → option (Message * Message),
     get_message_pairs self user_role assistant_role
       = omap pair_of (runs self) ∧
     ∀ run p,
       pair_of run = Some p ↔
       run_contributes user_role
         (default default_assistant_role assistant_role) run p) ∧
  get_message_pairs memory_hi_hello_ok "user" (Some ["assistant"])
    = [(msg "user" "hi", msg "assistant" "hello")].
Proof.
  split; [|reflexivity].
  exists (pair_of_run user_role (default default_assistant_role assistant_role)).
  split.
  - unfold get_message_pairs. by rewrite foldl_message_pairs.
  - intros run p. apply pair_of_run_contributes.
Qed.

End MessagePairs.

(** ** Long-term memories: [load_user_memories] *)

Module UserMemories.
Import Memory Spec Examples.

Lemma quiet_calls t :
  quiet t →
  calls_of is_classifier_call t = 0 ∧ calls_of is_manager_call t = 0.
Proof.
  unfold calls_of. induction 1 as [|e t [Hc Hm] _ [IHc IHm]]; [done|].
  rewrite !filter_cons. rewrite Hc, Hm.
  rewrite !decide_False by done. done.
Qed.

Section Store.
Context {World : Type}.
Variable read_memories :
  MemoryDb → option string → option nat → string →
  World → Result (option (list MemoryRow)) * World.
Variable model_validate : string → Result UserMemory.

(** The loop over the rows returns, changes only [memories], which stays a
    sequence, and only logs. *)
Lemma load_rows_returns (rows : list MemoryRow) (st : @St World) :
  is_Some (memories (self st)) →
  ∃ ms extra,
    load_rows model_validate rows st
      = (Ok (), {| self := set_memories (self st) (Some ms);
                   world := world st; trace := trace st ++ extra |}) ∧
    quiet extra.
Proof.
  revert st. induction rows as [|row rows IH]; intros st [ms0 Hms].
  - exists ms0, []. simpl. unfold ret. split; [|by constructor].
    rewrite app_nil_r. destruct st as [s w t]; simpl in *. f_equal. f_equal.
    destruct s; simpl in *. by subst.
  - simpl. unfold bind, try_except.
    destruct (model_validate (row_memory row)) as [m|e]; simpl.
    + edestruct (IH {| self := set_memories (self st)
                                 (Some (default [] (memories (self st)) ++ [m]));
                       world := world st; trace := trace st |})
        as (ms & extra & -> & Hq); [by eexists|].
      exists ms, extra. split; [|done]. done.
    + edestruct (IH {| self := self st; world := world st;
                       trace := trace st ++ [Logged "warning"
                         ("Error loading memory: " +:+ str_exc e)] |})
        as (ms & extra & -> & Hq); [by eexists|].
      exists ms, (Logged "warning" ("Error loading memory: " +:+ str_exc e)
                    :: extra).
      split; [|by constructor]. simpl. by rewrite <- app_assoc.
Qed.

Lemma set_memories_same (s : AgentMemory) : set_memories s (memories s) = s.
Proof. by destruct s. Qed.

Lemma set_memories_twice (s : AgentMemory) a b :
  set_memories (set_memories s a) b = set_memories s b.
Proof. by destruct s. Qed.

Lemma supported_policy (policy : MemoryRetrieval) :
  policy ≠ semantic → bool_decide (policy ∈ [last_n; first_n]) = true.
Proof. intros H. by destruct policy. Qed.

(** With the semantic policy, the [NotImplementedError] is raised inside the
    [try] and handled by its [except Exception]: the method logs at debug
    level and returns, and nothing else happens. *)
Lemma load_user_memories_semantic (mem : AgentMemory) (d : MemoryDb)
    (w : World) :
  db mem = Some d → retrieval mem = semantic →
  run_method (load_user_memories read_memories model_validate) mem w
  = (Ok (),
     {| self := mem; world := w;
        trace := [Logged "debug"
          "Error reading memory: Semantic retrieval not yet supported."] |}).
Proof.
  intros Hdb Hsem.
  unfold run_method, load_user_memories, read_memory_rows, bind, try_except,
    get_self. simpl. rewrite Hdb. simpl. by rewrite Hsem.
Qed.

(** What [load_user_memories] does for the two supported policies, by the
    outcome of the read. *)
Lemma load_user_memories_read (st : @St World) (d : MemoryDb) :
  db (self st) = Some d → retrieval (self st) ≠ semantic →
  let call_effect :=
    ReadMemoriesCalled d (user_id (self st)) (num_memories (self st))
      (sort_for (retrieval (self st))) in
  match read_memories d (user_id (self st)) (num_memories (self st))
          (sort_for (retrieval (self st))) (world st) with
  | (Raise e, w') =>
      load_user_memories read_memories model_validate st
      = (Ok (),
         {| self := self st; world := w';
            trace := trace st ++
              [call_effect;
               Logged "debug" ("Error reading memory: " +:+ str_exc e)] |})
  | (Ok rows, w') =>
      ∃ ms extra,
        load_user_memories read_memories model_validate st
        = (Ok (),
           {| self := set_memories (self st) (Some ms); world := w';
              trace := trace st ++ call_effect :: extra |}) ∧
        quiet extra
  end.
Proof.
  intros Hdb Hpol. simpl.
  destruct (read_memories _ _ _ _ _) as [[rows|e] w'] eqn:Hread.
  - assert (∃ ms extra,
      (match rows with
       | None | Some [] => ret ()
       | Some rows => load_rows model_validate rows
       end)
        {| self := set_memories (self st) (Some []); world := w';
           trace := trace st ++
             [ReadMemoriesCalled d (user_id (self st))
                (num_memories (self st)) (sort_for (retrieval (self st)))] |}
      = (Ok (),
         {| self := set_memories (self st) (Some ms); world := w';
            trace := (trace st ++
              [ReadMemoriesCalled d (user_id (self st))
                 (num_memories (self st)) (sort_for (retrieval (self st)))])
              ++ extra |}) ∧ quiet extra) as (ms & extra & Hrun & Hq).
    { destruct rows as [[|row rows]|].
      - exists [], []. split; [|by constructor]. by rewrite app_nil_r.
      - edestruct (load_rows_returns (row :: rows))
          as (ms & extra & -> & Hq); [by eexists|].
        exists ms, extra. split; [|done]. simpl.
        by rewrite set_memories_twice.
      - exists [], []. split; [|by constructor]. by rewrite app_nil_r. }
    exists ms, extra. split; [|done].
    unfold load_user_memories, read_memory_rows, bind, try_except, get_self,
      call. simpl. rewrite Hdb. simpl.
    rewrite (supported_policy _ Hpol), Hread. simpl.
    unfold update_self. simpl. rewrite Hrun. by rewrite <- app_assoc.
  - unfold load_user_memories, read_memory_rows, bind, try_except, get_self,
      call. simpl. rewrite Hdb. simpl.
    rewrite (supported_policy _ Hpol), Hread. simpl. by rewrite <- app_assoc.
Qed.

(** [load_user_memories] never raises; it changes at most [memories] (and
    the outside), and calls neither the classifier nor the manager. *)
Lemma load_user_memories_returns (st : @St World) :
  ∃ ms w' extra,
    load_user_memories read_memories model_validate st
    = (Ok (),
       {| self := set_memories (self st) ms; world := w';
          trace := trace st ++ extra |}) ∧
    quiet extra.
Proof.
  destruct (db (self st)) as [d|] eqn:Hdb.
  - destruct (decide (retrieval (self st) = semantic)) as [Hsem|Hpol].
    + exists (memories (self st)), (world st),
        [Logged "debug"
           "Error reading memory: Semantic retrieval not yet supported."].
      split; [|by repeat constructor].
      unfold load_user_memories, read_memory_rows, bind, try_except, get_self.
      simpl. rewrite Hdb. simpl. rewrite Hsem. simpl.
      by rewrite set_memories_same.
    + pose proof (load_user_memories_read st d Hdb Hpol) as H. simpl in H.
      destruct (read_memories _ _ _ _ _) as [[rows|e] w'].
      * destruct H as (ms & extra & -> & Hq).
        exists (Some ms), w', (ReadMemoriesCalled d (user_id (self st))
          (num_memories (self st)) (sort_for (retrieval (self st))) :: extra).
        split; [done|]. by constructor.
      * rewrite H. exists (memories (self st)), w'. eexists.
        split; [by rewrite set_memories_same|]. by repeat constructor.
  - exists (memories (self st)), (world st), [].
    split; [|by constructor].
    unfold load_user_memories, bind, get_self. simpl. rewrite Hdb.
    unfold ret. rewrite set_memories_same, app_nil_r. by destruct st.
Qed.

(** C7, as amended.  For an [AgentMemory] with a configured store and one
    of the two supported retrieval policies, [load_user_memories] returns
    without raising.  If the store adapter's read raises, the error is
    caught and the object is left as it was: [memories] keeps its value
    ([None] when no load has succeeded before).  If the read returns,
    [memories] is a sequence afterwards (possibly empty), never [None]. *)
Theorem load_user_memories_read_outcomes (mem : AgentMemory) (d : MemoryDb)
    (w : World) :
  db mem = Some d → retrieval mem ≠ semantic →
  (run_method (load_user_memories read_memories model_validate) mem w).1
    = Ok () ∧
  (∀ e,
     (read_memories d (user_id mem) (num_memories mem)
        (sort_for (retrieval mem)) w).1 = Raise e →
     self (run_method (load_user_memories read_memories model_validate)
             mem w).2 = mem) ∧
  (∀ rows,
     (read_memories d (user_id mem) (num_memories mem)
        (sort_for (retrieval mem)) w).1 = Ok rows →
     is_Some (memories
       (self (run_method (load_user_memories read_memories model_validate)
                mem w).2))).
Proof.
  intros Hdb Hpol.
  pose proof (load_user_memories_read
                {| self := mem; world := w; trace := [] |} d Hdb Hpol) as H.
  simpl in H. unfold run_method.
  destruct (read_memories _ _ _ _ _) as [[rows|e] w'].
  - destruct H as (ms & extra & -> & _). simpl.
    split_and!; [done|done|]. intros _ _. by eexists.
  - rewrite H. simpl. split_and!; done.
Qed.

(** C6 on the code: with a store configured and the semantic policy,
    [load_user_memories] returns normally.  The [NotImplementedError] does
    not reach the caller; [memories] is left as it was and the store is not
    read. *)
Theorem load_user_memories_semantic_swallowed (w : World) :
  run_method (load_user_memories read_memories model_validate)
    (memory_with_db semantic) w
  = (Ok (),
     {| self := memory_with_db semantic; world := w;
        trace := [Logged "debug"
          "Error reading memory: Semantic retrieval not yet supported."] |}).
Proof. by apply (load_user_memories_semantic _ the_db). Qed.

End Store.

(** An instance of [load_user_memories_read_outcomes]: a store whose read
    raises, and a store with one row. *)
Lemma load_user_memories_read_outcomes_witness :
  (run_method (load_user_memories read_fails validate_any)
     (memory_with_db last_n) ()).1 = Ok () ∧
  self (run_method (load_user_memories read_fails validate_any)
          (memory_with_db last_n) ()).2 = memory_with_db last_n ∧
  is_Some (memories
    (self (run_method (load_user_memories read_one_row validate_any)
             (memory_with_db first_n) ()).2)).
Proof.
  destruct (load_user_memories_read_outcomes read_fails validate_any
              (memory_with_db last_n) the_db ()) as (Hok & Hfail & _);
    [reflexivity|discriminate|].
  destruct (load_user_memories_read_outcomes read_one_row validate_any
              (memory_with_db first_n) the_db ()) as (_ & _ & Hrows);
    [reflexivity|discriminate|].
  split_and!.
  - exact Hok.
  - apply (Hfail (OtherException "connection refused")). reflexivity.
  - apply (Hrows (Some [{| row_memory := "likes jazz" |}])). reflexivity.
Defined.

(** C7 as stated fails when the read raises before any load has succeeded:
    the method returns normally and [memories] is still [None], not the
    empty sequence. *)
Lemma load_user_memories_failure_keeps_none :
  (run_method (load_user_memories read_fails validate_any)
     (memory_with_db last_n) ()).1 = Ok () ∧
  memories (memory_with_db last_n) = None ∧
  memories
    (self (run_method (load_user_memories read_fails validate_any)
             (memory_with_db last_n) ()).2) = None ∧
  memories
    (self (run_method (load_user_memories read_fails validate_any)
             (memory_with_db last_n) ()).2) ≠ Some [].
Proof. split_and!; [reflexivity..|discriminate]. Qed.

End UserMemories.

(** ** Memory writes: [update_memory], [aupdate_memory] *)

Module MemoryWrites.
Import Memory Spec Examples UserMemories.

Lemma calls_of_app p t1 t2 :
  calls_of p (t1 ++ t2) = calls_of p t1 + calls_of p t2.
Proof. unfold calls_of. by rewrite filter_app, length_app. Qed.

Lemma calls_of_cons p e t :
  calls_of p (e :: t) = (if p e then 1 else 0) + calls_of p t.
Proof.
  unfold calls_of. rewrite filter_cons.
  destruct (p e); [by rewrite decide_True|by rewrite decide_False].
Qed.

Lemma calls_of_nil p : calls_of p [] = 0.
Proof. done. Qed.

(** The test of [should_update_memory] on the classifier's answer. *)
Lemma says_yes_test (answer : option string) :
  match answer with
  | Some a => truthy_str a && bool_decide (lower a = "yes")
  | None => false
  end = true ↔ says_yes answer.
Proof.
  unfold says_yes. destruct answer as [a|].
  - rewrite andb_true_iff, bool_decide_eq_true. split.
    + intros [_ H]. by exists a.
    + intros (a' & [= <-] & H). split; [|done]. by destruct a.
  - split; [done|]. by intros (a & ? & _).
Qed.

Section Pipeline.
Context {World : Type}.
Variable read_memories :
  MemoryDb → option string → option nat → string →
  World → Result (option (list MemoryRow)) * World.
Variable model_validate : string → Result UserMemory.
Variable classifier_run :
  CallMode → MemoryClassifier → string → World → Result (option string) * World.
Variable manager_run :
  CallMode → MemoryManager → string → World → Result (option string) * World.

Local Abbreviation update_memory_in' :=
  (update_memory_in read_memories model_validate classifier_run manager_run).
Local Abbreviation write_memory_in' :=
  (write_memory_in read_memories model_validate manager_run).

(** The statements after the gate call the manager once and the classifier
    never; when they return, the flag is cleared. *)
Lemma write_memory_in_runs_manager mode input (st : @St World) :
  ∃ m extra,
    trace (write_memory_in' mode input st).2
      = trace st ++ ManagerCalled mode m input :: extra ∧
    quiet extra ∧
    (∀ response, (write_memory_in' mode input st).1 = Ok response →
       updating_memory (self (write_memory_in' mode input st).2) = false).
Proof.
  unfold write_memory_in, bind, update_self, get_self, call. simpl.
  match goal with
  | |- context [manager_run mode ?m input (world st)] => exists m
  end.
  destruct (manager_run _ _ _ _) as [[response|e] w1]; simpl.
  - match goal with
    | |- context [load_user_memories _ _ ?st1] =>
        destruct (load_user_memories_returns read_memories model_validate st1)
          as (ms & w2 & extra & -> & Hq)
    end.
    simpl. exists extra. split_and!; [by rewrite <- app_assoc|done|done].
  - exists []. split_and!; [done|by constructor|done].
Qed.

(** The state in which the classifier has been consulted: the flag is set
    and the classifier object holds the current memories. *)
Lemma should_update_memory_in_run mode input (mem : AgentMemory) (w : World) t :
  should_update_memory_in classifier_run mode input
    {| self := mem; world := w; trace := t |}
  = (match (classifier_run mode (classifier_consulted mem) input w).1 with
     | Ok answer =>
         Ok (match answer with
             | Some a => truthy_str a && bool_decide (lower a = "yes")
             | None => false
             end)
     | Raise e => Raise e
     end,
     {| self := set_classifier mem (Some (classifier_consulted mem));
        world := (classifier_run mode (classifier_consulted mem) input w).2;
        trace := t ++ [ClassifierCalled mode (classifier_consulted mem) input] |}).
Proof.
  unfold should_update_memory_in, bind, get_self, update_self, call, ret.
  simpl. unfold classifier_consulted.
  destruct mem as [? ? ? ? ? ? ? ? [c|] ? ?]; simpl;
    destruct (classifier_run _ _ _ _) as [[answer|e] w1]; done.
Qed.

(** The classifier declines: nothing is written, and the method returns the
    status string with the flag still set. *)
Lemma update_memory_in_declined mode input (mem : AgentMemory) d (w : World)
    answer :
  db mem = Some d →
  (classifier_run mode (classifier_consulted mem) input w).1 = Ok answer →
  ¬ says_yes answer →
  run_method (update_memory_in' mode (InputStr input) false) mem w
  = (Ok (Some "Memory update not required"),
     {| self := set_classifier (set_updating_memory mem true)
                  (Some (classifier_consulted mem));
        world := (classifier_run mode (classifier_consulted mem) input w).2;
        trace :=
          [ClassifierCalled mode (classifier_consulted mem) input;
           Logged "debug"
             (match mode with
              | Blocking => "Update memory: "
              | Suspendable => "Async update memory: "
              end +:+ "False");
           Logged "debug" "Memory update not required"] |}).
Proof.
  intros Hdb Hans Hno.
  unfold run_method, update_memory_in, bind, get_self, update_self. simpl.
  rewrite Hdb. simpl. rewrite should_update_memory_in_run.
  change (classifier_consulted (set_updating_memory mem true))
    with (classifier_consulted mem).
  rewrite Hans.
  rewrite <- says_yes_test in Hno. apply not_true_is_false in Hno.
  rewrite Hno. done.
Qed.

(** Not forced: the classifier is called first, and once. *)
Lemma update_memory_in_classifier_first mode input (mem : AgentMemory) d
    (w : World) :
  db mem = Some d →
  ∃ after,
    trace (run_method (update_memory_in' mode (InputStr input) false) mem w).2
      = ClassifierCalled mode (classifier_consulted mem) input :: after ∧
    calls_of is_classifier_call after = 0.
Proof.
  intros Hdb.
  unfold run_method, update_memory_in, bind, get_self, update_self. simpl.
  rewrite Hdb. simpl. rewrite should_update_memory_in_run.
  change (classifier_consulted (set_updating_memory mem true))
    with (classifier_consulted mem).
  destruct (classifier_run _ _ _ _) as [[answer|e] w1]; simpl;
    [|by exists []].
  destruct (match answer with Some _ => _ | None => _ end); simpl;
    [|by eexists].
  match goal with
  | |- context [write_memory_in _ _ _ mode input ?st1] =>
      destruct (write_memory_in_runs_manager mode input st1)
        as (m & extra & -> & Hq & _)
  end.
  simpl. eexists. split; [done|].
  rewrite !calls_of_cons. simpl. by apply quiet_calls.
Qed.

(** Forced: the classifier is not called and the manager is, once. *)
Lemma update_memory_in_forced mode input (mem : AgentMemory) d (w : World) :
  db mem = Some d →
  calls_of is_classifier_call
    (trace (run_method (update_memory_in' mode (InputStr input) true)
              mem w).2) = 0 ∧
  calls_of is_manager_call
    (trace (run_method (update_memory_in' mode (InputStr input) true)
              mem w).2) = 1.
Proof.
  intros Hdb.
  unfold run_method, update_memory_in, bind, get_self, update_self, ret.
  simpl. rewrite Hdb. simpl.
  match goal with
  | |- context [write_memory_in _ _ _ mode input ?st1] =>
      destruct (write_memory_in_runs_manager mode input st1)
        as (m & extra & -> & Hq & _)
  end.
  simpl. rewrite !calls_of_cons. simpl.
  destruct (quiet_calls _ Hq) as [-> ->]. done.
Qed.

(** No text, or no store: a diagnostic string, and no collaborator call. *)
Lemma update_memory_in_rejected mode input force (mem : AgentMemory)
    (w : World) :
  (∀ s, input ≠ InputStr s) ∨ db mem = None →
  (∃ diagnostic,
     (run_method (update_memory_in' mode input force) mem w).1
       = Ok (Some diagnostic)) ∧
  self (run_method (update_memory_in' mode input force) mem w).2 = mem ∧
  quiet (trace (run_method (update_memory_in' mode input force) mem w).2).
Proof.
  intros H. unfold run_method, update_memory_in.
  destruct input as [|s|repr]; simpl;
    try (split_and!; [by eexists|done|by constructor]).
  destruct H as [H|Hdb]; [by destruct (H s)|].
  unfold bind, get_self. simpl. rewrite Hdb. simpl.
  split_and!; [by eexists|done|by repeat constructor].
Qed.

(** When the manager has run and the method returns, the flag is cleared. *)
Lemma update_memory_in_written_clears_flag mode input force
    (mem : AgentMemory) d (w : World) response :
  db mem = Some d →
  (run_method (update_memory_in' mode (InputStr input) force) mem w).1
    = Ok response →
  0 < calls_of is_manager_call
        (trace (run_method (update_memory_in' mode (InputStr input) force)
                  mem w).2) →
  updating_memory
    (self (run_method (update_memory_in' mode (InputStr input) force)
             mem w).2) = false.
Proof.
  intros Hdb.
  unfold run_method, update_memory_in, bind, get_self, update_self, ret.
  simpl. rewrite Hdb. simpl.
  destruct force; simpl.
  - match goal with
    | |- context [write_memory_in _ _ _ mode input ?st1] =>
        destruct (write_memory_in_runs_manager mode input st1)
          as (m & extra & _ & _ & Hflag)
    end.
    intros Hok _. by eapply Hflag.
  - rewrite should_update_memory_in_run.
    destruct (classifier_run _ _ _ _) as [[answer|e] w1]; simpl; [|done].
    destruct (match answer with Some _ => _ | None => _ end); simpl.
    + match goal with
      | |- context [write_memory_in _ _ _ mode input ?st1] =>
          destruct (write_memory_in_runs_manager mode input st1)
            as (m & extra & _ & _ & Hflag)
      end.
      intros Hok _. by eapply Hflag.
    + intros _. rewrite !calls_of_cons. simpl. rewrite calls_of_nil. lia.
Qed.

(** C5.  [update_memory] on a text [s] with a store configured and
    [force=False] calls the classifier first, before any other effect, and
    exactly once; when the classifier's answer, lowercased, is not exactly
    ["yes"], the manager is not run, the store is not read, and the call
    returns ["Memory update not required"].  With [force=True] the
    classifier is not called and the manager is run (once).  When the input
    is not a text, or no store is configured, the call returns a diagnostic
    string, raises nothing, and calls neither the classifier nor the
    manager. *)
Theorem update_memory_gating (input : PyInput) (mem : AgentMemory) (w : World) :
  (∀ s d, input = InputStr s → db mem = Some d →
     (∃ after,
        trace (run_method
                 (update_memory read_memories model_validate classifier_run
                    manager_run (InputStr s) false) mem w).2
          = ClassifierCalled Blocking (classifier_consulted mem) s :: after ∧
        calls_of is_classifier_call after = 0) ∧
     calls_of is_classifier_call
       (trace (run_method
                 (update_memory read_memories model_validate classifier_run
                    manager_run (InputStr s) false) mem w).2) = 1 ∧
     (∀ answer,
        (classifier_run Blocking (classifier_consulted mem) s w).1
          = Ok answer →
        ¬ says_yes answer →
        (run_method
           (update_memory read_memories model_validate classifier_run
              manager_run (InputStr s) false) mem w).1
          = Ok (Some "Memory update not required") ∧
        calls_of is_manager_call
          (trace (run_method
                    (update_memory read_memories model_validate classifier_run
                       manager_run (InputStr s) false) mem w).2) = 0 ∧
        calls_of is_read_call
          (trace (run_method
                    (update_memory read_memories model_validate classifier_run
                       manager_run (InputStr s) false) mem w).2) = 0) ∧
     calls_of is_classifier_call
       (trace (run_method
                 (update_memory read_memories model_validate classifier_run
                    manager_run (InputStr s) true) mem w).2) = 0 ∧
     calls_of is_manager_call
       (trace (run_method
                 (update_memory read_memories model_validate classifier_run
                    manager_run (InputStr s) true) mem w).2) = 1) ∧
  ((∀ s, input ≠ InputStr s) ∨ db mem = None →
   ∀ force,
     (∃ diagnostic,
        (run_method
           (update_memory read_memories model_validate classifier_run
              manager_run input force) mem w).1 = Ok (Some diagnostic)) ∧
     calls_of is_classifier_call
       (trace (run_method
                 (update_memory read_memories model_validate classifier_run
                    manager_run input force) mem w).2) = 0 ∧
     calls_of is_manager_call
       (trace (run_method
                 (update_memory read_memories model_validate classifier_run
                    manager_run input force) mem w).2) = 0).
Proof.
  unfold update_memory. split.
  - intros s d -> Hdb.
    destruct (update_memory_in_classifier_first Blocking s mem d w Hdb)
      as (after & Htrace & Hafter).
    destruct (update_memory_in_forced Blocking s mem d w Hdb) as [Hc Hm].
    split_and!; [by exists after| |  |done|done].
    + rewrite Htrace, calls_of_cons. simpl. by rewrite Hafter.
    + intros answer Hans Hno.
      rewrite (update_memory_in_declined Blocking s mem d w answer) by done.
      done.
  - intros H force.
    destruct (update_memory_in_rejected Blocking input force mem w H)
      as (Hdiag & _ & Hq).
    split; [done|]. by apply quiet_calls.
Qed.

End Pipeline.

(** An instance of [update_memory_gating]: a classifier that answers
    ["no"], and an input that is not a text. *)
Lemma update_memory_gating_witness :
  (run_method
     (update_memory read_one_row validate_any (classifier_says "no")
        manager_ok (InputStr "I like jazz") false)
     (memory_with_db last_n) ()).1
    = Ok (Some "Memory update not required") ∧
  calls_of is_manager_call
    (trace (run_method
              (update_memory read_one_row validate_any (classifier_says "no")
                 manager_ok (InputStr "I like jazz") false)
              (memory_with_db last_n) ()).2) = 0 ∧
  calls_of is_classifier_call
    (trace (run_method
              (update_memory read_one_row validate_any (classifier_says "no")
                 manager_ok (InputOther "42") false)
              (memory_with_db last_n) ()).2) = 0.
Proof.
  destruct (update_memory_gating read_one_row validate_any
              (classifier_says "no") manager_ok (InputStr "I like jazz")
              (memory_with_db last_n) ()) as [Htext _].
  destruct (Htext "I like jazz" the_db eq_refl eq_refl)
    as (_ & _ & Hdeclined & _).
  destruct (Hdeclined (Some "no") eq_refl) as (Hret & Hmanager & _).
  { intros (a & [= <-] & Hyes). discriminate Hyes. }
  destruct (update_memory_gating read_one_row validate_any
              (classifier_says "no") manager_ok (InputOther "42")
              (memory_with_db last_n) ()) as [_ Hother].
  assert (∀ s, InputOther "42" ≠ InputStr s) as Hne
    by (intros s; discriminate).
  destruct (Hother (or_introl Hne) false) as (_ & Hclassifier & _).
  split_and!; assumption.
Defined.

(** C8 on the code: when the classifier declines, [update_memory] and
    [aupdate_memory] return ["Memory update not required"] with
    [updating_memory] still set. *)
Theorem update_memory_declined_leaves_flag_set :
  (run_method
     (update_memory read_one_row validate_any (classifier_says "no")
        manager_ok (InputStr "I like jazz") false)
     (memory_with_db last_n) ()).1
    = Ok (Some "Memory update not required") ∧
  updating_memory
    (self (run_method
             (update_memory read_one_row validate_any (classifier_says "no")
                manager_ok (InputStr "I like jazz") false)
             (memory_with_db last_n) ()).2) = true ∧
  (run_method
     (aupdate_memory read_one_row validate_any (classifier_says "no")
        manager_ok (InputStr "I like jazz") false)
     (memory_with_db last_n) ()).1
    = Ok (Some "Memory update not required") ∧
  updating_memory
    (self (run_method
             (aupdate_memory read_one_row validate_any (classifier_says "no")
                manager_ok (InputStr "I like jazz") false)
             (memory_with_db last_n) ()).2) = true.
Proof. split_and!; reflexivity. Qed.

End MemoryWrites.

(** ** Event streamer: error containment *)

Module Streaming.
Import Router RouterExamples.

Section Streamers.
Context {World Chunk : Type}.
Variable run_stream : RunCall → World → Result (Generator Chunk).
Variable chunk_to_json : Chunk → Result string.
Variable run_response_to_json : RunResponse → string.
Variable team_error_to_json : TeamRunResponseErrorEvent → string.

(** When every chunk serializes, the loop yields one event per chunk, in
    order, and ends as the iterator ends. *)
Lemma yield_chunks_all (cs : list Chunk) (js : list string)
    (end_of_run : option PyExc) :
  Forall2 (λ c j, chunk_to_json c = Ok j) cs js →
  yield_chunks chunk_to_json cs end_of_run = (YieldChunk <$> js, end_of_run).
Proof.
  induction 1 as [|c j cs js Hc _ IH]; simpl; [done|].
  by rewrite Hc, IH.
Qed.

(** Whatever happens, the loop yields the JSON of a prefix of the chunks,
    one event per chunk, in order, and nothing else. *)
Lemma yield_chunks_prefix (cs : list Chunk) (end_of_run : option PyExc) :
  ∃ n js,
    Forall2 (λ c j, chunk_to_json c = Ok j) (take n cs) js ∧
    (yield_chunks chunk_to_json cs end_of_run).1 = YieldChunk <$> js.
Proof.
  induction cs as [|c cs (n & js & Hjs & Hout)]; simpl.
  - exists 0, []. by split; [constructor|].
  - destruct (chunk_to_json c) as [j|e] eqn:Hc.
    + exists (S n), (j :: js). simpl.
      destruct (yield_chunks _ _ _) as [out raised]. simpl in *.
      split; [by constructor|by rewrite Hout].
    + exists 0, []. by split; [constructor|].
Qed.

(** The handler of the [try] adds at most one event, an error event, at the
    end, and the generator then returns. *)
Lemma except_yield_shape (tried : list Yielded * option PyExc)
    (error_json : PyExc → string) :
  finish (except_yield tried error_json) = None ∧
  emitted (except_yield tried error_json)
  = tried.1 ++ match tried.2 with
               | Some e => [YieldError (error_json e)]
               | None => []
               end.
Proof. destruct tried as [out [e|]]; simpl; by rewrite ?app_nil_r. Qed.

(** C2.  For every provider behind [run] and every serializer, the agent
    and team streamers end by returning: no exception leaves them.  When
    [run] returns an iterator that produces the chunks [cs], each of which
    serializes, and then raises [e], the streamer yields one event per
    chunk, in order, followed by exactly one error event, which carries
    [str(e)] (in a [RunResponse] with status error for an agent, in a
    [TeamRunResponseErrorEvent] for a team), and nothing after it.  When
    the call of [run] itself raises [e], that error event is all the
    streamer yields. *)
Theorem streamers_contain_errors (agent : Agent) (team : Team)
    (message session_id user_id : option string)
    (images : option (list Image)) (audio : option (list Audio))
    (videos : option (list Video)) (files : option (list FileMedia))
    (w : World) :
  let agent_out :=
    agent_chat_response_streamer run_stream chunk_to_json
      run_response_to_json agent message session_id user_id
      images audio videos w in
  let team_out :=
    team_chat_response_streamer run_stream chunk_to_json team_error_to_json
      team message session_id user_id images audio videos files w in
  let agent_error e :=
    YieldError (run_response_to_json
                  {| rr_content := Some (str_exc e);
                     rr_status := status_error |}) in
  let team_error e :=
    YieldError (team_error_to_json {| te_content := Some (str_exc e) |}) in
  finish agent_out = None ∧ finish team_out = None ∧
  (∀ cs e js,
     run_stream
       (AgentRun agent
          (streaming_args message session_id user_id images audio videos
             None)) w
       = Ok {| chunks := cs; ending := Some e |} →
     Forall2 (λ c j, chunk_to_json c = Ok j) cs js →
     emitted agent_out = (YieldChunk <$> js) ++ [agent_error e] ∧
     length (filter (λ y, is_error_event y = true) (emitted agent_out)) = 1) ∧
  (∀ cs e js,
     run_stream
       (TeamRun team
          (streaming_args message session_id user_id images audio videos
             files)) w
       = Ok {| chunks := cs; ending := Some e |} →
     Forall2 (λ c j, chunk_to_json c = Ok j) cs js →
     emitted team_out = (YieldChunk <$> js) ++ [team_error e] ∧
     length (filter (λ y, is_error_event y = true) (emitted team_out)) = 1) ∧
  (∀ e,
     run_stream
       (AgentRun agent
          (streaming_args message session_id user_id images audio videos
             None)) w = Raise e →
     emitted agent_out = [agent_error e]) ∧
  (∀ e,
     run_stream
       (TeamRun team
          (streaming_args message session_id user_id images audio videos
             files)) w = Raise e →
     emitted team_out = [team_error e]).
Proof.
  assert (∀ js : list string,
    filter (λ y, is_error_event y = true) (YieldChunk <$> js) = []) as Hnone.
  { induction js as [|j js IH]; [done|]. simpl.
    rewrite filter_cons, decide_False by done. exact IH. }
  simpl. unfold agent_chat_response_streamer, team_chat_response_streamer.
  split_and!.
  - apply except_yield_shape.
  - apply except_yield_shape.
  - intros cs e js Hrun Hjs. unfold try_stream. rewrite Hrun. simpl.
    rewrite (yield_chunks_all _ _ _ Hjs). simpl. split; [done|].
    by rewrite filter_app, Hnone.
  - intros cs e js Hrun Hjs. unfold try_stream. rewrite Hrun. simpl.
    rewrite (yield_chunks_all _ _ _ Hjs). simpl. split; [done|].
    by rewrite filter_app, Hnone.
  - intros e Hrun. unfold try_stream. by rewrite Hrun.
  - intros e Hrun. unfold try_stream. by rewrite Hrun.
Qed.

(** In every case, [serialization failures included], what a chat streamer
    yields is the JSON of a prefix of the chunks, one event per chunk, then
    at most one error event. *)
Lemma agent_streamer_shape (agent : Agent)
    (message session_id user_id : option string)
    (images : option (list Image)) (audio : option (list Audio))
    (videos : option (list Video)) (w : World) :
  ∃ js tail,
    emitted (agent_chat_response_streamer run_stream chunk_to_json
               run_response_to_json agent message session_id user_id
               images audio videos w)
    = (YieldChunk <$> js) ++ tail ∧
    (tail = [] ∨ ∃ json, tail = [YieldError json]).
Proof.
  unfold agent_chat_response_streamer.
  destruct (except_yield_shape
    (try_stream run_stream chunk_to_json
       (AgentRun agent
          (streaming_args message session_id user_id images audio videos
             None)) w)
    (λ e, run_response_to_json
            {| rr_content := Some (str_exc e);
               rr_status := status_error |})) as [_ ->].
  unfold try_stream. destruct (run_stream _ _) as [g|e]; simpl.
  - destruct (yield_chunks_prefix (chunks g) (ending g))
      as (n & js & _ & ->).
    exists js. eexists. split; [done|].
    destruct (yield_chunks _ _ _).2; [right; by eexists|by left].
  - exists []. eexists. split; [done|]. right. by eexists.
Qed.

End Streamers.

(** An instance of [streamers_contain_errors]: a provider that fails after
    two chunks. *)
Lemma streamers_contain_errors_witness :
  emitted (agent_chat_response_streamer run_stream_fails chunk_json
             run_response_json agent_a1 (Some "hi") (Some "s1") (Some "u1")
             None None None ())
  = [YieldChunk "c1"; YieldChunk "c2"; YieldError "error:provider down"] ∧
  emitted (team_chat_response_streamer run_stream_fails chunk_json
             team_error_json team_t1 (Some "hi") (Some "s1") (Some "u1")
             None None None None ())
  = [YieldChunk "c1"; YieldChunk "c2";
     YieldError "team-error:provider down"].
Proof.
  destruct (streamers_contain_errors run_stream_fails chunk_json
              run_response_json team_error_json agent_a1 team_t1
              (Some "hi") (Some "s1") (Some "u1") None None None None ())
    as (_ & _ & Hagent & Hteam & _).
  split.
  - apply (Hagent ["c1"; "c2"] (OtherException "provider down") ["c1"; "c2"]);
      [reflexivity|]. repeat constructor.
  - apply (Hteam ["c1"; "c2"] (OtherException "provider down") ["c1"; "c2"]);
      [reflexivity|]. repeat constructor.
Defined.

End Streaming.

(** ** Run dispatcher: the [/runs] handler *)

Module Dispatch.
Import Router RouterExamples.

Section Served.
Context {World : Type}.
Variable uuid4 : World → string * World.
Variable process_image : UploadFile → Result Image.
Variable process_audio : UploadFile → Result Audio.
Variable process_video : UploadFile → Result Video.
Variable process_document : UploadFile → Result (option FileMedia).
Variable read_document : string → UploadFile → Result string.
Variable load_documents : Knowledge → string → World → Result () * World.
Variable json_loads : string → option JsonValue.
Variable run_blocking : RunCall → World → Result string * World.

Local Abbreviation serve' :=
  (serve uuid4 process_image process_audio process_video process_document
     read_document load_documents json_loads run_blocking).

(** C3 on the code: a request that selects an agent, served by a router
    whose agent registry is empty or absent, is not answered with 404: the
    handler skips the lookup, falls off its end and returns [None], which
    is sent with status 200.  No run is invoked. *)
Theorem unknown_agent_without_registry_is_not_404 (w : World) :
  serve' registry_no_agents request_unknown_agent w
    = (Ok NoneBody, {| world := w; trace := [] |}) ∧
  http_status (serve' registry_no_agents request_unknown_agent w).1 = 200 ∧
  serve' registry_teams_only request_unknown_agent w
    = (Ok NoneBody, {| world := w; trace := [] |}) ∧
  http_status (serve' registry_teams_only request_unknown_agent w).1 = 200.
Proof. split_and!; reflexivity. Qed.

(** C4 on the code: a valid request for an existing agent, or team, with a
    message and no file part raises [UnboundLocalError] while the handler
    builds the arguments of the run, streaming or not: the request fails
    with an unhandled error and the run is never invoked. *)
Theorem no_attachment_request_raises (w : World) (streaming : bool) :
  serve' registry_one_agent (request_a1 streaming) w
    = (Raise (UnboundLocalError "base64_images"),
       {| world := w; trace := [MonitoringSet (Some "a1") false] |}) ∧
  unhandled (serve' registry_one_agent (request_a1 streaming) w).1 = true ∧
  http_status (serve' registry_one_agent (request_a1 streaming) w).1 = 500 ∧
  serve' registry_teams_only (request_t1 streaming) w
    = (Raise (UnboundLocalError "base64_images"),
       {| world := w; trace := [MonitoringSet (Some "t1") false] |}) ∧
  unhandled (serve' registry_teams_only (request_t1 streaming) w).1 = true.
Proof. destruct streaming; split_and!; reflexivity. Qed.

(** The handler's first statements, up to the selector checks. *)
Ltac start_handler req w :=
  unfold serve, run_agent_or_team_or_workflow, bind, call, emit, ret, raise;
  simpl;
  destruct (session_id req) as [[|? ?]|]; simpl;
  destruct (uuid4 w) as [? ?]; simpl.

Ltac no_run := repeat constructor.

(** More than one selector: 400, and no run. *)
Lemma more_than_one_selector (reg : Registry) (req : Request) (w : World) :
  truthy (req_agent_id req) && truthy (req_team_id req)
  || truthy (req_agent_id req) && truthy (req_workflow_id req)
  || truthy (req_team_id req) && truthy (req_workflow_id req) = true →
  (serve' reg req w).1
    = Raise (HTTPException 400
               "Only one of agent_id, team_id or workflow_id can be provided") ∧
  no_run_invoked (trace (serve' reg req w).2).
Proof.
  intros H. start_handler req w; rewrite H; simpl; split; try done; no_run.
Qed.

(** No selector: 400, and no run. *)
Lemma no_selector (reg : Registry) (req : Request) (w : World) :
  truthy (req_agent_id req) = false → truthy (req_team_id req) = false →
  truthy (req_workflow_id req) = false →
  (serve' reg req w).1
    = Raise (HTTPException 400
               "One of agent_id, team_id or workflow_id must be provided") ∧
  no_run_invoked (trace (serve' reg req w).2).
Proof.
  intros Ha Ht Hw.
  start_handler req w; rewrite Ha, Ht, Hw; simpl; split; try done; no_run.
Qed.

(** An agent identifier that names no agent of a non-empty registry: 404,
    and no run. *)
Lemma unknown_agent (reg : Registry) (req : Request) (w : World) :
  truthy (req_agent_id req) = true → truthy (req_team_id req) = false →
  truthy (req_workflow_id req) = false →
  truthy_list (agents reg) = true →
  find_by_id agent_id (req_agent_id req) (default [] (agents reg)) = None →
  (serve' reg req w).1 = Raise (HTTPException 404 "Agent not found") ∧
  no_run_invoked (trace (serve' reg req w).2).
Proof.
  intros Ha Ht Hw Hreg Hfind.
  start_handler req w; rewrite Ha, Ht, Hw, Hreg; simpl; rewrite Hfind;
    simpl; split; try done; no_run.
Qed.

(** An existing agent and an empty or absent message: 400, and no run. *)
Lemma agent_without_message (reg : Registry) (req : Request) (w : World)
    (agent : Agent) :
  truthy (req_agent_id req) = true → truthy (req_team_id req) = false →
  truthy (req_workflow_id req) = false →
  truthy_list (agents reg) = true →
  find_by_id agent_id (req_agent_id req) (default [] (agents reg))
    = Some agent →
  truthy (message req) = false →
  (serve' reg req w).1 = Raise (HTTPException 400 "Message is required") ∧
  no_run_invoked (trace (serve' reg req w).2).
Proof.
  intros Ha Ht Hw Hreg Hfind Hm.
  start_handler req w; rewrite Ha, Ht, Hw, Hreg; simpl; rewrite Hfind;
    simpl; rewrite Hm; simpl; split; try done; no_run.
Qed.

(** Likewise for a team. *)
Lemma unknown_team (reg : Registry) (req : Request) (w : World) :
  truthy (req_agent_id req) = false → truthy (req_team_id req) = true →
  truthy (req_workflow_id req) = false →
  truthy_list (teams reg) = true →
  find_by_id team_id (req_team_id req) (default [] (teams reg)) = None →
  (serve' reg req w).1 = Raise (HTTPException 404 "Team not found") ∧
  no_run_invoked (trace (serve' reg req w).2).
Proof.
  intros Ha Ht Hw Hreg Hfind.
  start_handler req w; rewrite Ha, Ht, Hw, Hreg; simpl; rewrite Hfind;
    simpl; split; try done; no_run.
Qed.

Lemma team_without_message (reg : Registry) (req : Request) (w : World)
    (team : Team) :
  truthy (req_agent_id req) = false → truthy (req_team_id req) = true →
  truthy (req_workflow_id req) = false →
  truthy_list (teams reg) = true →
  find_by_id team_id (req_team_id req) (default [] (teams reg)) = Some team →
  truthy (message req) = false →
  (serve' reg req w).1 = Raise (HTTPException 400 "Message is required") ∧
  no_run_invoked (trace (serve' reg req w).2).
Proof.
  intros Ha Ht Hw Hreg Hfind Hm.
  start_handler req w; rewrite Ha, Ht, Hw, Hreg; simpl; rewrite Hfind;
    simpl; rewrite Hm; simpl; split; try done; no_run.
Qed.

(** Likewise for a workflow, whose required input is [workflow_input]. *)
Lemma unknown_workflow (reg : Registry) (req : Request) (w : World) :
  truthy (req_agent_id req) = false → truthy (req_team_id req) = false →
  truthy (req_workflow_id req) = true →
  truthy_list (workflows reg) = true →
  find_by_id workflow_id (req_workflow_id req) (default [] (workflows reg))
    = None →
  (serve' reg req w).1 = Raise (HTTPException 404 "Workflow not found") ∧
  no_run_invoked (trace (serve' reg req w).2).
Proof.
  intros Ha Ht Hw Hreg Hfind.
  start_handler req w; rewrite Ha, Ht, Hw, Hreg; simpl; rewrite Hfind;
    simpl; split; try done; no_run.
Qed.

Lemma workflow_without_input (reg : Registry) (req : Request) (w : World)
    (workflow : Workflow) :
  truthy (req_agent_id req) = false → truthy (req_team_id req) = false →
  truthy (req_workflow_id req) = true →
  truthy_list (workflows reg) = true →
  find_by_id workflow_id (req_workflow_id req) (default [] (workflows reg))
    = Some workflow →
  truthy (workflow_input req) = false →
  (serve' reg req w).1
    = Raise (HTTPException 400 "Workflow input is required") ∧
  no_run_invoked (trace (serve' reg req w).2).
Proof.
  intros Ha Ht Hw Hreg Hfind Hin.
  start_handler req w; rewrite Ha, Ht, Hw, Hreg; simpl; rewrite Hfind;
    simpl; destruct (workflow_input req) as [[|? ?]|]; try done;
    simpl; split; try done; no_run.
Qed.

(** The missed case behind C3, in general: an agent is selected and the
    agent registry is empty or absent.  The handler returns [None]. *)
Lemma agent_selected_without_registry (reg : Registry) (req : Request)
    (w : World) :
  truthy (req_agent_id req) = true → truthy (req_team_id req) = false →
  truthy (req_workflow_id req) = false →
  truthy_list (agents reg) = false →
  (serve' reg req w).1 = Ok NoneBody ∧
  no_run_invoked (trace (serve' reg req w).2).
Proof.
  intros Ha Ht Hw Hreg.
  start_handler req w; rewrite Ha, Ht, Hw, Hreg; simpl;
    destruct (truthy_list (files req)); simpl;
    destruct (stream req); simpl; split; try done; no_run.
Qed.

(** The defect behind C4, in general: an existing agent, a message, and no
    file part.  The locals that only [if files:] assigns are read unbound. *)
Lemma agent_without_files (reg : Registry) (req : Request) (w : World)
    (agent : Agent) :
  truthy (req_agent_id req) = true → truthy (req_team_id req) = false →
  truthy (req_workflow_id req) = false →
  truthy_list (agents reg) = true →
  find_by_id agent_id (req_agent_id req) (default [] (agents reg))
    = Some agent →
  truthy (message req) = true →
  truthy_list (files req) = false →
  (serve' reg req w).1 = Raise (UnboundLocalError "base64_images") ∧
  no_run_invoked (trace (serve' reg req w).2).
Proof.
  intros Ha Ht Hw Hreg Hfind Hm Hf.
  start_handler req w; rewrite Ha, Ht, Hw, Hreg; simpl; rewrite Hfind;
    simpl; rewrite Hm; simpl; rewrite Hf; simpl;
    destruct (stream req); simpl; split; try done; no_run.
Qed.

End Served.

End Dispatch.

(** ** Run history: how insertions compose *)

Module RunHistoryMore.
Import Memory Spec Examples RunHistory.

Lemma set_runs_twice (s : AgentMemory) a b :
  set_runs (set_runs s a) b = set_runs s b.
Proof. by destruct s. Qed.

Lemma filter_insert_outside {A} (P : A → Prop) `{!∀ x, Decision (P x)}
    (l : list A) i x y :
  l !! i = Some x → ¬ P x → ¬ P y → filter P (<[i:=y]> l) = filter P l.
Proof.
  revert i. induction l as [|a l IH]; intros [|i] Hi Hx Hy; simplify_eq/=;
    try done.
  - by rewrite !filter_cons, !decide_False by done.
  - rewrite !filter_cons. by rewrite (IH i).
Qed.

(** Adding two runs with the same identifier, one after the other, leaves
    the memory as adding the second alone does: the later run wins, whatever
    the runs list held before. *)
Theorem add_run_last_wins (self : AgentMemory) (first second : AgentRun) :
  run_key first = run_key second →
  add_run (add_run self first) second = add_run self second.
Proof.
  intros Hkey. unfold add_run at 2 3. rewrite Hkey.
  destruct (run_key second) as [rid|] eqn:Hk; [|by unfold add_run; rewrite Hk].
  pose proof (run_key_truthy _ _ Hk) as Ht.
  assert (same_run_id rid first) as Hfirst by by apply same_run_id_key.
  destruct (list_find (same_run_id rid) (runs self)) as [[i old]|] eqn:Hf.
  - unfold add_run. rewrite Hk. simpl.
    assert (list_find (same_run_id rid) (<[i:=first]> (runs self))
            = Some (i, first)) as ->.
    { apply list_find_Some in Hf as (Hi & _ & Hleast).
      apply list_find_Some. split_and!; [|done|].
      - apply list_lookup_insert_eq. by eapply lookup_lt_Some.
      - intros j y Hj Hlt. rewrite list_lookup_insert_ne in Hj by lia.
        by apply (Hleast j). }
    by rewrite set_runs_twice, list_insert_insert_eq.
  - unfold add_run. rewrite Hk. simpl.
    rewrite (list_find_app_r _ _ _ Hf). simpl.
    rewrite decide_True by done. simpl.
    rewrite set_runs_twice. f_equal.
    by rewrite (insert_app_r_alt _ _ _ _ (Nat.le_refl _)), Nat.sub_diag.
Qed.

(** An instance of [add_run_last_wins]. *)
Lemma add_run_last_wins_witness :
  add_run (add_run memory_y_x run_x2) run_x3 = add_run memory_y_x run_x3 ∧
  runs (add_run (add_run AgentMemory_default run_x2) run_x3) = [run_x3].
Proof.
  split.
  - apply (add_run_last_wins memory_y_x run_x2 run_x3). reflexivity.
  - rewrite (add_run_last_wins AgentMemory_default run_x2 run_x3); reflexivity.
Defined.

(** [add_run] touches no entry whose identifier differs from the new run's
    (entries without identifier included): they stay, in order; and the
    list never shrinks and grows by at most one entry. *)
Theorem add_run_keeps_other_entries (self : AgentMemory)
    (agent_run : AgentRun) :
  filter (λ r, run_key r ≠ run_key agent_run) (runs (add_run self agent_run))
    = filter (λ r, run_key r ≠ run_key agent_run) (runs self) ∧
  (length (runs self) ≤ length (runs (add_run self agent_run)))%nat ∧
  (length (runs (add_run self agent_run)) ≤ S (length (runs self)))%nat.
Proof.
  unfold add_run. destruct (run_key agent_run) as [rid|] eqn:Hk;
    [|by split_and!; [done|lia..]].
  pose proof (run_key_truthy _ _ Hk) as Ht.
  destruct (list_find _ _) as [[i old]|] eqn:Hf; simpl.
  - apply list_find_Some in Hf as (Hi & Hs & _).
    apply same_run_id_key in Hs; [|done].
    split_and!; [|rewrite length_insert; lia..].
    apply (filter_insert_outside _ _ _ old); [done| |]; intros H; by apply H.
  - split_and!; [|rewrite length_app; simpl; lia..].
    rewrite filter_app, filter_cons, decide_False by (intros H; by apply H).
    by rewrite filter_nil, app_nil_r.
Qed.

End RunHistoryMore.

(** ** Message history: repeated system messages *)

Module MessageHistoryMore.
Import Memory Spec Examples MemoryQueries MessageHistory RunHistoryMore.

Lemma set_messages_twice (s : AgentMemory) a b :
  set_messages (set_messages s a) b = set_messages s b.
Proof. by destruct s. Qed.

Lemma count_insert_inside {A} (P : A → Prop) `{!∀ x, Decision (P x)}
    (l : list A) i x y :
  l !! i = Some x → P x → P y →
  length (filter P (<[i:=y]> l)) = length (filter P l).
Proof.
  revert i. induction l as [|a l IH]; intros [|i] Hi Hx Hy; simplify_eq/=;
    try done.
  - by rewrite !filter_cons, !decide_True by done.
  - rewrite !filter_cons. destruct (decide (P a)); simpl; by rewrite (IH i).
Qed.

Lemma count_role_found r (msgs : list Message) i m :
  msgs !! i = Some m → role m = r → (1 ≤ count_role r msgs)%nat.
Proof.
  revert i. induction msgs as [|a msgs IH]; intros [|i] Hi Hr; simplify_eq/=.
  - unfold count_role. rewrite filter_cons, decide_True by done. simpl. lia.
  - unfold count_role. rewrite filter_cons.
    specialize (IH i Hi eq_refl). unfold count_role in IH.
    destruct (decide _); simpl; lia.
Qed.

Lemma count_role_none r (msgs : list Message) :
  list_find (λ m, role m = r) msgs = None → count_role r msgs = 0.
Proof.
  rewrite list_find_None. unfold count_role.
  induction 1 as [|a msgs Ha _ IH]; [done|].
  by rewrite filter_cons, decide_False.
Qed.

(** Adding the same system message a second time changes nothing, provided
    the message carries the system role it is added under. *)
Theorem add_system_message_idempotent (self : AgentMemory) (message : Message)
    (system_message_role : string) :
  role message = system_message_role →
  add_system_message
    (add_system_message self message system_message_role)
    message system_message_role
  = add_system_message self message system_message_role.
Proof.
  intros Hrole.
  assert (∀ s : AgentMemory, messages s ≠ [] →
            list_find (λ m, role m = system_message_role) (messages s)
              = Some (0, message) ∨
            (∃ i, list_find (λ m, role m = system_message_role) (messages s)
                    = Some (i, message)) →
            add_system_message s message system_message_role = s) as Hsame.
  { intros s Hne Hfind. unfold add_system_message.
    rewrite (nonempty_length _ Hne).
    destruct Hfind as [->|[i ->]];
      by rewrite bool_decide_eq_false_2 by (by intros ?). }
  unfold add_system_message at 2 3.
  destruct (bool_decide (length (messages self) = 0)) eqn:Hlen.
  - apply Hsame; [by destruct (messages self)|]. left.
    apply bool_decide_eq_true in Hlen. destruct (messages self); [|done].
    simpl. by rewrite decide_True.
  - destruct (list_find _ (messages self)) as [[i existing]|] eqn:Hf.
    + destruct (bool_decide (content existing ≠ content message)
                && update_system_message_on_change self) eqn:Hupd.
      * apply list_find_Some in Hf as (Hi & _ & Hleast).
        apply Hsame; simpl.
        { intros Hnil. apply (f_equal length) in Hnil.
          rewrite length_insert in Hnil.
          apply lookup_lt_Some in Hi. simpl in Hnil. lia. }
        right. exists i. apply list_find_Some. split_and!; [|done|].
        -- apply list_lookup_insert_eq. by eapply lookup_lt_Some.
        -- intros j y Hj Hlt. rewrite list_lookup_insert_ne in Hj by lia.
           by apply (Hleast j).
      * unfold add_system_message. by rewrite Hlen, Hf, Hupd.
    + apply Hsame; [done|]. left. simpl. by rewrite decide_True.
Qed.

(** An instance of [add_system_message_idempotent]. *)
Lemma add_system_message_idempotent_witness :
  add_system_message
    (add_system_message (memory_with_history true) system_new "system")
    system_new "system"
  = add_system_message (memory_with_history true) system_new "system".
Proof.
  apply (add_system_message_idempotent (memory_with_history true) system_new
           "system").
  reflexivity.
Defined.

(** A system message that carries the system role never multiplies: after
    [add_system_message] the history holds as many messages of that role as
    before, or one if it held none; and the messages of every other role
    are the same, in the same order. *)
Theorem add_system_message_keeps_conversation (self : AgentMemory)
    (message : Message) (system_message_role : string) :
  role message = system_message_role →
  count_role system_message_role
    (messages (add_system_message self message system_message_role))
  = Nat.max 1 (count_role system_message_role (messages self)) ∧
  filter (λ m, role m ≠ system_message_role)
    (messages (add_system_message self message system_message_role))
  = filter (λ m, role m ≠ system_message_role) (messages self).
Proof.
  intros Hrole. unfold add_system_message.
  destruct (bool_decide (length (messages self) = 0)) eqn:Hlen.
  - apply bool_decide_eq_true in Hlen.
    destruct (messages self) as [|? ?] eqn:Hm; [|done]. simpl.
    unfold count_role. rewrite !filter_cons, decide_True by done.
    by rewrite decide_False by (intros H; by apply H).
  - destruct (list_find _ (messages self)) as [[i existing]|] eqn:Hf.
    + apply list_find_Some in Hf as (Hi & Hr & _).
      pose proof (count_role_found _ _ _ _ Hi Hr) as Hone.
      destruct (bool_decide (content existing ≠ content message)
                && update_system_message_on_change self); simpl.
      * split.
        -- unfold count_role in *.
           rewrite (count_insert_inside _ _ _ existing) by done. lia.
        -- apply (filter_insert_outside _ _ _ existing); [done| |];
             intros H; by apply H.
      * split; [lia|done].
    + simpl. rewrite (count_role_none _ _ Hf) in *. split.
      * unfold count_role. rewrite filter_cons, decide_True by done. simpl.
        apply count_role_none in Hf. unfold count_role in Hf.
        by rewrite Hf.
      * by rewrite filter_cons, decide_False by (intros H; by apply H).
Qed.

(** An instance of [add_system_message_keeps_conversation]. *)
Lemma add_system_message_keeps_conversation_witness :
  count_role "system"
    (messages (add_system_message (memory_with_history true) system_new
                 "system")) = 1 ∧
  filter (λ m, role m ≠ "system")
    (messages (add_system_message (memory_with_history true) system_new
                 "system"))
  = [msg "user" "hi"].
Proof.
  destruct (add_system_message_keeps_conversation (memory_with_history true)
              system_new "system" eq_refl) as [Hcount Hrest].
  split.
  - rewrite Hcount. reflexivity.
  - rewrite Hrest. reflexivity.
Defined.

End MessageHistoryMore.

(** ** History queries: [get_messages_from_last_n_runs], [get_tool_calls] *)

Module HistoryQueries.
Import Memory Spec Examples MemoryQueries RunHistory.

Lemma kept_test skip_role (m : Message) :
  (if truthy_role skip_role && bool_decide (Some (role m) = skip_role)
   then false else negb (from_history m)) = true ↔ kept skip_role m.
Proof.
  unfold kept. destruct (truthy_role skip_role); simpl.
  - case_bool_decide as Hr; destruct (from_history m); simpl;
      split; try done; try (by intros [? ?]).
    + intros [_ H]. by destruct H.
    + intros _. split; [done|]. by intros [_ ?].
  - destruct (from_history m); simpl; split; try done; try (by intros [? ?]).
    intros _. split; [done|]. by intros [? _].
Qed.

(** The inner loop appends the kept messages, in order. *)
Lemma messages_from_run_filter skip_role msgs acc :
  messages_from_run skip_role msgs acc = acc ++ filter (kept skip_role) msgs.
Proof.
  revert acc. induction msgs as [|m msgs IH]; intros acc; simpl.
  - by rewrite app_nil_r.
  - rewrite filter_cons. pose proof (kept_test skip_role m) as Hk.
    destruct (truthy_role skip_role && _); simpl in *.
    + rewrite decide_False by (intros ?%Hk; done). apply IH.
    + destruct (from_history m); simpl in *.
      * rewrite decide_False by (intros ?%Hk; done). apply IH.
      * rewrite decide_True by (by apply Hk). rewrite IH.
        by rewrite <- app_assoc.
Qed.

Lemma messages_from_runs_step_filter skip_role acc run :
  messages_from_runs_step skip_role acc run
  = acc ++ filter (kept skip_role) (run_messages run).
Proof.
  unfold messages_from_runs_step, run_messages.
  destruct (response run) as [r|]; simpl; [|by rewrite app_nil_r].
  destruct (rr_messages r) as [[|m msgs]|]; simpl;
    [by rewrite app_nil_r| |by rewrite app_nil_r].
  apply (messages_from_run_filter skip_role (m :: msgs)).
Qed.

Lemma foldl_messages_from_runs skip_role acc rs :
  foldl (messages_from_runs_step skip_role) acc rs
  = acc ++ (rs ≫= λ run, filter (kept skip_role) (run_messages run)).
Proof.
  revert acc. induction rs as [|run rs IH]; intros acc; simpl.
  - by rewrite app_nil_r.
  - by rewrite IH, messages_from_runs_step_filter, <- app_assoc.
Qed.

(** What the method returns for the runs it processes. *)
Lemma get_messages_runs_to_process self last_n skip_role :
  get_messages_from_last_n_runs self last_n skip_role
  = match last_n with
    | None => runs self
    | Some n => slice_from (- n) (runs self)
    end ≫= λ run, filter (kept skip_role) (run_messages run).
Proof.
  unfold get_messages_from_last_n_runs.
  destruct (runs self) as [|r rs] eqn:Hr.
  - destruct last_n as [n|]; [|done]. unfold slice_from. by rewrite drop_nil.
  - by rewrite foldl_messages_from_runs.
Qed.

(** With no [last_n], the method returns the kept messages of all runs, in
    run order and then in the order of each run's response: those that are
    not tagged [from_history] and do not have the role to skip.  A run
    without response, or whose response has no messages, gives nothing. *)
Theorem get_messages_all_runs (self : AgentMemory)
    (skip_role : option string) :
  get_messages_from_last_n_runs self None skip_role
  = runs self ≫= λ run, filter (kept skip_role) (run_messages run).
Proof. apply get_messages_runs_to_process. Qed.

(** History exclusion: whatever [last_n] and [skip_role] are, a message that
    the method returns is not tagged [from_history], does not have the
    (non-empty) role to skip, and is a message of the response of one of the
    runs in memory. *)
Theorem get_messages_excludes_history (self : AgentMemory)
    (last_n : option Z) (skip_role : option string) (m : Message) :
  m ∈ get_messages_from_last_n_runs self last_n skip_role →
  from_history m = false ∧
  (∀ r, skip_role = Some r → r ≠ "" → role m ≠ r) ∧
  ∃ run, run ∈ runs self ∧ m ∈ run_messages run.
Proof.
  rewrite get_messages_runs_to_process.
  intros (run & Hm & Hrun)%list_elem_of_bind.
  apply list_elem_of_filter in Hm as [[Hh Hskip] Hm].
  split_and!; [done| |].
  - intros r -> Hne Hr. apply Hskip. split; [|by rewrite Hr].
    simpl. by destruct r.
  - exists run. split; [|done].
    destruct last_n as [n|]; [|done].
    unfold slice_from in Hrun. by eapply subseteq_drop.
Qed.

(** An instance of [get_messages_excludes_history]. *)
Lemma get_messages_excludes_history_witness :
  get_messages_from_last_n_runs memory_two_runs (Some 1%Z) (Some "system")
    = [msg "user" "more"; msg "assistant" "sure"] ∧
  from_history (msg "user" "more") = false.
Proof.
  split; [reflexivity|].
  apply (get_messages_excludes_history memory_two_runs (Some 1%Z)
           (Some "system") (msg "user" "more")).
  apply list_elem_of_here.
Defined.

Lemma drop_min {A} (l : list A) n :
  drop (Nat.min n (length l)) l = drop n l.
Proof.
  destruct (decide (n ≤ length l)%nat) as [Hle|Hgt].
  - by rewrite Nat.min_l.
  - rewrite Nat.min_r by lia. by rewrite !drop_ge by lia.
Qed.

(** The window [last_n]: a positive [n] selects the last [n] runs (all of
    them when there are fewer); [0] selects all runs, like no [last_n] at
    all; a negative [n] skips the first [-n] runs. *)
Theorem get_messages_window (self : AgentMemory) (n : Z)
    (skip_role : option string) :
  ((0 < n)%Z →
     get_messages_from_last_n_runs self (Some n) skip_role
     = get_messages_from_last_n_runs
         (set_runs self
            (drop (length (runs self) - Z.to_nat n) (runs self)))
         None skip_role) ∧
  (n = 0%Z →
     get_messages_from_last_n_runs self (Some n) skip_role
     = get_messages_from_last_n_runs self None skip_role) ∧
  ((n < 0)%Z →
     get_messages_from_last_n_runs self (Some n) skip_role
     = get_messages_from_last_n_runs
         (set_runs self (drop (Z.to_nat (- n)) (runs self)))
         None skip_role).
Proof.
  rewrite !get_messages_runs_to_process. simpl. unfold slice_from.
  split_and!.
  - intros Hn. destruct (Z.ltb_spec (- n) 0); [|lia]. do 2 f_equal. lia.
  - intros ->. change (- 0)%Z with 0%Z.
    destruct (Z.ltb_spec 0 0); [lia|]. by rewrite Z.min_l by lia.
  - intros Hn. destruct (Z.ltb_spec (- n) 0); [lia|].
    rewrite <- (drop_min _ (Z.to_nat (- n))). do 2 f_equal. lia.
Qed.

(** An instance of [get_messages_window]. *)
Lemma get_messages_window_witness :
  get_messages_from_last_n_runs memory_two_runs (Some 1%Z) None
    = [msg "user" "more"; msg "assistant" "sure"] ∧
  get_messages_from_last_n_runs memory_two_runs (Some 0%Z) None
    = get_messages_from_last_n_runs memory_two_runs None None ∧
  get_messages_from_last_n_runs memory_two_runs (Some (-1)%Z) None
    = [msg "user" "more"; msg "assistant" "sure"].
Proof.
  destruct (get_messages_window memory_two_runs 1 None) as (Hpos & _ & _).
  destruct (get_messages_window memory_two_runs 0 None) as (_ & Hzero & _).
  destruct (get_messages_window memory_two_runs (-1) None) as (_ & _ & Hneg).
  split_and!.
  - rewrite Hpos by lia. reflexivity.
  - apply Hzero. reflexivity.
  - rewrite Hneg by lia. reflexivity.
Defined.

End HistoryQueries.

(** ** Tool calls: [get_tool_calls] *)

Module ToolCalls.
Import Memory Spec Examples MemoryQueries RunHistory HistoryQueries.

Section Limit.
Variable num_calls : option Z.

(** Without a limit in force, the two loops collect everything. *)
Lemma collect_tool_calls_unlimited calls collected :
  (∀ l, limit_reached num_calls l = false) →
  collect_tool_calls num_calls calls collected = (collected ++ calls, false).
Proof.
  intros Hlim. revert collected.
  induction calls as [|c calls IH]; intros collected; simpl.
  - by rewrite app_nil_r.
  - by rewrite Hlim, IH, <- app_assoc.
Qed.

Lemma scan_tool_calls_unlimited msgs collected :
  (∀ l, limit_reached num_calls l = false) →
  scan_tool_calls num_calls msgs collected
  = collected ++ (msgs ≫= message_tool_calls).
Proof.
  intros Hlim. revert collected.
  induction msgs as [|m msgs IH]; intros collected; simpl.
  - by rewrite app_nil_r.
  - unfold message_tool_calls at 1.
    destruct (tool_calls m) as [[|c calls]|]; simpl; [apply IH| |apply IH].
    rewrite Hlim.
    rewrite (collect_tool_calls_unlimited calls (collected ++ [c]) Hlim).
    rewrite IH, <- !app_assoc. done.
Qed.

(** With a limit of [k] calls in force, the inner loop stops as soon as [k]
    calls are collected. *)
Lemma collect_tool_calls_limited (k : nat) calls collected :
  (∀ l, l ≠ [] → limit_reached num_calls l = bool_decide (k ≤ length l)%nat) →
  (length collected < k)%nat →
  collect_tool_calls num_calls calls collected
  = if decide (k ≤ length collected + length calls)%nat
    then (take k (collected ++ calls), true)
    else (collected ++ calls, false).
Proof.
  intros Hlim. revert collected.
  induction calls as [|c calls IH]; intros collected Hlt; simpl.
  - rewrite decide_False by lia. by rewrite app_nil_r.
  - rewrite Hlim by (by destruct collected).
    rewrite length_app. simpl. case_bool_decide as Hk.
    + rewrite decide_True by lia.
      replace (collected ++ c :: calls) with ((collected ++ [c]) ++ calls)
        by (by rewrite <- app_assoc).
      assert (k = length (collected ++ [c])) as Hlen
        by (rewrite length_app; simpl; lia).
      by rewrite (take_app_length' _ _ _ Hlen).
    + rewrite IH by (rewrite length_app; simpl; lia).
      rewrite length_app. simpl. rewrite <- !app_assoc. simpl.
      destruct (decide (k ≤ length collected + 1 + length calls)%nat);
        [rewrite decide_True by lia|rewrite decide_False by lia]; done.
Qed.

Lemma scan_tool_calls_limited (k : nat) msgs collected :
  (∀ l, l ≠ [] → limit_reached num_calls l = bool_decide (k ≤ length l)%nat) →
  (length collected < k)%nat →
  scan_tool_calls num_calls msgs collected
  = take k (collected ++ (msgs ≫= message_tool_calls)).
Proof.
  intros Hlim. revert collected.
  induction msgs as [|m msgs IH]; intros collected Hlt; simpl.
  - rewrite app_nil_r. by rewrite take_ge by lia.
  - unfold message_tool_calls at 1.
    destruct (tool_calls m) as [[|c calls]|] eqn:Hm; simpl;
      [by apply IH| |by apply IH].
    pose proof (collect_tool_calls_limited k (c :: calls) collected Hlim Hlt)
      as Hcollect. simpl in Hcollect. rewrite Hcollect. clear Hcollect.
    destruct (decide _) as [Hk|Hk].
    + match goal with
      | |- _ = take k (collected ++ c :: calls ++ ?rest) =>
          replace (collected ++ c :: calls ++ rest)
            with ((collected ++ c :: calls) ++ rest)
            by (by rewrite <- app_assoc)
      end.
      rewrite (take_app_le (collected ++ c :: calls)); [done|].
      rewrite length_app. simpl. lia.
    + rewrite IH by (rewrite length_app; simpl; lia).
      by rewrite <- app_assoc.
Qed.

End Limit.

(** Without [num_calls], and also with [num_calls=0], [get_tool_calls]
    returns every tool call of the history: newest message first, and the
    calls of one message in their own order. *)
Theorem get_tool_calls_without_limit (self : AgentMemory) :
  get_tool_calls self None = all_tool_calls (messages self) ∧
  get_tool_calls self (Some 0%Z) = all_tool_calls (messages self).
Proof.
  unfold get_tool_calls, all_tool_calls.
  split; by rewrite scan_tool_calls_unlimited.
Qed.

(** With [num_calls = n] other than [0], [get_tool_calls] returns the first
    [n] of those calls (all of them when there are fewer), and for a
    negative [n] just the first one. *)
Theorem get_tool_calls_limit (self : AgentMemory) (n : Z) :
  n ≠ 0%Z →
  get_tool_calls self (Some n)
    = take (Z.to_nat (Z.max 1 n)) (all_tool_calls (messages self)) ∧
  (length (get_tool_calls self (Some n)) ≤ Z.to_nat (Z.max 1 n))%nat.
Proof.
  intros Hn.
  assert (get_tool_calls self (Some n)
          = take (Z.to_nat (Z.max 1 n)) (all_tool_calls (messages self)))
    as ->.
  { unfold get_tool_calls, all_tool_calls.
    rewrite (scan_tool_calls_limited _ (Z.to_nat (Z.max 1 n))); [done| |simpl; lia].
    intros l Hl. unfold limit_reached.
    assert (1 ≤ length l)%nat by (destruct l; [done|simpl; lia]).
    destruct (Z.eqb_spec n 0); [done|]. simpl.
    case_bool_decide; [apply Z.leb_le|apply Z.leb_gt]; lia. }
  split; [done|]. rewrite length_take. lia.
Qed.

(** An instance of [get_tool_calls_limit]. *)
Lemma get_tool_calls_limit_witness :
  get_tool_calls memory_with_tools (Some 2%Z) = ["summarize"; "search"] ∧
  get_tool_calls memory_with_tools (Some (-3)%Z) = ["summarize"].
Proof.
  destruct (get_tool_calls_limit memory_with_tools 2) as [Htwo _]; [lia|].
  destruct (get_tool_calls_limit memory_with_tools (-3)) as [Hneg _]; [lia|].
  split.
  - rewrite Htwo. reflexivity.
  - rewrite Hneg. reflexivity.
Defined.

(** The messages of the last run after [add_run] are those of the run just
    added, when its identifier was not in memory before. *)
Theorem get_messages_after_add_run (self : AgentMemory)
    (agent_run : AgentRun) (rid : string) (skip_role : option string) :
  run_key agent_run = Some rid → rid ∉ run_keys (runs self) →
  get_messages_from_last_n_runs (add_run self agent_run) (Some 1%Z) skip_role
  = filter (kept skip_role) (run_messages agent_run).
Proof.
  intros Hk Hnew. rewrite get_messages_runs_to_process.
  rewrite (add_run_not_found _ _ _ Hk)
    by (apply not_in_run_keys_find; [by eapply run_key_truthy|done]).
  unfold slice_from. rewrite length_app. simpl.
  replace (Z.to_nat _) with (length (runs self)) by lia.
  rewrite drop_app_length. simpl. by rewrite app_nil_r.
Qed.

(** An instance of [get_messages_after_add_run]. *)
Lemma get_messages_after_add_run_witness :
  get_messages_from_last_n_runs (add_run memory_two_runs run_3)
    (Some 1%Z) (Some "user")
  = [msg "assistant" "goodbye"].
Proof.
  rewrite (get_messages_after_add_run memory_two_runs run_3
             "r3" (Some "user")); [reflexivity..|].
  unfold run_keys. simpl. intros H.
  apply elem_of_cons in H as [H|H]; [discriminate|].
  apply list_elem_of_singleton in H. discriminate.
Defined.

End ToolCalls.

(** ** Long-term memories: what a load leaves in [memories] *)

Module UserMemoriesMore.
Import Memory Spec Examples MemoryQueries UserMemories MemoryWrites.

Section Store.
Context {World : Type}.
Variable read_memories :
  MemoryDb → option string → option nat → string →
  World → Result (option (list MemoryRow)) * World.
Variable model_validate : string → Result UserMemory.

(** The loop over the rows appends the rows that validate and only logs the
    others. *)
Lemma load_rows_valid (rows : list MemoryRow) (st : @St World) ms0 :
  memories (self st) = Some ms0 →
  ∃ extra,
    load_rows model_validate rows st
      = (Ok (),
         {| self := set_memories (self st)
                      (Some (ms0 ++ valid_rows model_validate rows));
            world := world st; trace := trace st ++ extra |}) ∧
    quiet extra ∧ calls_of is_read_call extra = 0.
Proof.
  revert st ms0. induction rows as [|row rows IH]; intros st ms0 Hms.
  - exists []. simpl. unfold ret. split; [|by split; [constructor|]].
    rewrite !app_nil_r. destruct st as [s w t]; simpl in *. f_equal. f_equal.
    destruct s; simpl in *. by subst.
  - simpl. unfold bind, try_except, valid_rows. simpl.
    destruct (model_validate (row_memory row)) as [m|e]; simpl.
    + edestruct (IH {| self := set_memories (self st)
                                 (Some (default [] (memories (self st)) ++ [m]));
                       world := world st; trace := trace st |}
                    (ms0 ++ [m]))
        as (extra & -> & Hq & Hr); [by rewrite Hms|].
      exists extra. split; [|done]. simpl.
      by rewrite set_memories_twice, <- app_assoc.
    + edestruct (IH {| self := self st; world := world st;
                       trace := trace st ++ [Logged "warning"
                         ("Error loading memory: " +:+ str_exc e)] |} ms0)
        as (extra & -> & Hq & Hr); [done|].
      exists (Logged "warning" ("Error loading memory: " +:+ str_exc e)
                :: extra).
      split_and!; [simpl; by rewrite <- app_assoc|by constructor|].
      by rewrite calls_of_cons.
Qed.

(** A load whose read returns: in any state. *)
Lemma load_user_memories_loaded (st : @St World) (d : MemoryDb) rows w' :
  db (self st) = Some d → retrieval (self st) ≠ semantic →
  read_memories d (user_id (self st)) (num_memories (self st))
    (sort_for (retrieval (self st))) (world st) = (Ok rows, w') →
  ∃ extra,
    load_user_memories read_memories model_validate st
    = (Ok (),
       {| self := set_memories (self st)
                    (Some (valid_rows model_validate (default [] rows)));
          world := w';
          trace := trace st ++
            ReadMemoriesCalled d (user_id (self st)) (num_memories (self st))
              (sort_for (retrieval (self st))) :: extra |}) ∧
    quiet extra ∧ calls_of is_read_call extra = 0.
Proof.
  intros Hdb Hpol Hread.
  unfold load_user_memories, read_memory_rows, bind, try_except, get_self,
    call. simpl. rewrite Hdb. simpl.
  rewrite (supported_policy _ Hpol), Hread. simpl. unfold update_self. simpl.
  destruct rows as [[|row rows]|]; simpl.
  - exists []. by split; [|split; [constructor|]].
  - edestruct (load_rows_valid (row :: rows)
      {| self := set_memories (self st) (Some []); world := w';
         trace := trace st ++
           [ReadMemoriesCalled d (user_id (self st)) (num_memories (self st))
              (sort_for (retrieval (self st)))] |} [])
      as (extra & Hrun & Hq & Hr); [done|].
    simpl in Hrun. rewrite Hrun. exists extra. split; [|done].
    by rewrite set_memories_twice, <- app_assoc.
  - exists []. by split; [|split; [constructor|]].
Qed.

(** When the read of the store returns, [load_user_memories] replaces
    [memories] wholesale by the rows that deserialize, in the order read; a
    row that fails to deserialize is skipped and does not abort the load; a
    read that returns [None] or no row leaves the empty sequence.  The
    store is read exactly once, as the first effect, for the memory's user
    and limit and in the order of the retrieval policy. *)
Theorem load_user_memories_keeps_valid_rows (mem : AgentMemory) (d : MemoryDb)
    (w : World) (rows : option (list MemoryRow)) :
  db mem = Some d → retrieval mem ≠ semantic →
  (read_memories d (user_id mem) (num_memories mem)
     (sort_for (retrieval mem)) w).1 = Ok rows →
  (run_method (load_user_memories read_memories model_validate) mem w).1
    = Ok () ∧
  memories
    (self (run_method (load_user_memories read_memories model_validate)
             mem w).2)
    = Some (valid_rows model_validate (default [] rows)) ∧
  ∃ extra,
    trace (run_method (load_user_memories read_memories model_validate)
             mem w).2
      = ReadMemoriesCalled d (user_id mem) (num_memories mem)
          (sort_for (retrieval mem)) :: extra ∧
    calls_of is_read_call extra = 0.
Proof.
  intros Hdb Hpol Hread. unfold run_method.
  destruct (read_memories _ _ _ _ _) as [r w'] eqn:Hr. simpl in Hread.
  subst r.
  destruct (load_user_memories_loaded
              {| self := mem; world := w; trace := [] |} d rows w'
              Hdb Hpol Hr) as (extra & -> & _ & Hcalls).
  simpl. split_and!; [done..|]. by exists extra.
Qed.

(** [load_user_memories] never raises, whatever the store and the
    deserializer do; it changes no attribute of the memory other than
    [memories]; and with no store configured it does nothing at all. *)
Theorem load_user_memories_frame (mem : AgentMemory) (w : World) :
  (run_method (load_user_memories read_memories model_validate) mem w).1
    = Ok () ∧
  set_memories
    (self (run_method (load_user_memories read_memories model_validate)
             mem w).2) (memories mem) = mem ∧
  (db mem = None →
   (run_method (load_user_memories read_memories model_validate) mem w).2
     = {| self := mem; world := w; trace := [] |}).
Proof.
  unfold run_method.
  destruct (load_user_memories_returns read_memories model_validate
              {| self := mem; world := w; trace := [] |})
    as (ms & w' & extra & Hrun & _).
  split_and!.
  - by rewrite Hrun.
  - rewrite Hrun. simpl. by rewrite set_memories_twice, set_memories_same.
  - intros Hdb. unfold load_user_memories, bind, get_self. simpl.
    by rewrite Hdb.
Qed.

End Store.

(** An instance of [load_user_memories_keeps_valid_rows]: three rows, the
    second of which does not deserialize. *)
Lemma load_user_memories_keeps_valid_rows_witness :
  memories
    (self (run_method (load_user_memories read_three_rows validate_strict)
             (memory_with_db last_n) ()).2)
  = Some [{| memory_text := "likes jazz" |};
          {| memory_text := "lives in Oslo" |}].
Proof.
  destruct (load_user_memories_keeps_valid_rows read_three_rows
              validate_strict (memory_with_db last_n) the_db ()
              (Some [{| row_memory := "likes jazz" |};
                     {| row_memory := "corrupt" |};
                     {| row_memory := "lives in Oslo" |}]))
    as (_ & Hmem & _); [reflexivity|discriminate|reflexivity|].
  rewrite Hmem. reflexivity.
Defined.

End UserMemoriesMore.

(** ** Memory writes: the path through the manager *)

Module MemoryWritesMore.
Import Memory Spec Examples MemoryQueries UserMemories MemoryWrites
  UserMemoriesMore.

Section Pipeline.
Context {World : Type}.
Variable read_memories :
  MemoryDb → option string → option nat → string →
  World → Result (option (list MemoryRow)) * World.
Variable model_validate : string → Result UserMemory.
Variable classifier_run :
  CallMode → MemoryClassifier → string → World → Result (option string) * World.
Variable manager_run :
  CallMode → MemoryManager → string → World → Result (option string) * World.

(** The manager that the statements after the gate run. *)
Lemma manager_after_refresh (s : AgentMemory) :
  match manager s with
  | Some m =>
      set_manager s
        (Some {| manager_model := manager_model m;
                 manager_user_id := user_id s;
                 manager_db := db s |})
  | None => set_manager s (Some (MemoryManager_new (user_id s) (db s)))
  end = set_manager s (Some (manager_bound s)).
Proof. unfold manager_bound. by destruct (manager s). Qed.

(** The statements after the gate run the manager bound to the current user
    and store, as their first effect; what follows calls neither the
    classifier nor the manager. *)
Lemma write_memory_in_manager_bound mode input (st : @St World) :
  ∃ extra,
    trace (write_memory_in read_memories model_validate manager_run
             mode input st).2
      = trace st ++ ManagerCalled mode (manager_bound (self st)) input :: extra ∧
    quiet extra.
Proof.
  unfold write_memory_in, bind, update_self, get_self, call. simpl.
  rewrite manager_after_refresh. simpl.
  destruct (manager_run _ _ _ _) as [[response|e] w1]; simpl.
  - match goal with
    | |- context [load_user_memories _ _ ?st1] =>
        destruct (load_user_memories_returns read_memories model_validate st1)
          as (ms & w2 & extra & -> & Hq)
    end.
    simpl. exists extra. split; [by rewrite <- app_assoc|done].
  - exists []. split; [done|by constructor].
Qed.

(** The statements after the gate, when the manager and the read of the
    store both return. *)
Lemma write_memory_in_written mode input (st : @St World) d response w1
    rows w2 :
  db (self st) = Some d → retrieval (self st) ≠ semantic →
  manager_run mode (manager_bound (self st)) input (world st)
    = (Ok response, w1) →
  read_memories d (user_id (self st)) (num_memories (self st))
    (sort_for (retrieval (self st))) w1 = (Ok rows, w2) →
  ∃ extra,
    write_memory_in read_memories model_validate manager_run mode input st
    = (Ok response,
       {| self :=
            set_updating_memory
              (set_memories
                 (set_manager (self st) (Some (manager_bound (self st))))
                 (Some (valid_rows model_validate (default [] rows))))
              false;
          world := w2;
          trace := trace st ++
            ManagerCalled mode (manager_bound (self st)) input ::
            ReadMemoriesCalled d (user_id (self st)) (num_memories (self st))
              (sort_for (retrieval (self st))) :: extra |}) ∧
    quiet extra ∧ calls_of is_read_call extra = 0.
Proof.
  intros Hdb Hpol Hrun Hread.
  unfold write_memory_in, bind, update_self, get_self, call. simpl.
  rewrite manager_after_refresh. simpl. rewrite Hrun. simpl.
  edestruct (load_user_memories_loaded read_memories model_validate
    {| self := set_manager (self st) (Some (manager_bound (self st)));
       world := w1;
       trace := trace st ++ [ManagerCalled mode (manager_bound (self st)) input] |}
    d rows w2) as (extra & Hload & Hq & Hr); [done..|].
  simpl in Hload. rewrite Hload. simpl. exists extra.
  split; [|done]. by rewrite <- app_assoc.
Qed.

(** The statements after the gate, when the manager raises. *)
Lemma write_memory_in_manager_raises mode input (st : @St World) e :
  (manager_run mode (manager_bound (self st)) input (world st)).1 = Raise e →
  write_memory_in read_memories model_validate manager_run mode input st
  = (Raise e,
     {| self := set_manager (self st) (Some (manager_bound (self st)));
        world := (manager_run mode (manager_bound (self st)) input
                    (world st)).2;
        trace := trace st ++
          [ManagerCalled mode (manager_bound (self st)) input] |}).
Proof.
  intros Hraise.
  unfold write_memory_in, bind, update_self, get_self, call. simpl.
  rewrite manager_after_refresh. simpl.
  destruct (manager_run _ _ _ _) as [r w1]. simpl in *. by subst r.
Qed.

(** A forced write that succeeds: with a store, a supported retrieval
    policy and [force=True], when the manager returns [response] and the
    store is then read, [update_memory] returns [response]; the manager it
    ran is bound to the memory's user and store (keeping the rest of a
    configured manager); [memories] holds the rows read after the
    manager's write; and [updating_memory] is cleared. *)
Theorem update_memory_forced_write (mem : AgentMemory) (d : MemoryDb)
    (input : string) (w w1 w2 : World) (response : option string)
    (rows : option (list MemoryRow)) :
  db mem = Some d → retrieval mem ≠ semantic →
  manager_run Blocking (manager_bound mem) input w = (Ok response, w1) →
  read_memories d (user_id mem) (num_memories mem)
    (sort_for (retrieval mem)) w1 = (Ok rows, w2) →
  (run_method
     (update_memory read_memories model_validate classifier_run manager_run
        (InputStr input) true) mem w).1 = Ok response ∧
  updating_memory
    (self (run_method
             (update_memory read_memories model_validate classifier_run
                manager_run (InputStr input) true) mem w).2) = false ∧
  manager
    (self (run_method
             (update_memory read_memories model_validate classifier_run
                manager_run (InputStr input) true) mem w).2)
    = Some (manager_bound mem) ∧
  memories
    (self (run_method
             (update_memory read_memories model_validate classifier_run
                manager_run (InputStr input) true) mem w).2)
    = Some (valid_rows model_validate (default [] rows)) ∧
  world (run_method
           (update_memory read_memories model_validate classifier_run
              manager_run (InputStr input) true) mem w).2 = w2.
Proof.
  intros Hdb Hpol Hrun Hread.
  unfold run_method, update_memory, update_memory_in, bind, get_self,
    update_self, ret. simpl. rewrite Hdb. simpl.
  match goal with
  | |- context [write_memory_in _ _ _ Blocking input ?st1] =>
      destruct (write_memory_in_written Blocking input st1 d response w1
                  rows w2) as (extra & -> & _); [done..|]
  end.
  done.
Qed.

(** When the classifier approves, the manager runs once, right after the
    classifier and the log line, on the text that was classified and bound
    to the memory's user and store. *)
Theorem update_memory_classifier_approves (mem : AgentMemory) (d : MemoryDb)
    (input : string) (w : World) (answer : option string) :
  db mem = Some d →
  (classifier_run Blocking (classifier_consulted mem) input w).1
    = Ok answer →
  says_yes answer →
  ∃ extra,
    trace (run_method
             (update_memory read_memories model_validate classifier_run
                manager_run (InputStr input) false) mem w).2
    = ClassifierCalled Blocking (classifier_consulted mem) input ::
      Logged "debug" "Update memory: True" ::
      ManagerCalled Blocking (manager_bound mem) input :: extra ∧
    calls_of is_classifier_call extra = 0 ∧
    calls_of is_manager_call extra = 0.
Proof.
  intros Hdb Hans Hyes.
  unfold run_method, update_memory, update_memory_in, bind, get_self,
    update_self. simpl. rewrite Hdb. simpl.
  rewrite should_update_memory_in_run.
  change (classifier_consulted (set_updating_memory mem true))
    with (classifier_consulted mem).
  rewrite Hans. apply says_yes_test in Hyes. rewrite Hyes. simpl.
  match goal with
  | |- context [write_memory_in _ _ _ Blocking input ?st1] =>
      destruct (write_memory_in_manager_bound Blocking input st1)
        as (extra & -> & Hq)
  end.
  simpl. exists extra. split; [done|]. by apply quiet_calls.
Qed.

(** [update_memory] catches nothing: an exception of the classifier reaches
    the caller before the manager is run or the store read, and an
    exception of the manager reaches the caller before the store is read
    again. *)
Theorem update_memory_propagates_errors (mem : AgentMemory) (d : MemoryDb)
    (input : string) (w : World) (e : PyExc) :
  db mem = Some d →
  ((classifier_run Blocking (classifier_consulted mem) input w).1 = Raise e →
     (run_method
        (update_memory read_memories model_validate classifier_run manager_run
           (InputStr input) false) mem w).1 = Raise e ∧
     calls_of is_manager_call
       (trace (run_method
                 (update_memory read_memories model_validate classifier_run
                    manager_run (InputStr input) false) mem w).2) = 0 ∧
     calls_of is_read_call
       (trace (run_method
                 (update_memory read_memories model_validate classifier_run
                    manager_run (InputStr input) false) mem w).2) = 0) ∧
  ((manager_run Blocking (manager_bound mem) input w).1 = Raise e →
     (run_method
        (update_memory read_memories model_validate classifier_run manager_run
           (InputStr input) true) mem w).1 = Raise e ∧
     calls_of is_read_call
       (trace (run_method
                 (update_memory read_memories model_validate classifier_run
                    manager_run (InputStr input) true) mem w).2) = 0).
Proof.
  intros Hdb. split.
  - intros Hraise.
    unfold run_method, update_memory, update_memory_in, bind, get_self,
      update_self. simpl. rewrite Hdb. simpl.
    rewrite should_update_memory_in_run.
    change (classifier_consulted (set_updating_memory mem true))
      with (classifier_consulted mem).
    by rewrite Hraise.
  - intros Hraise.
    unfold run_method, update_memory, update_memory_in, bind, get_self,
      update_self, ret. simpl. rewrite Hdb. simpl.
    match goal with
    | |- context [write_memory_in _ _ _ Blocking input ?st1] =>
        rewrite (write_memory_in_manager_raises Blocking input st1 e)
          by exact Hraise
    end.
    done.
Qed.

End Pipeline.

(** An instance of [update_memory_forced_write]. *)
Lemma update_memory_forced_write_witness :
  (run_method
     (update_memory read_three_rows validate_strict classifier_fails
        manager_ok (InputStr "I like jazz") true)
     (memory_with_db last_n) ()).1 = Ok (Some "Memory added") ∧
  updating_memory
    (self (run_method
             (update_memory read_three_rows validate_strict classifier_fails
                manager_ok (InputStr "I like jazz") true)
             (memory_with_db last_n) ()).2) = false.
Proof.
  destruct (update_memory_forced_write read_three_rows validate_strict
              classifier_fails manager_ok (memory_with_db last_n) the_db
              "I like jazz" () () () (Some "Memory added")
              (Some [{| row_memory := "likes jazz" |};
                     {| row_memory := "corrupt" |};
                     {| row_memory := "lives in Oslo" |}]))
    as (Hret & Hflag & _); [reflexivity|discriminate|reflexivity..|].
  split; assumption.
Defined.

(** An instance of [update_memory_classifier_approves]: the answer ["YES"]
    counts as yes. *)
Lemma update_memory_classifier_approves_witness :
  calls_of is_manager_call
    (trace (run_method
              (update_memory read_one_row validate_any (classifier_says "YES")
                 manager_ok (InputStr "I like jazz") false)
              (memory_with_db last_n) ()).2) = 1.
Proof.
  destruct (update_memory_classifier_approves read_one_row validate_any
              (classifier_says "YES") manager_ok (memory_with_db last_n)
              the_db "I like jazz" () (Some "YES"))
    as (extra & Htrace & _ & Hmanager); [reflexivity..| |].
  - exists "YES". split; reflexivity.
  - rewrite Htrace, !calls_of_cons, Hmanager. reflexivity.
Defined.

(** An instance of [update_memory_propagates_errors]. *)
Lemma update_memory_propagates_errors_witness :
  (run_method
     (update_memory read_one_row validate_any classifier_fails manager_ok
        (InputStr "I like jazz") false)
     (memory_with_db last_n) ()).1
    = Raise (OtherException "model unavailable") ∧
  (run_method
     (update_memory read_one_row validate_any classifier_fails manager_fails
        (InputStr "I like jazz") true)
     (memory_with_db last_n) ()).1
    = Raise (OtherException "write failed").
Proof.
  destruct (update_memory_propagates_errors read_one_row validate_any
              classifier_fails manager_ok (memory_with_db last_n) the_db
              "I like jazz" () (OtherException "model unavailable"))
    as [Hclassifier _]; [reflexivity|].
  destruct (update_memory_propagates_errors read_one_row validate_any
              classifier_fails manager_fails (memory_with_db last_n) the_db
              "I like jazz" () (OtherException "write failed"))
    as [_ Hmanager]; [reflexivity|].
  split.
  - apply Hclassifier. reflexivity.
  - apply Hmanager. reflexivity.
Defined.

End MemoryWritesMore.

(** ** Event streamer: completion, serialization failures, workflows *)

Module StreamingMore.
Import Router RouterExamples RouterMore Streaming.

Section Streamers.
Context {World Chunk : Type}.
Variable run_stream : RunCall → World → Result (Generator Chunk).
Variable chunk_to_json : Chunk → Result string.
Variable chunk_dumps : Chunk → Result string.
Variable run_response_to_json : RunResponse → string.
Variable team_error_to_json : TeamRunResponseErrorEvent → string.
Variable workflow_error_to_json : WorkflowErrorEvent → string.

(** The loop stops at the first chunk that does not serialize. *)
Lemma yield_chunks_stops (to_json : Chunk → Result string)
    (before : list Chunk) (js : list string) (c : Chunk)
    (after : list Chunk) (e : PyExc) (end_of_run : option PyExc) :
  Forall2 (λ c j, to_json c = Ok j) before js →
  to_json c = Raise e →
  yield_chunks to_json (before ++ c :: after) end_of_run
  = (YieldChunk <$> js, Some e).
Proof.
  intros Hjs Hc. induction Hjs as [|c0 j before js Hc0 _ IH]; simpl.
  - by rewrite Hc.
  - by rewrite Hc0, IH.
Qed.

Lemma yield_chunks_complete (to_json : Chunk → Result string)
    (cs : list Chunk) (js : list string) (end_of_run : option PyExc) :
  Forall2 (λ c j, to_json c = Ok j) cs js →
  yield_chunks to_json cs end_of_run = (YieldChunk <$> js, end_of_run).
Proof.
  induction 1 as [|c j cs js Hc _ IH]; simpl; [done|]. by rewrite Hc, IH.
Qed.

(** The workflow streamer contains errors like the two chat streamers: it
    always ends by returning; chunks followed by an exception give one
    event per chunk, in order, then one [WorkflowErrorEvent] with
    [str(e)]; and a failing call of [run] gives that event alone. *)
Theorem workflow_streamer_contains_errors (workflow : Workflow)
    (body : option WorkflowInput) (session_id user_id : option string)
    (w : World) :
  finish (workflow_response_streamer run_stream chunk_to_json
            workflow_error_to_json workflow body session_id user_id w)
    = None ∧
  (∀ cs e js,
     run_stream
       (WorkflowRun workflow
          {| wf_input := body; wf_session_id := session_id;
             wf_user_id := user_id; wf_stream := true;
             wf_stream_intermediate_steps := true |}) w
       = Ok {| chunks := cs; ending := Some e |} →
     Forall2 (λ c j, chunk_to_json c = Ok j) cs js →
     emitted (workflow_response_streamer run_stream chunk_to_json
                workflow_error_to_json workflow body session_id user_id w)
     = (YieldChunk <$> js)
       ++ [YieldError
             (workflow_error_to_json {| we_error := Some (str_exc e) |})]) ∧
  (∀ e,
     run_stream
       (WorkflowRun workflow
          {| wf_input := body; wf_session_id := session_id;
             wf_user_id := user_id; wf_stream := true;
             wf_stream_intermediate_steps := true |}) w = Raise e →
     emitted (workflow_response_streamer run_stream chunk_to_json
                workflow_error_to_json workflow body session_id user_id w)
     = [YieldError
          (workflow_error_to_json {| we_error := Some (str_exc e) |})]).
Proof.
  unfold workflow_response_streamer. split_and!.
  - apply except_yield_shape.
  - intros cs e js Hrun Hjs. unfold try_stream. rewrite Hrun. simpl.
    by rewrite (yield_chunks_complete _ _ _ _ Hjs).
  - intros e Hrun. unfold try_stream. by rewrite Hrun.
Qed.

(** A run that completes: when the iterator ends normally and every chunk
    serializes, each of the three streamers yields exactly one event per
    chunk, in order, and no error event. *)
Theorem streamers_complete_without_error (agent : Agent) (team : Team)
    (workflow : Workflow) (body : option WorkflowInput)
    (message session_id user_id : option string)
    (images : option (list Image)) (audio : option (list Audio))
    (videos : option (list Video)) (files : option (list FileMedia))
    (w : World) (cs : list Chunk) (js : list string) :
  (∀ c, run_stream c w = Ok {| chunks := cs; ending := None |}) →
  Forall2 (λ c j, chunk_to_json c = Ok j) cs js →
  agent_chat_response_streamer run_stream chunk_to_json run_response_to_json
    agent message session_id user_id images audio videos w
    = {| emitted := YieldChunk <$> js; finish := None |} ∧
  team_chat_response_streamer run_stream chunk_to_json team_error_to_json
    team message session_id user_id images audio videos files w
    = {| emitted := YieldChunk <$> js; finish := None |} ∧
  workflow_response_streamer run_stream chunk_to_json workflow_error_to_json
    workflow body session_id user_id w
    = {| emitted := YieldChunk <$> js; finish := None |} ∧
  filter (λ y, is_error_event y = true) (YieldChunk <$> js) = [].
Proof.
  intros Hrun Hjs.
  unfold agent_chat_response_streamer, team_chat_response_streamer,
    workflow_response_streamer, try_stream.
  rewrite !Hrun. simpl. rewrite !(yield_chunks_complete _ _ _ _ Hjs). simpl.
  split_and!; [done..|].
  clear. induction js as [|j js IH]; [done|]. simpl.
  by rewrite filter_cons, decide_False.
Qed.

(** A chunk that does not serialize ends the stream like a provider
    failure: the chunks before it are yielded, then one error event with
    the serializer's message, and the chunks after it are never yielded. *)
Theorem streamers_stop_at_unserializable_chunk (agent : Agent) (team : Team)
    (message session_id user_id : option string)
    (images : option (list Image)) (audio : option (list Audio))
    (videos : option (list Video)) (files : option (list FileMedia))
    (w : World) (before after : list Chunk) (c : Chunk) (js : list string)
    (e : PyExc) (end_of_run : option PyExc) :
  (∀ call, run_stream call w
           = Ok {| chunks := before ++ c :: after; ending := end_of_run |}) →
  Forall2 (λ c j, chunk_to_json c = Ok j) before js →
  chunk_to_json c = Raise e →
  agent_chat_response_streamer run_stream chunk_to_json run_response_to_json
    agent message session_id user_id images audio videos w
    = {| emitted := (YieldChunk <$> js)
           ++ [YieldError
                 (run_response_to_json
                    {| rr_content := Some (str_exc e);
                       rr_status := status_error |})];
         finish := None |} ∧
  team_chat_response_streamer run_stream chunk_to_json team_error_to_json
    team message session_id user_id images audio videos files w
    = {| emitted := (YieldChunk <$> js)
           ++ [YieldError
                 (team_error_to_json {| te_content := Some (str_exc e) |})];
         finish := None |}.
Proof.
  intros Hrun Hjs Hc.
  unfold agent_chat_response_streamer, team_chat_response_streamer,
    try_stream.
  rewrite !Hrun. simpl.
  by rewrite !(yield_chunks_stops _ _ _ _ _ _ _ Hjs Hc).
Qed.

End Streamers.

(** An instance of [streamers_complete_without_error]. *)
Lemma streamers_complete_without_error_witness :
  emitted (agent_chat_response_streamer run_stream_completes chunk_json
             run_response_json agent_a1 (Some "hi") (Some "s1") (Some "u1")
             None None None ())
  = [YieldChunk "c1"; YieldChunk "c2"].
Proof.
  destruct (streamers_complete_without_error run_stream_completes chunk_json
              run_response_json team_error_json workflow_error_json
              agent_a1 team_t1 workflow_v2 None (Some "hi") (Some "s1")
              (Some "u1") None None None None () ["c1"; "c2"] ["c1"; "c2"])
    as (Hagent & _); [reflexivity|repeat constructor|].
  rewrite Hagent. reflexivity.
Defined.

(** An instance of [streamers_stop_at_unserializable_chunk]. *)
Lemma streamers_stop_at_unserializable_chunk_witness :
  emitted (agent_chat_response_streamer run_stream_bad_chunk chunk_json_strict
             run_response_json agent_a1 (Some "hi") (Some "s1") (Some "u1")
             None None None ())
  = [YieldChunk "c1"; YieldError "error:not serializable"].
Proof.
  destruct (streamers_stop_at_unserializable_chunk run_stream_bad_chunk
              chunk_json_strict run_response_json team_error_json
              agent_a1 team_t1 (Some "hi") (Some "s1") (Some "u1")
              None None None None () ["c1"] ["c3"] "bad" ["c1"]
              (OtherException "not serializable") None)
    as (Hagent & _); [reflexivity|repeat constructor|reflexivity|].
  rewrite Hagent. reflexivity.
Defined.

End StreamingMore.

(** ** Attachments: [agent_process_file], [team_process_file] *)

Module Attachments.
Import Router RouterExamples RouterMore.

Lemma converted_hit {A} kind (process : UploadFile → Result A) f files :
  media_kind (content_type f) = kind →
  converted kind process (f :: files)
  = match process f with Ok x => [x] | Raise _ => [] end
    ++ converted kind process files.
Proof.
  intros Hk. unfold converted. rewrite filter_cons, decide_True by done.
  simpl. by destruct (process f).
Qed.

Lemma converted_miss {A} kind (process : UploadFile → Result A) f files :
  media_kind (content_type f) ≠ kind →
  converted kind process (f :: files) = converted kind process files.
Proof.
  intros Hk. unfold converted. by rewrite filter_cons, decide_False.
Qed.

Lemma collected_documents_hit process_document f files :
  media_kind (content_type f) = KindOther →
  collected_documents process_document (f :: files)
  = match process_document f with Ok (Some d) => [d] | _ => [] end
    ++ collected_documents process_document files.
Proof.
  intros Hk. unfold collected_documents.
  rewrite filter_cons, decide_True by done. simpl.
  by destruct (process_document f) as [[d|]|].
Qed.

Lemma collected_documents_miss process_document f files :
  media_kind (content_type f) ≠ KindOther →
  collected_documents process_document (f :: files)
  = collected_documents process_document files.
Proof.
  intros Hk. unfold collected_documents.
  by rewrite filter_cons, decide_False.
Qed.

Lemma no_run_invoked_app t1 t2 :
  no_run_invoked t1 → no_run_invoked t2 → no_run_invoked (t1 ++ t2).
Proof. apply Forall_app_2. Qed.

Lemma no_documents_loaded_app t1 t2 :
  no_documents_loaded t1 → no_documents_loaded t2 →
  no_documents_loaded (t1 ++ t2).
Proof. apply Forall_app_2. Qed.

Section Processors.
Context {World : Type}.
Variable process_image : UploadFile → Result Image.
Variable process_audio : UploadFile → Result Audio.
Variable process_video : UploadFile → Result Video.
Variable process_document : UploadFile → Result (option FileMedia).
Variable read_document : string → UploadFile → Result string.
Variable load_documents : Knowledge → string → World → Result () * World.

Local Abbreviation agent_from :=
  (agent_process_file_from process_image process_audio process_video
     read_document load_documents).
Local Abbreviation team_from :=
  (team_process_file_from process_image process_audio process_video
     process_document).

(** One turn of the agent loop on a file of each media bucket. *)
Lemma agent_step_image f rest (agent : Agent) imgs auds vids (st : @HSt World) :
  media_kind (content_type f) = KindImage →
  agent_from (f :: rest) agent imgs auds vids st
  = agent_from rest agent
      (imgs ++ match process_image f with Ok x => [x] | Raise _ => [] end)
      auds vids
      {| world := world st;
         trace := trace st ++
           FileLogged (content_type f) ::
           match process_image f with
           | Ok _ => []
           | Raise e => [ConversionFailed "image" f e]
           end |}.
Proof.
  unfold media_kind. intros Hk.
  destruct (type_in (content_type f) image_types) eqn:Hi;
    [|by destruct (type_in (content_type f) audio_types),
         (type_in (content_type f) video_types)].
  simpl. unfold bind, emit. simpl. rewrite Hi.
  destruct (process_image f); simpl;
    by rewrite ?app_nil_r, <- ?app_assoc.
Qed.

Lemma agent_step_audio f rest (agent : Agent) imgs auds vids (st : @HSt World) :
  media_kind (content_type f) = KindAudio →
  agent_from (f :: rest) agent imgs auds vids st
  = agent_from rest agent imgs
      (auds ++ match process_audio f with Ok x => [x] | Raise _ => [] end)
      vids
      {| world := world st;
         trace := trace st ++
           FileLogged (content_type f) ::
           match process_audio f with
           | Ok _ => []
           | Raise e => [ConversionFailed "audio" f e]
           end |}.
Proof.
  unfold media_kind. intros Hk.
  destruct (type_in (content_type f) image_types) eqn:Hi; [done|].
  destruct (type_in (content_type f) audio_types) eqn:Ha;
    [|by destruct (type_in (content_type f) video_types)].
  simpl. unfold bind, emit. simpl. rewrite Hi, Ha.
  destruct (process_audio f); simpl;
    by rewrite ?app_nil_r, <- ?app_assoc.
Qed.

Lemma agent_step_video f rest (agent : Agent) imgs auds vids (st : @HSt World) :
  media_kind (content_type f) = KindVideo →
  agent_from (f :: rest) agent imgs auds vids st
  = agent_from rest agent imgs auds
      (vids ++ match process_video f with Ok x => [x] | Raise _ => [] end)
      {| world := world st;
         trace := trace st ++
           FileLogged (content_type f) ::
           match process_video f with
           | Ok _ => []
           | Raise e => [ConversionFailed "video" f e]
           end |}.
Proof.
  unfold media_kind. intros Hk.
  destruct (type_in (content_type f) image_types) eqn:Hi; [done|].
  destruct (type_in (content_type f) audio_types) eqn:Ha; [done|].
  destruct (type_in (content_type f) video_types) eqn:Hv; [|done].
  simpl. unfold bind, emit. simpl. rewrite Hi, Ha, Hv.
  destruct (process_video f); simpl;
    by rewrite ?app_nil_r, <- ?app_assoc.
Qed.

Lemma conversion_effects_harmless {A} (process : UploadFile → Result A)
    kind f :
  no_run_invoked
    (FileLogged (content_type f) ::
     match process f with
     | Ok _ => []
     | Raise e => [ConversionFailed kind f e]
     end) ∧
  no_documents_loaded
    (FileLogged (content_type f) ::
     match process f with
     | Ok _ => []
     | Raise e => [ConversionFailed kind f e]
     end).
Proof. destruct (process f); split; by repeat constructor. Qed.

(** The agent loop over a run of media files: each goes to its bucket when
    its converter accepts it and is dropped when the converter raises; the
    outside is not touched. *)
Lemma agent_process_file_from_media (media rest : list UploadFile)
    (agent : Agent) imgs auds vids (st : @HSt World) :
  Forall (λ f, media_kind (content_type f) ≠ KindOther) media →
  ∃ extra,
    agent_from (media ++ rest) agent imgs auds vids st
    = agent_from rest agent
        (imgs ++ converted KindImage process_image media)
        (auds ++ converted KindAudio process_audio media)
        (vids ++ converted KindVideo process_video media)
        {| world := world st; trace := trace st ++ extra |} ∧
    no_run_invoked extra ∧ no_documents_loaded extra.
Proof.
  intros Hmedia. revert imgs auds vids st.
  induction Hmedia as [|f media Hf _ IH]; intros imgs auds vids st.
  - exists []. unfold converted. simpl. rewrite !app_nil_r.
    split; [by destruct st|by split; constructor].
  - rewrite <- app_comm_cons.
    destruct (media_kind (content_type f)) eqn:Hk; [| | |done].
    + rewrite agent_step_image by done.
      edestruct IH as (extra & -> & Hr & Hd). simpl.
      rewrite (converted_hit KindImage) by done.
      rewrite (converted_miss KindAudio), (converted_miss KindVideo)
        by (by rewrite Hk).
      destruct (conversion_effects_harmless process_image "image" f).
      eexists. rewrite <- !app_assoc. split; [reflexivity|].
      split; [by apply no_run_invoked_app|by apply no_documents_loaded_app].
    + rewrite agent_step_audio by done.
      edestruct IH as (extra & -> & Hr & Hd). simpl.
      rewrite (converted_hit KindAudio) by done.
      rewrite (converted_miss KindImage), (converted_miss KindVideo)
        by (by rewrite Hk).
      destruct (conversion_effects_harmless process_audio "audio" f).
      eexists. rewrite <- !app_assoc. split; [reflexivity|].
      split; [by apply no_run_invoked_app|by apply no_documents_loaded_app].
    + rewrite agent_step_video by done.
      edestruct IH as (extra & -> & Hr & Hd). simpl.
      rewrite (converted_hit KindVideo) by done.
      rewrite (converted_miss KindImage), (converted_miss KindAudio)
        by (by rewrite Hk).
      destruct (conversion_effects_harmless process_video "video" f).
      eexists. rewrite <- !app_assoc. split; [reflexivity|].
      split; [by apply no_run_invoked_app|by apply no_documents_loaded_app].
Qed.

(** One turn of the agent loop on a file of none of the media buckets. *)
Lemma agent_step_other f rest (agent : Agent) imgs auds vids (st : @HSt World) :
  media_kind (content_type f) = KindOther →
  agent_from (f :: rest) agent imgs auds vids st
  = match knowledge agent with
    | None =>
        (Raise (HTTPException 404 "KnowledgeBase not found"),
         {| world := world st;
            trace := trace st ++ [FileLogged (content_type f)] |})
    | Some k =>
        match reader_for (content_type f) with
        | Some reader =>
            match read_document reader f with
            | Ok file_content =>
                match load_documents k file_content (world st) with
                | (Ok _, w') =>
                    agent_from rest agent imgs auds vids
                      {| world := w';
                         trace := trace st ++
                           [FileLogged (content_type f);
                            DocumentsLoaded k file_content] |}
                | (Raise e, w') =>
                    (Raise e,
                     {| world := w';
                        trace := trace st ++
                          [FileLogged (content_type f);
                           DocumentsLoaded k file_content] |})
                end
            | Raise e =>
                (Raise e,
                 {| world := world st;
                    trace := trace st ++ [FileLogged (content_type f)] |})
            end
        | None =>
            (Raise (HTTPException 400 "Unsupported file type"),
             {| world := world st;
                trace := trace st ++ [FileLogged (content_type f)] |})
        end
    end.
Proof.
  unfold media_kind. intros Hk.
  destruct (type_in (content_type f) image_types) eqn:Hi; [done|].
  destruct (type_in (content_type f) audio_types) eqn:Ha; [done|].
  destruct (type_in (content_type f) video_types) eqn:Hv; [done|].
  simpl. unfold bind, emit, raise, lift, call. simpl. rewrite Hi, Ha, Hv.
  destruct (knowledge agent) as [k|]; [|done].
  destruct (reader_for (content_type f)) as [reader|]; [|done].
  destruct (read_document reader f) as [docs|e]; simpl; [|done].
  destruct (load_documents k docs (world st)) as [[[]|e] w']; simpl;
    by rewrite <- ?app_assoc.
Qed.

(** When every file is an image, audio or video file, [agent_process_file]
    returns, whatever the converters do and whether or not the agent has a
    knowledge base: each bucket holds the files of its kind that converted,
    in upload order; a file whose conversion raises is dropped; and nothing
    outside is touched. *)
Theorem agent_process_file_media_only (files : list UploadFile)
    (agent : Agent) (st : @HSt World) :
  Forall (λ f, media_kind (content_type f) ≠ KindOther) files →
  ∃ extra,
    agent_process_file process_image process_audio process_video
      read_document load_documents files agent st
    = (Ok (converted KindImage process_image files,
           converted KindAudio process_audio files,
           converted KindVideo process_video files),
       {| world := world st; trace := trace st ++ extra |}) ∧
    no_run_invoked extra ∧ no_documents_loaded extra.
Proof.
  intros Hmedia. unfold agent_process_file.
  destruct (agent_process_file_from_media files [] agent [] [] [] st Hmedia)
    as (extra & Hrun & Hr & Hd).
  rewrite app_nil_r in Hrun. rewrite Hrun. by exists extra.
Qed.

(** Attachment fallback: at the first file that is not an image, audio or
    video file, an agent without knowledge base fails the request with 404
    ["KnowledgeBase not found"], whatever the file's type; an agent with a
    knowledge base fails it with 400 ["Unsupported file type"] when the
    type is none of the five document types.  In both cases nothing outside
    is touched and no document is loaded. *)
Theorem agent_process_file_fallback (media rest : list UploadFile)
    (f : UploadFile) (agent : Agent) (st : @HSt World) :
  Forall (λ f, media_kind (content_type f) ≠ KindOther) media →
  media_kind (content_type f) = KindOther →
  (knowledge agent = None →
     ∃ extra,
       agent_process_file process_image process_audio process_video
         read_document load_documents (media ++ f :: rest) agent st
       = (Raise (HTTPException 404 "KnowledgeBase not found"),
          {| world := world st; trace := trace st ++ extra |}) ∧
       no_documents_loaded extra) ∧
  (is_Some (knowledge agent) → reader_for (content_type f) = None →
     ∃ extra,
       agent_process_file process_image process_audio process_video
         read_document load_documents (media ++ f :: rest) agent st
       = (Raise (HTTPException 400 "Unsupported file type"),
          {| world := world st; trace := trace st ++ extra |}) ∧
       no_documents_loaded extra).
Proof.
  intros Hmedia Hother. unfold agent_process_file.
  destruct (agent_process_file_from_media media (f :: rest) agent [] [] [] st
              Hmedia) as (extra & -> & Hr & Hd).
  rewrite (agent_step_other _ _ _ _ _ _ _ Hother).
  assert (no_documents_loaded (extra ++ [FileLogged (content_type f)]))
    as Hall by (apply no_documents_loaded_app; by repeat constructor).
  split.
  - intros ->. exists (extra ++ [FileLogged (content_type f)]).
    simpl. by rewrite <- app_assoc.
  - intros [k ->] ->. exists (extra ++ [FileLogged (content_type f)]).
    simpl. by rewrite <- app_assoc.
Qed.

(** Ingestion: for an agent with a knowledge base, a file of one of the
    five document types among media files is read by the reader of its
    type and loaded into the knowledge base, once; it enters no media
    bucket; and an exception of the reader fails the request. *)
Theorem agent_process_file_ingests (media rest : list UploadFile)
    (f : UploadFile) (agent : Agent) (k : Knowledge) (reader : string)
    (st : @HSt World) :
  Forall (λ f, media_kind (content_type f) ≠ KindOther) media →
  Forall (λ f, media_kind (content_type f) ≠ KindOther) rest →
  media_kind (content_type f) = KindOther →
  knowledge agent = Some k →
  reader_for (content_type f) = Some reader →
  (∀ documents w',
     read_document reader f = Ok documents →
     load_documents k documents (world st) = (Ok (), w') →
     ∃ before after,
       agent_process_file process_image process_audio process_video
         read_document load_documents (media ++ f :: rest) agent st
       = (Ok (converted KindImage process_image (media ++ rest),
              converted KindAudio process_audio (media ++ rest),
              converted KindVideo process_video (media ++ rest)),
          {| world := w';
             trace := trace st ++ before
                      ++ DocumentsLoaded k documents :: after |}) ∧
       no_documents_loaded before ∧ no_documents_loaded after) ∧
  (∀ e, read_document reader f = Raise e →
        (agent_process_file process_image process_audio process_video
           read_document load_documents (media ++ f :: rest) agent st).1
        = Raise e).
Proof.
  intros Hmedia Hrest Hother Hk Hreader. unfold agent_process_file.
  destruct (agent_process_file_from_media media (f :: rest) agent [] [] [] st
              Hmedia) as (extra & -> & Hr & Hd).
  rewrite (agent_step_other _ _ _ _ _ _ _ Hother), Hk, Hreader. simpl.
  split.
  - intros documents w' -> ->.
    match goal with
    | |- context [agent_process_file_from _ _ _ _ _ rest agent ?i ?a ?v ?st1] =>
        destruct (agent_process_file_from_media rest [] agent i a v st1 Hrest)
          as (extra2 & Hrun & Hr2 & Hd2)
    end.
    rewrite app_nil_r in Hrun. rewrite Hrun. simpl.
    exists (extra ++ [FileLogged (content_type f)]), extra2.
    split_and!; [|apply no_documents_loaded_app; by repeat constructor|done].
    unfold converted. rewrite !filter_app, !omap_app, <- !app_assoc. done.
  - intros e ->. done.
Qed.

(** One turn of the team loop, by the kind of the file. *)
Lemma team_step f rest imgs auds vids docs (st : @HSt World) :
  team_from (f :: rest) imgs auds vids docs st
  = match media_kind (content_type f) with
    | KindImage =>
        team_from rest
          (imgs ++ match process_image f with Ok x => [x] | Raise _ => [] end)
          auds vids docs
          {| world := world st;
             trace := trace st ++
               match process_image f with
               | Ok _ => []
               | Raise e => [ConversionFailed "image" f e]
               end |}
    | KindAudio =>
        team_from rest imgs
          (auds ++ match process_audio f with Ok x => [x] | Raise _ => [] end)
          vids docs
          {| world := world st;
             trace := trace st ++
               match process_audio f with
               | Ok _ => []
               | Raise e => [ConversionFailed "audio" f e]
               end |}
    | KindVideo =>
        team_from rest imgs auds
          (vids ++ match process_video f with Ok x => [x] | Raise _ => [] end)
          docs
          {| world := world st;
             trace := trace st ++
               match process_video f with
               | Ok _ => []
               | Raise e => [ConversionFailed "video" f e]
               end |}
    | KindOther =>
        if type_in (content_type f) document_types then
          match process_document f with
          | Ok d =>
              team_from rest imgs auds vids
                (docs ++ match d with Some d => [d] | None => [] end) st
          | Raise e => (Raise e, st)
          end
        else (Raise (HTTPException 400 "Unsupported file type"), st)
    end.
Proof.
  unfold media_kind. simpl. unfold bind, emit, raise, lift. simpl.
  destruct st as [w t].
  destruct (type_in (content_type f) image_types).
  { destruct (process_image f); simpl; by rewrite ?app_nil_r. }
  destruct (type_in (content_type f) audio_types).
  { destruct (process_audio f); simpl; by rewrite ?app_nil_r. }
  destruct (type_in (content_type f) video_types).
  { destruct (process_video f); simpl; by rewrite ?app_nil_r. }
  destruct (type_in (content_type f) document_types); [|done].
  destruct (process_document f) as [[d|]|e]; simpl; by rewrite ?app_nil_r.
Qed.

(** The team loop over a run of files it accepts. *)
Lemma team_process_file_from_accepted (accepted rest : list UploadFile)
    imgs auds vids docs (st : @HSt World) :
  Forall (team_accepts process_document) accepted →
  ∃ extra,
    team_from (accepted ++ rest) imgs auds vids docs st
    = team_from rest
        (imgs ++ converted KindImage process_image accepted)
        (auds ++ converted KindAudio process_audio accepted)
        (vids ++ converted KindVideo process_video accepted)
        (docs ++ collected_documents process_document accepted)
        {| world := world st; trace := trace st ++ extra |} ∧
    no_run_invoked extra ∧ no_documents_loaded extra.
Proof.
  intros Hacc. revert imgs auds vids docs st.
  induction Hacc as [|f accepted Hf _ IH]; intros imgs auds vids docs st.
  - exists []. unfold converted, collected_documents. simpl.
    rewrite !app_nil_r. split; [by destruct st|by split; constructor].
  - rewrite <- app_comm_cons, team_step.
    destruct (media_kind (content_type f)) eqn:Hk.
    + edestruct IH as (extra & -> & Hr & Hd). simpl.
      rewrite (converted_hit KindImage) by done.
      rewrite (converted_miss KindAudio), (converted_miss KindVideo),
        collected_documents_miss by (by rewrite Hk).
      eexists. rewrite <- !app_assoc. split; [reflexivity|].
      destruct (process_image f);
        split; try apply Forall_app_2; by repeat constructor.
    + edestruct IH as (extra & -> & Hr & Hd). simpl.
      rewrite (converted_hit KindAudio) by done.
      rewrite (converted_miss KindImage), (converted_miss KindVideo),
        collected_documents_miss by (by rewrite Hk).
      eexists. rewrite <- !app_assoc. split; [reflexivity|].
      destruct (process_audio f);
        split; try apply Forall_app_2; by repeat constructor.
    + edestruct IH as (extra & -> & Hr & Hd). simpl.
      rewrite (converted_hit KindVideo) by done.
      rewrite (converted_miss KindImage), (converted_miss KindAudio),
        collected_documents_miss by (by rewrite Hk).
      eexists. rewrite <- !app_assoc. split; [reflexivity|].
      destruct (process_video f);
        split; try apply Forall_app_2; by repeat constructor.
    + destruct Hf as [Hf|(Hdoc & d & Hd)]; [done|]. rewrite Hdoc, Hd.
      edestruct IH as (extra & -> & Hr & Hd'). simpl.
      rewrite collected_documents_hit by done. rewrite Hd.
      rewrite !converted_miss by (by rewrite Hk).
      exists extra. rewrite <- !app_assoc. split; [|done].
      by destruct d.
Qed.

(** When every file is a media file or has one of the five document types
    (and [process_document] does not raise), [team_process_file] returns:
    the media buckets hold the converted files of their kind, the fourth
    list the documents that [process_document] returned, all in upload
    order; a failed conversion drops its file only. *)
Theorem team_process_file_accepted (files : list UploadFile)
    (st : @HSt World) :
  Forall (team_accepts process_document) files →
  ∃ extra,
    team_process_file process_image process_audio process_video
      process_document files st
    = (Ok (converted KindImage process_image files,
           converted KindAudio process_audio files,
           converted KindVideo process_video files,
           collected_documents process_document files),
       {| world := world st; trace := trace st ++ extra |}) ∧
    no_run_invoked extra.
Proof.
  intros Hacc. unfold team_process_file.
  destruct (team_process_file_from_accepted files [] [] [] [] [] st Hacc)
    as (extra & Hrun & Hr & _).
  rewrite app_nil_r in Hrun. rewrite Hrun. by exists extra.
Qed.

(** At the first file that is neither a media file nor of a document type,
    [team_process_file] fails the request with 400
    ["Unsupported file type"]; the files after it are not looked at. *)
Theorem team_process_file_unsupported (accepted rest : list UploadFile)
    (f : UploadFile) (st : @HSt World) :
  Forall (team_accepts process_document) accepted →
  media_kind (content_type f) = KindOther →
  type_in (content_type f) document_types = false →
  (team_process_file process_image process_audio process_video
     process_document (accepted ++ f :: rest) st).1
  = Raise (HTTPException 400 "Unsupported file type").
Proof.
  intros Hacc Hother Hdoc. unfold team_process_file.
  destruct (team_process_file_from_accepted accepted (f :: rest) [] [] [] []
              st Hacc) as (extra & -> & _).
  by rewrite team_step, Hother, Hdoc.
Qed.

End Processors.

(** An instance of [agent_process_file_media_only]: a corrupt image is
    dropped and the request goes on. *)
Lemma agent_process_file_media_only_witness :
  (agent_process_file image_of audio_of video_of read_any load_any
     [png; broken_png; wav] agent_a1 {| world := (); trace := [] |}).1
  = Ok ([Base64Image "a.png"], [Base64Audio "a.wav"], []).
Proof.
  destruct (agent_process_file_media_only image_of audio_of video_of
              read_any load_any [png; broken_png; wav] agent_a1
              {| world := (); trace := [] |}) as (extra & -> & _).
  - repeat constructor; discriminate.
  - reflexivity.
Defined.

(** An instance of [agent_process_file_fallback]: an archive sent to an
    agent without knowledge base, and to one with a knowledge base. *)
Lemma agent_process_file_fallback_witness :
  (agent_process_file image_of audio_of video_of read_any load_any
     [png; zip] agent_a1 {| world := (); trace := [] |}).1
  = Raise (HTTPException 404 "KnowledgeBase not found") ∧
  (agent_process_file image_of audio_of video_of read_any load_any
     [png; zip] agent_with_knowledge {| world := (); trace := [] |}).1
  = Raise (HTTPException 400 "Unsupported file type").
Proof.
  assert (Forall (λ f, media_kind (content_type f) ≠ KindOther) [png])
    as Hmedia by (repeat constructor; discriminate).
  destruct (agent_process_file_fallback image_of audio_of video_of read_any
              load_any [png] [] zip agent_a1 {| world := (); trace := [] |}
              Hmedia eq_refl) as [Hnone _].
  destruct (agent_process_file_fallback image_of audio_of video_of read_any
              load_any [png] [] zip agent_with_knowledge
              {| world := (); trace := [] |} Hmedia eq_refl) as [_ Hsome].
  destruct (Hnone eq_refl) as (extra1 & H1 & _).
  destruct (Hsome (ex_intro _ _ eq_refl) eq_refl) as (extra2 & H2 & _).
  split.
  - change ([png; zip]) with ([png] ++ zip :: []). by rewrite H1.
  - change ([png; zip]) with ([png] ++ zip :: []). by rewrite H2.
Defined.

(** An instance of [agent_process_file_ingests]. *)
Lemma agent_process_file_ingests_witness :
  (agent_process_file image_of audio_of video_of read_any load_any
     [png; pdf; wav] agent_with_knowledge {| world := (); trace := [] |}).1
  = Ok ([Base64Image "a.png"], [Base64Audio "a.wav"], []).
Proof.
  destruct (agent_process_file_ingests image_of audio_of video_of read_any
              load_any [png] [wav] pdf agent_with_knowledge
              (KnowledgeBase "kb") "PDFReader"
              {| world := (); trace := [] |}) as [Hok _].
  - repeat constructor; discriminate.
  - repeat constructor; discriminate.
  - reflexivity.
  - reflexivity.
  - reflexivity.
  - destruct (Hok "PDFReader:a.pdf" () eq_refl eq_refl)
      as (before & after & H & _).
    change ([png; pdf; wav]) with ([png] ++ pdf :: [wav]). by rewrite H.
Defined.

(** An instance of [team_process_file_accepted]. *)
Lemma team_process_file_accepted_witness :
  (team_process_file image_of audio_of video_of document_of
     [png; pdf; broken_png] {| world := (); trace := [] |}).1
  = Ok ([Base64Image "a.png"], [], [], [DocumentFile "a.pdf"]).
Proof.
  destruct (team_process_file_accepted image_of audio_of video_of document_of
              [png; pdf; broken_png] {| world := (); trace := [] |})
    as (extra & -> & _).
  - apply Forall_cons; split; [left; discriminate|].
    apply Forall_cons; split;
      [right; split; [reflexivity|by eexists]|].
    apply Forall_cons; split; [left; discriminate|]. apply Forall_nil_2.
  - reflexivity.
Defined.

(** An instance of [team_process_file_unsupported]. *)
Lemma team_process_file_unsupported_witness :
  (team_process_file image_of audio_of video_of document_of
     [png; zip; pdf] {| world := (); trace := [] |}).1
  = Raise (HTTPException 400 "Unsupported file type").
Proof.
  apply (team_process_file_unsupported image_of audio_of video_of document_of
           [png] [pdf] zip {| world := (); trace := [] |});
    [|reflexivity..].
  apply Forall_cons; split; [left; discriminate|]. apply Forall_nil_2.
Defined.

End Attachments.

(** ** Run dispatcher: validation, workflows, attachments *)

Module DispatchMore.
Import Router RouterExamples RouterMore Dispatch.

Section Requests.
Context {World : Type}.
Variable uuid4 : World → string * World.
Variable process_image : UploadFile → Result Image.
Variable process_audio : UploadFile → Result Audio.
Variable process_video : UploadFile → Result Video.
Variable process_document : UploadFile → Result (option FileMedia).
Variable read_document : string → UploadFile → Result string.
Variable load_documents : Knowledge → string → World → Result () * World.
Variable json_loads : string → option JsonValue.
Variable run_blocking : RunCall → World → Result string * World.

Local Abbreviation serve' :=
  (serve uuid4 process_image process_audio process_video process_document
     read_document load_documents json_loads run_blocking).

Ltac enter_handler req w :=
  unfold serve, run_agent_or_team_or_workflow, session_start, bind, call,
    emit, ret, raise;
  simpl;
  destruct (session_id req) as [[|? ?]|]; simpl;
  destruct (uuid4 w) as [? ?]; simpl.

(** Selector exclusivity: a request that sets none, or more than one, of
    [agent_id], [team_id] and [workflow_id] is refused with status 400, for
    every registry, and no run is invoked. *)
Theorem exactly_one_selector_required (reg : Registry) (req : Request)
    (w : World) :
  selectors_set req ≠ 1 →
  (∃ detail, (serve' reg req w).1 = Raise (HTTPException 400 detail)) ∧
  http_status (serve' reg req w).1 = 400 ∧
  no_run_invoked (trace (serve' reg req w).2).
Proof.
  unfold selectors_set. intros Hsel.
  destruct (truthy (req_agent_id req)) eqn:Ha,
           (truthy (req_team_id req)) eqn:Ht,
           (truthy (req_workflow_id req)) eqn:Hw; simpl in Hsel; try done.
  all: try (destruct (more_than_one_selector uuid4 process_image
              process_audio process_video process_document read_document
              load_documents json_loads run_blocking reg req w) as [Hr Hn];
            [by rewrite Ha, Ht, Hw|];
            rewrite Hr; split_and!; [by eexists|done|done]).
  destruct (no_selector uuid4 process_image process_audio process_video
              process_document read_document load_documents json_loads
              run_blocking reg req w Ha Ht Hw) as [Hr Hn].
  rewrite Hr. split_and!; [by eexists|done|done].
Qed.

(** An identifier that names nothing in a registry that is not empty is
    answered with 404, for agents, teams and workflows alike, and no run is
    invoked. *)
Theorem unknown_id_is_404 (reg : Registry) (req : Request) (w : World) :
  selectors_set req = 1 →
  (truthy (req_agent_id req) = true ∧ truthy_list (agents reg) = true ∧
   find_by_id agent_id (req_agent_id req) (default [] (agents reg)) = None)
  ∨ (truthy (req_team_id req) = true ∧ truthy_list (teams reg) = true ∧
     find_by_id team_id (req_team_id req) (default [] (teams reg)) = None)
  ∨ (truthy (req_workflow_id req) = true ∧
     truthy_list (workflows reg) = true ∧
     find_by_id workflow_id (req_workflow_id req)
       (default [] (workflows reg)) = None) →
  http_status (serve' reg req w).1 = 404 ∧
  unhandled (serve' reg req w).1 = false ∧
  no_run_invoked (trace (serve' reg req w).2).
Proof.
  unfold selectors_set. intros Hsel Hcase.
  destruct (truthy (req_agent_id req)) eqn:Ha,
           (truthy (req_team_id req)) eqn:Ht,
           (truthy (req_workflow_id req)) eqn:Hw; simpl in Hsel; try done.
  - destruct Hcase as [(_ & Hreg & Hfind)|[(? & _)|(? & _)]]; try done.
    destruct (unknown_agent uuid4 process_image process_audio process_video
                process_document read_document load_documents json_loads
                run_blocking reg req w Ha Ht Hw Hreg Hfind) as [Hr Hn].
    by rewrite Hr.
  - destruct Hcase as [(? & _)|[(_ & Hreg & Hfind)|(? & _)]]; try done.
    destruct (unknown_team uuid4 process_image process_audio process_video
                process_document read_document load_documents json_loads
                run_blocking reg req w Ha Ht Hw Hreg Hfind) as [Hr Hn].
    by rewrite Hr.
  - destruct Hcase as [(? & _)|[(? & _)|(_ & Hreg & Hfind)]]; try done.
    destruct (unknown_workflow uuid4 process_image process_audio
                process_video process_document read_document load_documents
                json_loads run_blocking reg req w Ha Ht Hw Hreg Hfind)
      as [Hr Hn].
    by rewrite Hr.
Qed.

(** A request whose selector names a registered agent or team and whose
    [message] is absent or empty, or names a registered workflow and whose
    [workflow_input] is absent or empty, is refused with 400 before
    anything runs. *)
Theorem missing_input_is_400 (reg : Registry) (req : Request) (w : World) :
  selectors_set req = 1 →
  (truthy (req_agent_id req) = true ∧ truthy_list (agents reg) = true ∧
   is_Some (find_by_id agent_id (req_agent_id req)
              (default [] (agents reg))) ∧
   truthy (message req) = false)
  ∨ (truthy (req_team_id req) = true ∧ truthy_list (teams reg) = true ∧
     is_Some (find_by_id team_id (req_team_id req)
                (default [] (teams reg))) ∧
     truthy (message req) = false)
  ∨ (truthy (req_workflow_id req) = true ∧
     truthy_list (workflows reg) = true ∧
     is_Some (find_by_id workflow_id (req_workflow_id req)
                (default [] (workflows reg))) ∧
     truthy (workflow_input req) = false) →
  http_status (serve' reg req w).1 = 400 ∧
  unhandled (serve' reg req w).1 = false ∧
  no_run_invoked (trace (serve' reg req w).2).
Proof.
  unfold selectors_set. intros Hsel Hcase.
  destruct (truthy (req_agent_id req)) eqn:Ha,
           (truthy (req_team_id req)) eqn:Ht,
           (truthy (req_workflow_id req)) eqn:Hw; simpl in Hsel; try done.
  - destruct Hcase as [(_ & Hreg & [a Hfind] & Hm)|[(? & _)|(? & _)]];
      try done.
    destruct (agent_without_message uuid4 process_image process_audio
                process_video process_document read_document load_documents
                json_loads run_blocking reg req w a Ha Ht Hw Hreg Hfind Hm)
      as [Hr Hn].
    by rewrite Hr.
  - destruct Hcase as [(? & _)|[(_ & Hreg & [t Hfind] & Hm)|(? & _)]];
      try done.
    destruct (team_without_message uuid4 process_image process_audio
                process_video process_document read_document load_documents
                json_loads run_blocking reg req w t Ha Ht Hw Hreg Hfind Hm)
      as [Hr Hn].
    by rewrite Hr.
  - destruct Hcase as [(? & _)|[(? & _)|(_ & Hreg & [wf Hfind] & Hm)]];
      try done.
    destruct (workflow_without_input uuid4 process_image process_audio
                process_video process_document read_document load_documents
                json_loads run_blocking reg req w wf Ha Ht Hw Hreg Hfind Hm)
      as [Hr Hn].
    by rewrite Hr.
Qed.



(** A request for a registered agent with a message and files: the files
    are processed after [monitoring] is set and before anything runs.  An
    exception of the processing is the outcome of the request, and the
    agent never runs.  Otherwise the agent runs once, with the session,
    the user and each converted list, or [None] for an empty one; a
    streaming request returns the agent streamer over the same arguments
    and invokes nothing itself. *)
Theorem agent_request_with_attachments (reg : Registry) (req : Request)
    (w : World) (agent : Agent) :
  truthy (req_agent_id req) = true → truthy (req_team_id req) = false →
  truthy (req_workflow_id req) = false →
  truthy_list (agents reg) = true →
  find_by_id agent_id (req_agent_id req) (default [] (agents reg))
    = Some agent →
  truthy (message req) = true →
  truthy_list (files req) = true →
  let start := session_start uuid4 req w in
  let processed :=
    agent_process_file process_image process_audio process_video
      read_document load_documents (default [] (files req)) agent
      {| world := world start.2;
         trace := trace start.2
                  ++ [MonitoringSet (agent_id agent) (monitor req)] |} in
  match processed.1 with
  | Raise e => serve' reg req w = (Raise e, processed.2)
  | Ok (images, audios, videos) =>
      if stream req then
        serve' reg req w
        = (Ok (StreamingResponse
                 (AgentStream agent (message req) (Some start.1)
                    (user_id req) (or_none images) (or_none audios)
                    (or_none videos))),
           processed.2)
      else
        let c := AgentRun agent
                   {| arg_message := message req;
                      arg_session_id := Some start.1;
                      arg_user_id := user_id req;
                      arg_images := or_none images;
                      arg_audio := or_none audios;
                      arg_videos := or_none videos;
                      arg_files := None;
                      arg_stream := false;
                      arg_stream_intermediate_steps := false |} in
        serve' reg req w
        = (match (run_blocking c (world processed.2)).1 with
           | Ok run_response => Ok (JsonBody run_response)
           | Raise e => Raise e
           end,
           {| world := (run_blocking c (world processed.2)).2;
              trace := trace processed.2 ++ [RunCalled c] |})
  end.
Proof.
  intros Ha Ht Hw Hreg Hfind Hm Hf.
  unfold agent_process_file.
  enter_handler req w; rewrite Ha, Ht, Hw, Hreg; simpl; rewrite Hfind;
    simpl; rewrite Hm; simpl; rewrite Hf; simpl;
    unfold agent_process_file, bind; simpl;
    match goal with
    | |- context [agent_process_file_from ?pi ?pa ?pv ?rd ?ld ?fs ?ag
                    ?i ?a ?v ?st] =>
        destruct (agent_process_file_from pi pa pv rd ld fs ag i a v st)
          as [[[[images audios] videos]|e] st2]
    end; simpl; try reflexivity;
    destruct (stream req); simpl; try reflexivity;
    match goal with
    | |- context [run_blocking ?c ?w0] =>
        destruct (run_blocking c w0) as [[?|?] ?]
    end; reflexivity.
Qed.

(** The same for a registered team, whose processing also returns the
    document files, passed to the run as [files]. *)
Theorem team_request_with_attachments (reg : Registry) (req : Request)
    (w : World) (team : Team) :
  truthy (req_agent_id req) = false → truthy (req_team_id req) = true →
  truthy (req_workflow_id req) = false →
  truthy_list (teams reg) = true →
  find_by_id team_id (req_team_id req) (default [] (teams reg))
    = Some team →
  truthy (message req) = true →
  truthy_list (files req) = true →
  let start := session_start uuid4 req w in
  let processed :=
    team_process_file process_image process_audio process_video
      process_document (default [] (files req))
      {| world := world start.2;
         trace := trace start.2
                  ++ [MonitoringSet (team_id team) (monitor req)] |} in
  match processed.1 with
  | Raise e => serve' reg req w = (Raise e, processed.2)
  | Ok (images, audios, videos, documents) =>
      if stream req then
        serve' reg req w
        = (Ok (StreamingResponse
                 (TeamStream team (message req) (Some start.1)
                    (user_id req) (or_none images) (or_none audios)
                    (or_none videos) (or_none documents))),
           processed.2)
      else
        let c := TeamRun team
                   {| arg_message := message req;
                      arg_session_id := Some start.1;
                      arg_user_id := user_id req;
                      arg_images := or_none images;
                      arg_audio := or_none audios;
                      arg_videos := or_none videos;
                      arg_files := or_none documents;
                      arg_stream := false;
                      arg_stream_intermediate_steps := false |} in
        serve' reg req w
        = (match (run_blocking c (world processed.2)).1 with
           | Ok run_response => Ok (JsonBody run_response)
           | Raise e => Raise e
           end,
           {| world := (run_blocking c (world processed.2)).2;
              trace := trace processed.2 ++ [RunCalled c] |})
  end.
Proof.
  intros Ha Ht Hw Hreg Hfind Hm Hf.
  unfold team_process_file.
  enter_handler req w; rewrite Ha, Ht, Hw, Hreg; simpl; rewrite Hfind;
    simpl; rewrite Hm; simpl; rewrite Hf; simpl;
    unfold team_process_file, bind; simpl;
    match goal with
    | |- context [team_process_file_from ?pi ?pa ?pv ?pd ?fs
                    ?i ?a ?v ?d ?st] =>
        destruct (team_process_file_from pi pa pv pd fs i a v d st)
          as [[[[[images audios] videos] documents]|e] st2]
    end; simpl; try reflexivity;
    destruct (stream req); simpl; try reflexivity;
    match goal with
    | |- context [run_blocking ?c ?w0] =>
        destruct (run_blocking c w0) as [[?|?] ?]
    end; reflexivity.
Qed.

End Requests.

(** An instance of [exactly_one_selector_required]. *)
Lemma exactly_one_selector_required_witness :
  http_status
    (serve uuid4_fixed image_of audio_of video_of document_of read_any
       load_any json_never run_echo registry_one_agent request_a1_and_t1
       ()).1 = 400.
Proof.
  apply (exactly_one_selector_required uuid4_fixed image_of audio_of video_of
           document_of read_any load_any json_never run_echo
           registry_one_agent request_a1_and_t1 ()).
  discriminate.
Defined.

(** An instance of [unknown_id_is_404]. *)
Lemma unknown_id_is_404_witness :
  http_status
    (serve uuid4_fixed image_of audio_of video_of document_of read_any
       load_any json_never run_echo registry_one_agent
       request_unknown_agent ()).1 = 404.
Proof.
  apply (unknown_id_is_404 uuid4_fixed image_of audio_of video_of
           document_of read_any load_any json_never run_echo
           registry_one_agent request_unknown_agent ()).
  - reflexivity.
  - left. split_and!; reflexivity.
Defined.

(** An instance of [missing_input_is_400]. *)
Lemma missing_input_is_400_witness :
  http_status
    (serve uuid4_fixed image_of audio_of video_of document_of read_any
       load_any json_never run_echo registry_one_agent
       request_a1_no_message ()).1 = 400.
Proof.
  apply (missing_input_is_400 uuid4_fixed image_of audio_of video_of
           document_of read_any load_any json_never run_echo
           registry_one_agent request_a1_no_message ()).
  - reflexivity.
  - left. split_and!; try reflexivity. by exists agent_a1.
Defined.



(** An instance of [agent_request_with_attachments]: an image and an
    audio file, not streaming. *)
Lemma agent_request_with_attachments_witness :
  serve uuid4_fixed image_of audio_of video_of document_of read_any
    load_any json_never run_echo registry_one_agent
    (request_a1_with [png; wav] false) ()
  = (Ok (JsonBody "result"),
     {| world := ();
        trace := [MonitoringSet (Some "a1") false;
                  FileLogged (Some "image/png");
                  FileLogged (Some "audio/wav");
                  RunCalled
                    (AgentRun agent_a1
                       {| arg_message := Some "hi";
                          arg_session_id := Some "s1";
                          arg_user_id := Some "u1";
                          arg_images := Some [Base64Image "a.png"];
                          arg_audio := Some [Base64Audio "a.wav"];
                          arg_videos := None;
                          arg_files := None;
                          arg_stream := false;
                          arg_stream_intermediate_steps := false |})] |}).
Proof.
  pose proof (agent_request_with_attachments uuid4_fixed image_of audio_of
           video_of document_of read_any load_any json_never run_echo
           registry_one_agent (request_a1_with [png; wav] false) ()
           agent_a1 eq_refl eq_refl eq_refl eq_refl eq_refl eq_refl
           eq_refl) as H.
  exact H.
Defined.

(** An instance of [team_request_with_attachments]: an unsupported file
    fails the request before the team runs. *)
Lemma team_request_with_attachments_witness :
  serve uuid4_fixed image_of audio_of video_of document_of read_any
    load_any json_never run_echo registry_teams_only
    (request_t1_with [png; zip] false) ()
  = (Raise (HTTPException 400 "Unsupported file type"),
     {| world := (); trace := [MonitoringSet (Some "t1") false] |}).
Proof.
  pose proof (team_request_with_attachments uuid4_fixed image_of audio_of
           video_of document_of read_any load_any json_never run_echo
           registry_teams_only (request_t1_with [png; zip] false) ()
           team_t1 eq_refl eq_refl eq_refl eq_refl eq_refl eq_refl
           eq_refl) as H.
  exact H.
Defined.

End DispatchMore.
